(** * MixUnet backbone (ppdet/modeling/backbones/mixunet.py)

    A shallow embedding of the tensor-shape algebra of the MixUnet backbone.

    Two kinds of tensors are used.  A _value tensor_ carries its dimensions
    and its elements in row-major order; the pure data-movement functions of
    the module ([window_partition2], [window_reverse2], the rearrangement in
    [PatchExpand]) are run on it.  A _shape tensor_ is just the list of
    dimensions; the learned layers (linear maps, convolutions, softmax, ...)
    compute floating-point values that are not modelled, and are embedded by
    what they do to the shape of their input, including the cases in which
    the framework raises.  Both are instances of one interface, so that each
    function of the module is written once. *)

From Stdlib Require Import String DecimalString.
From Stdlib Require Import List Arith ZArith Lia Bool.
Import ListNotations.
Open Scope string_scope.
Open Scope list_scope.
Open Scope nat_scope.

(** ** Exceptions *)

Inductive error : Type :=
| AssertionError (msg : string)
| ValueError (msg : string)
| TypeError (msg : string)
| UnboundLocalError (msg : string)
| ZeroDivisionError
| IndexError.

Inductive result (A : Type) : Type :=
| Ok (a : A)
| Raise (e : error).
Arguments Ok {A} a.
Arguments Raise {A} e.

Definition bind {A B : Type} (m : result A) (k : A -> result B) : result B :=
  match m with
  | Ok a => k a
  | Raise e => Raise e
  end.

Notation "x <- m ;; k" := (bind m (fun x => k))
  (at level 61, m at next level, right associativity).
Notation "' p <- m ;; k" := (bind m (fun x => let p := x in k))
  (at level 61, p pattern, m at next level, right associativity).

Definition assert (b : bool) (msg : string) : result unit :=
  if b then Ok tt else Raise (AssertionError msg).

(** Python's [a // b] on non-negative integers. *)
Definition floordiv (a b : nat) : result nat :=
  if b =? 0 then Raise ZeroDivisionError else Ok (a / b).

(** Python's [a % b] on non-negative integers. *)
Definition pymod (a b : nat) : result nat :=
  if b =? 0 then Raise ZeroDivisionError else Ok (a mod b).

(** ** Shapes and row-major indexing *)

Definition prod (s : list nat) : nat := fold_right Nat.mul 1 s.

(** The multi-index of the [j]-th element of a tensor of shape [s]. *)
Fixpoint unravel (s : list nat) (j : nat) : list nat :=
  match s with
  | [] => []
  | _ :: s' => (j / prod s') :: unravel s' (j mod prod s')
  end.

(** The position of the element at multi-index [idx]. *)
Fixpoint ravel (s idx : list nat) : nat :=
  match s, idx with
  | _ :: s', i :: idx' => i * prod s' + ravel s' idx'
  | _, _ => 0
  end.

(** ** [reshape]

    An entry of the target shape is the literal [-1] ([Infer]) or a
    non-negative integer.  As documented for [paddle.reshape], [-1] is
    inferred from the number of elements, and [0] copies the dimension of the
    input at the same position. *)

Inductive dimspec : Type :=
| Infer
| Dim (n : nat).

Fixpoint copy_dims (s : list nat) (i : nat) (spec : list dimspec)
  : result (list (option nat)) :=
  match spec with
  | [] => Ok []
  | Infer :: rest =>
      rest' <- copy_dims s (S i) rest ;;
      Ok (None :: rest')
  | Dim 0 :: rest =>
      match nth_error s i with
      | Some n =>
          rest' <- copy_dims s (S i) rest ;;
          Ok (Some n :: rest')
      | None => Raise (ValueError "reshape: index of 0 out of range")
      end
  | Dim n :: rest =>
      rest' <- copy_dims s (S i) rest ;;
      Ok (Some n :: rest')
  end.

Fixpoint known_size (spec : list (option nat)) : nat :=
  match spec with
  | [] => 1
  | Some n :: rest => n * known_size rest
  | None :: rest => known_size rest
  end.

Fixpoint count_infer (spec : list (option nat)) : nat :=
  match spec with
  | [] => 0
  | Some _ :: rest => count_infer rest
  | None :: rest => S (count_infer rest)
  end.

Definition fill (k : nat) (spec : list (option nat)) : list nat :=
  map (fun d => match d with Some n => n | None => k end) spec.

Definition reshape_shape (spec : list dimspec) (s : list nat)
  : result (list nat) :=
  spec' <- copy_dims s 0 spec ;;
  match count_infer spec' with
  | 0 =>
      if known_size spec' =? prod s then Ok (fill 0 spec')
      else Raise (ValueError "reshape: size mismatch")
  | 1 =>
      if known_size spec' =? 0
      then Raise (ValueError "reshape: cannot infer")
      else if prod s mod known_size spec' =? 0
           then Ok (fill (prod s / known_size spec') spec')
           else Raise (ValueError "reshape: size mismatch")
  | _ => Raise (ValueError "reshape: more than one -1")
  end.

(** Target shapes without a zero entry, and what they resolve to. *)

Definition pos_spec (spec : list dimspec) : Prop :=
  Forall (fun d => match d with Infer => True | Dim n => 0 < n end) spec.

Definition to_opt (spec : list dimspec) : list (option nat) :=
  map (fun d => match d with Infer => None | Dim n => Some n end) spec.

(** ** [transpose] *)

Definition is_perm (perm : list nat) (n : nat) : bool :=
  (length perm =? n) &&
  forallb (fun i => existsb (Nat.eqb i) perm) (seq 0 n).

Definition permute (perm l : list nat) : list nat :=
  map (fun p => nth p l 0) perm.

Fixpoint index_of (m : nat) (perm : list nat) : nat :=
  match perm with
  | [] => 0
  | p :: rest => if p =? m then 0 else S (index_of m rest)
  end.

Definition inverse (perm : list nat) : list nat :=
  map (fun m => index_of m perm) (seq 0 (length perm)).

Definition transpose_shape (perm : list nat) (s : list nat)
  : result (list nat) :=
  if is_perm perm (length s) then Ok (permute perm s)
  else Raise (ValueError "transpose: bad permutation").

(** Element [j] of the transposed tensor is element [transpose_index perm s j]
    of the input: axis [k] of the output is axis [perm[k]] of the input. *)
Definition transpose_index (perm s : list nat) (j : nat) : nat :=
  ravel s (permute (inverse perm) (unravel (permute perm s) j)).

(** ** [roll] along some axes (shifts are Python integers) *)

Fixpoint roll_idx (s idx : list nat) (shift_of : nat -> Z) (k : nat)
  : list nat :=
  match s, idx with
  | d :: s', i :: idx' =>
      Z.to_nat ((Z.of_nat i - shift_of k) mod Z.of_nat d)
        :: roll_idx s' idx' shift_of (S k)
  | _, _ => []
  end.

Fixpoint shift_on (shifts : list Z) (axis : list nat) (k : nat) : Z :=
  match shifts, axis with
  | sh :: shifts', a :: axis' =>
      ((if (a =? k)%nat then sh else 0) + shift_on shifts' axis' k)%Z
  | _, _ => 0%Z
  end.

Definition roll_index (shifts : list Z) (axis : list nat) (s : list nat)
    (j : nat) : nat :=
  ravel s (roll_idx s (unravel s j) (shift_on shifts axis) 0).

(** ** Value tensors *)

Record tensor (A : Type) : Type := mkTensor {
  dims : list nat;
  data : list A
}.
Arguments mkTensor {A} dims data.
Arguments dims {A} t.
Arguments data {A} t.

Definition wf {A : Type} (t : tensor A) : Prop :=
  length (data t) = prod (dims t).

(** [gather idxs l] reads [l] at the positions [idxs]. *)
Definition gather {A : Type} (idxs : list nat) (l : list A) : list A :=
  match l with
  | [] => []
  | d :: _ => map (fun i => nth i l d) idxs
  end.

(** ** The tensor interface *)

Class Tensor (T : Type) : Type := {
  shape : T -> list nat;
  reshape : list dimspec -> T -> result T;
  transpose : list nat -> T -> result T;
  roll : list Z -> list nat -> T -> result T
}.

#[export] Instance shape_tensor : Tensor (list nat) := {
  shape := fun s => s;
  reshape := reshape_shape;
  transpose := transpose_shape;
  roll := fun _ _ s => Ok s
}.

#[export] Instance value_tensor (A : Type) : Tensor (tensor A) := {
  shape := dims;
  reshape := fun spec t =>
    s' <- reshape_shape spec (dims t) ;;
    Ok (mkTensor s' (data t));
  transpose := fun perm t =>
    s' <- transpose_shape perm (dims t) ;;
    Ok (mkTensor s'
          (gather (map (transpose_index perm (dims t)) (seq 0 (prod s')))
                  (data t)));
  roll := fun shifts axis t =>
    Ok (mkTensor (dims t)
          (gather (map (roll_index shifts axis (dims t))
                       (seq 0 (prod (dims t))))
                  (data t)))
}.

(** ** Windowing (lines 33-68) *)

Definition window_partition2 {T : Type} `{Tensor T}
    (x : T) (window_size : nat * nat) : result T :=
  match shape x with
  | [B; C; H; W] =>
      nh <- floordiv H (fst window_size) ;;
      nw <- floordiv W (snd window_size) ;;
      x <- reshape [Dim B; Dim C; Dim nh; Dim (fst window_size);
                    Dim nw; Dim (snd window_size)] x ;;
      x <- transpose [0; 2; 4; 3; 5; 1] x ;;
      reshape [Infer; Dim (fst window_size * snd window_size); Dim C] x
  | _ => Raise (ValueError "not enough values to unpack")
  end.

Definition window_reverse2 {T : Type} `{Tensor T}
    (windows : T) (window_size : nat * nat) (H W C : nat) : result T :=
  nh <- floordiv H (fst window_size) ;;
  nw <- floordiv W (snd window_size) ;;
  x <- reshape [Infer; Dim nh; Dim nw; Dim (fst window_size);
                Dim (snd window_size); Dim C] windows ;;
  x <- transpose [0; 5; 1; 3; 2; 4] x ;;
  reshape [Infer; Dim C; Dim H; Dim W] x.

(** ** Framework layers, by their effect on shapes

    A layer object is the function it applies to the shape of its input.
    Its forward pass fails when the input does not fit.  Its constructor
    creates the parameter tensors; as in the 2.x releases of the framework
    this module was written for, [create_parameter] asserts that every
    dimension of a parameter is positive (later releases accept an empty
    parameter). *)

Definition layer : Type := list nat -> result (list nat).

Definition check (b : bool) (msg : string) : result unit :=
  if b then Ok tt else Raise (ValueError msg).

Definition Identity : layer := fun x => Ok x.
Definition GELU : layer := fun x => Ok x.
Definition ReLU : layer := fun x => Ok x.
Definition Silu : layer := fun x => Ok x.
Definition LeakyReLU : layer := fun x => Ok x.
Definition Softmax : layer := fun x => Ok x.
Definition Dropout : layer := fun x => Ok x.
Definition DropPath : layer := fun x => Ok x.
Definition sigmoid : layer := fun x => Ok x.

Fixpoint Sequential (ls : list layer) : layer :=
  fun x =>
    match ls with
    | [] => Ok x
    | l :: rest => y <- l x ;; Sequential rest y
    end.

Definition Linear_forward (in_features out_features : nat) : layer :=
  fun x =>
    match rev x with
    | c :: pre =>
        _ <- check (c =? in_features) "Linear: input width" ;;
        Ok (rev (out_features :: pre))
    | [] => Raise (ValueError "Linear: scalar input")
    end.

Definition Linear (in_features out_features : nat) : result layer :=
  _ <- assert ((0 <? in_features) && (0 <? out_features))
         "Expected every dim's size to be larger than 0" ;;
  Ok (Linear_forward in_features out_features).

Definition LayerNorm_forward (normalized_shape : nat) : layer :=
  fun x =>
    match rev x with
    | c :: _ =>
        _ <- check (c =? normalized_shape) "LayerNorm: input width" ;;
        Ok x
    | [] => Raise (ValueError "LayerNorm: scalar input")
    end.

Definition LayerNorm (normalized_shape : nat) : result layer :=
  _ <- assert (0 <? normalized_shape)
         "Expected every dim's size to be larger than 0" ;;
  Ok (LayerNorm_forward normalized_shape).

(** [nn.BatchNorm] and [nn.BatchNorm2D] on a (N, C, H, W) input. *)
Definition BatchNorm_forward (num_channels : nat) : layer :=
  fun x =>
    match x with
    | [_; C; _; _] =>
        _ <- check (C =? num_channels) "BatchNorm: channels" ;;
        Ok x
    | _ => Raise (ValueError "BatchNorm: rank")
    end.

Definition BatchNorm (num_channels : nat) : result layer :=
  _ <- assert (0 <? num_channels)
         "Expected every dim's size to be larger than 0" ;;
  Ok (BatchNorm_forward num_channels).

(** The size of an axis after a convolution (dilation 1).  The framework
    computes [(size + 2 * padding - kernel) / stride + 1] on C++ integers,
    whose division truncates towards zero ([Z.quot]): a kernel that exceeds
    the padded input by less than the stride still gives size 1.  A size
    that is not positive is refused. *)
Definition conv_out (size kernel stride padding : nat) : result nat :=
  let n := (Z.of_nat size + 2 * Z.of_nat padding - Z.of_nat kernel)%Z in
  let out := (Z.quot n (Z.of_nat stride) + 1)%Z in
  _ <- check (0 <? out)%Z "Conv2D: output size is not positive" ;;
  Ok (Z.to_nat out).

Definition Conv2D_forward (in_channels out_channels kernel_size stride
    padding : nat) : layer :=
  fun x =>
    match x with
    | [B; C; H; W] =>
        _ <- check (C =? in_channels) "Conv2D: channels" ;;
        H' <- conv_out H kernel_size stride padding ;;
        W' <- conv_out W kernel_size stride padding ;;
        Ok [B; out_channels; H'; W']
    | _ => Raise (ValueError "Conv2D: rank")
    end.

Definition Conv2D (in_channels out_channels kernel_size stride padding
    groups : nat) : result layer :=
  _ <- check ((0 <? groups) && (0 <? stride) && (0 <? kernel_size))
         "Conv2D: bad argument" ;;
  _ <- check ((in_channels mod groups =? 0) && (out_channels mod groups =? 0))
         "Conv2D: channels not divisible by groups" ;;
  _ <- assert ((0 <? in_channels) && (0 <? out_channels))
         "Expected every dim's size to be larger than 0" ;;
  Ok (Conv2D_forward in_channels out_channels kernel_size stride padding).

(** [F.adaptive_avg_pool2d(x, output_size=1)] *)
Definition adaptive_avg_pool2d_1 : layer :=
  fun x =>
    match x with
    | [B; C; _; _] => Ok [B; C; 1; 1]
    | _ => Raise (ValueError "adaptive_avg_pool2d: rank")
    end.

(** Broadcasting of two shapes, aligned at the last axis. *)
Fixpoint broadcast_rev (a b : list nat) : result (list nat) :=
  match a, b with
  | [], _ => Ok b
  | _, [] => Ok a
  | x :: a', y :: b' =>
      d <- (if x =? y then Ok x
            else if x =? 1 then Ok y
            else if y =? 1 then Ok x
            else Raise (ValueError "operands could not be broadcast")) ;;
      r <- broadcast_rev a' b' ;;
      Ok (d :: r)
  end.

Definition broadcast (a b : list nat) : result (list nat) :=
  r <- broadcast_rev (rev a) (rev b) ;;
  Ok (rev r).

(** [a += b]: the result must have the shape of [a]. *)
Definition iadd (a b : list nat) : result (list nat) :=
  r <- broadcast a b ;;
  _ <- check (if list_eq_dec Nat.eq_dec r a then true else false)
         "in-place add: shape changes" ;;
  Ok a.

(** [paddle.mm]: matrix product on the last two axes, batched on the rest. *)
Definition mm (a b : list nat) : result (list nat) :=
  match rev a, rev b with
  | k :: m :: batch_a, n :: k' :: batch_b =>
      _ <- check (k =? k') "mm: inner dimensions" ;;
      batch <- broadcast_rev batch_a batch_b ;;
      Ok (rev (n :: m :: batch))
  | _, _ => Raise (ValueError "mm: rank")
  end.

(** A Python index into a list: negative indices count from the end. *)
Definition py_index {A : Type} (l : list A) (i : Z) : result A :=
  let j := if (i <? 0)%Z then (Z.of_nat (length l) + i)%Z else i in
  if (j <? 0)%Z then Raise IndexError
  else match nth_error l (Z.to_nat j) with
       | Some a => Ok a
       | None => Raise IndexError
       end.

Definition axis_of (rank : nat) (axis : Z) : result nat :=
  let j := if (axis <? 0)%Z then (Z.of_nat rank + axis)%Z else axis in
  if ((j <? 0) || (Z.of_nat rank <=? j))%Z
  then Raise (ValueError "axis out of range")
  else Ok (Z.to_nat j).

Definition set_nth (k : nat) (v : nat) (s : list nat) : list nat :=
  firstn k s ++ v :: skipn (S k) s.

(** [paddle.concat(xs, axis)] *)
Fixpoint concat_at (k : nat) (acc : list nat) (xs : list (list nat))
  : result (list nat) :=
  match xs with
  | [] => Ok acc
  | x :: rest =>
      _ <- check ((length x =? length acc) &&
                  (if list_eq_dec Nat.eq_dec (set_nth k 0 x) (set_nth k 0 acc)
                   then true else false)) "concat: shapes differ" ;;
      concat_at k (set_nth k (nth k acc 0 + nth k x 0) acc) rest
  end.

Definition concat (xs : list (list nat)) (axis : Z) : result (list nat) :=
  match xs with
  | [] => Raise (ValueError "concat: no input")
  | x :: rest =>
      k <- axis_of (length x) axis ;;
      concat_at k x rest
  end.

(** [paddle.index_select(x, index)] along axis 0; every index must name a
    row of [x]. *)
Definition index_select (x : list nat) (index : list Z) : result (list nat) :=
  match x with
  | rows :: rest =>
      if forallb (fun i => (0 <=? i)%Z && (i <? Z.of_nat rows)%Z) index
      then Ok (length index :: rest)
      else Raise IndexError
  | [] => Raise (ValueError "index_select: scalar input")
  end.

(** [x.flatten(start_axis)] *)
Definition flatten (start_axis : nat) : layer :=
  fun x =>
    _ <- check (start_axis <? length x) "flatten: axis out of range" ;;
    Ok (firstn start_axis x ++ [prod (skipn start_axis x)]).

(** [x.unsqueeze(axis)] *)
Definition unsqueeze (axis : nat) : layer :=
  fun x =>
    _ <- check (axis <=? length x) "unsqueeze: axis out of range" ;;
    Ok (firstn axis x ++ 1 :: skipn axis x).

(** [x[0]], [x[1]], ...: one entry along the first axis. *)
Definition select0 (i : nat) : layer :=
  fun x =>
    match x with
    | n :: rest => if i <? n then Ok rest else Raise IndexError
    | [] => Raise IndexError
    end.

(** Length of [range(start, size, 2)]. *)
Definition stride2_len (start size : nat) : nat := (size + 1 - start) / 2.

(** [x[..., a::2, b::2]] *)
Definition slice_stride2 (a b : nat) : layer :=
  fun x =>
    match rev x with
    | W :: H :: pre => Ok (rev (stride2_len b W :: stride2_len a H :: pre))
    | _ => Raise IndexError
    end.

(** [F.pad] in constant mode.  With as many pairs as [x] has axes, the pairs
    are (before, after) amounts for the axes from the first to the last. *)
Fixpoint pad_all (x : list nat) (pad : list nat) : result (list nat) :=
  match x, pad with
  | [], [] => Ok []
  | d :: x', before :: after :: pad' =>
      r <- pad_all x' pad' ;;
      Ok (before + d + after :: r)
  | _, _ => Raise (ValueError "pad: length of pad")
  end.

(** [F.pad] of a (N, C, H, W) input with [left, right, top, bottom]. *)
Definition pad_nchw (x : list nat) (pad : list nat) : result (list nat) :=
  match x, pad with
  | [B; C; H; W], [l; r; t; b] => Ok [B; C; t + H + b; l + W + r]
  | _, _ => Raise (ValueError "pad: length of pad")
  end.

Definition pad (x : list nat) (pad : list nat) : result (list nat) :=
  if length pad =? 2 * length x then pad_all x pad else pad_nchw x pad.

(** [x.shape[0]] *)
Definition select_dim0 (x : list nat) : result nat :=
  match x with
  | n :: _ => Ok n
  | [] => Raise IndexError
  end.

(** [x.shape[-1]] *)
Definition last_dim (x : list nat) : result nat :=
  match rev x with
  | c :: _ => Ok c
  | [] => Raise IndexError
  end.

(** [create_parameter(shape)]: the dimensions are Python integers, and
    every one of them must be positive. *)
Definition create_parameter (s : list Z) : result (list nat) :=
  _ <- assert (forallb (fun d => (0 <? d)%Z) s)
         "Expected every dim's size to be larger than 0" ;;
  Ok (map Z.to_nat s).

(** ** Helpers imported from sibling modules *)

(** Modelled from the spec: [transformer_utils.to_2tuple] is imported, not
    defined in this file; a window size [ws] stands for [ws] x [ws] windows. *)
Definition to_2tuple (x : nat) : nat * nat := (x, x).

(** Modelled from the spec: [swin_transformer.window_partition] is imported,
    not defined in this file; it splits a (B, H, W, C) map into
    non-overlapping windows, (nW*B, window_size, window_size, C). *)
Definition window_partition {T : Type} `{Tensor T}
    (x : T) (window_size : nat) : result T :=
  match shape x with
  | [B; H; W; C] =>
      nh <- floordiv H window_size ;;
      nw <- floordiv W window_size ;;
      x <- reshape [Infer; Dim nh; Dim window_size; Dim nw; Dim window_size;
                    Dim C] x ;;
      x <- transpose [0; 1; 3; 2; 4; 5] x ;;
      reshape [Infer; Dim window_size; Dim window_size; Dim C] x
  | _ => Raise (ValueError "not enough values to unpack")
  end.

(** Modelled from the spec: [swin_transformer.window_reverse] is imported,
    not defined in this file; it reverses [window_partition], giving
    (B, H, W, C). *)
Definition window_reverse {T : Type} `{Tensor T}
    (windows : T) (window_size H W : nat) : result T :=
  match shape windows with
  | [_; _; _; C] =>
      nh <- floordiv H window_size ;;
      nw <- floordiv W window_size ;;
      x <- reshape [Infer; Dim nh; Dim nw; Dim window_size; Dim window_size;
                    Dim C] windows ;;
      x <- transpose [0; 1; 3; 2; 4; 5] x ;;
      reshape [Infer; Dim H; Dim W; Dim C] x
  | _ => Raise (ValueError "not enough values to unpack")
  end.

(** Modelled from the spec: [swin_transformer.Mlp] is imported, not defined
    in this file; two linear layers with an activation between them, back to
    the input width. *)
Definition Mlp (in_features hidden_features : nat) : result layer :=
  fc1 <- Linear in_features hidden_features ;;
  fc2 <- Linear hidden_features in_features ;;
  Ok (Sequential [fc1; GELU; Dropout; fc2; Dropout]).

(** ** MixingAttention (lines 71-265) *)

Definition arange (n : nat) : list Z := map Z.of_nat (seq 0 n).

(** [paddle.meshgrid([a, b])]: two grids of shape (|a|, |b|). *)
Definition meshgrid (a b : list Z) : list (list Z) * list (list Z) :=
  (map (fun x => map (fun _ => x) b) a, map (fun _ => b) a).

Module MixingAttention.

Record t : Type := mk {
  dim : nat;
  window_size : nat * nat;
  dwconv_kernel_size : nat;
  num_heads : nat;
  relative_position_bias_table : list nat;
  relative_position_index : list (list Z);
  proj_attn : layer;
  proj_attn_norm : layer;
  proj_cnn : layer;
  proj_cnn_norm : layer;
  dwconv3x3 : layer;
  channel_interaction : layer;
  projection : layer;
  conv_norm : layer;
  qkv : layer;
  attn_drop : layer;
  spatial_interaction : layer;
  attn_norm : layer;
  proj : layer;
  proj_drop : layer;
  softmax : layer
}.

(** Lines 165-185.  [coords_flatten] has shape (2, Wh*Ww) and
    [relative_coords] has shape (Wh*Ww, Wh*Ww, 2); the two coordinates of
    a token, or of a token pair (i, j), are kept as a pair. *)
Definition coords_flatten (window_size : nat * nat) : list (Z * Z) :=
  let coords_h := arange (fst window_size) in
  let coords_w := arange (snd window_size) in
  let coords := meshgrid coords_h coords_w in
  combine (List.concat (fst coords)) (List.concat (snd coords)).

Definition _get_rel_pos (window_size : nat * nat) : list (list (Z * Z)) :=
  let Wh := Z.of_nat (fst window_size) in
  let Ww := Z.of_nat (snd window_size) in
  let coords_flatten := coords_flatten window_size in
  let relative_coords :=
    map (fun ci =>
           map (fun cj => (fst ci - fst cj, snd ci - snd cj)%Z)
               coords_flatten)
        coords_flatten in
  let relative_coords :=
    map (map (fun c => (fst c + (Wh - 1), snd c)%Z)) relative_coords in
  let relative_coords :=
    map (map (fun c => (fst c, snd c + (Ww - 1))%Z)) relative_coords in
  let relative_coords :=
    map (map (fun c => (fst c * (2 * Ww - 1), snd c)%Z)) relative_coords in
  relative_coords.

(** [relative_coords.sum(-1)] *)
Definition sum_last (relative_coords : list (list (Z * Z)))
  : list (list Z) :=
  map (map (fun c => (fst c + snd c)%Z)) relative_coords.

(** Lines 89-163.  [qk_scale] tells whether a non-zero override of the
    attention scale is given; the scale itself is a float. *)
Definition init (dim : nat) (window_size : nat * nat)
    (dwconv_kernel_size num_heads : nat) (qk_scale : bool) : result t :=
  let attn_dim := dim / 2 in
  head_dim <- floordiv attn_dim num_heads ;;
  _ <- (if qk_scale then Ok tt
        else if head_dim =? 0 then Raise ZeroDivisionError else Ok tt) ;;
  relative_position_bias_table <-
    create_parameter [((2 * Z.of_nat (fst window_size) - 1) *
                       (2 * Z.of_nat (snd window_size) - 1))%Z;
                      Z.of_nat num_heads] ;;
  let relative_coords := _get_rel_pos window_size in
  let relative_position_index := sum_last relative_coords in
  proj_attn <- Linear dim (dim / 2) ;;
  proj_attn_norm <- LayerNorm (dim / 2) ;;
  proj_cnn <- Linear dim dim ;;
  proj_cnn_norm <- LayerNorm dim ;;
  dwconv <- Conv2D dim dim dwconv_kernel_size 1 (dwconv_kernel_size / 2)
              dim ;;
  dwconv_bn <- BatchNorm dim ;;
  let dwconv3x3 := Sequential [dwconv; dwconv_bn; GELU] in
  ci1 <- Conv2D dim (dim / 8) 1 1 0 1 ;;
  ci_bn <- BatchNorm (dim / 8) ;;
  ci2 <- Conv2D (dim / 8) (dim / 2) 1 1 0 1 ;;
  let channel_interaction := Sequential [ci1; ci_bn; GELU; ci2] in
  projection <- Conv2D dim (dim / 2) 1 1 0 1 ;;
  conv_norm <- BatchNorm (dim / 2) ;;
  qkv <- Linear (dim / 2) (dim / 2 * 3) ;;
  si1 <- Conv2D (dim / 2) (dim / 16) 1 1 0 1 ;;
  si_bn <- BatchNorm (dim / 16) ;;
  si2 <- Conv2D (dim / 16) 1 1 1 0 1 ;;
  let spatial_interaction := Sequential [si1; si_bn; GELU; si2] in
  attn_norm <- LayerNorm (dim / 2) ;;
  proj <- Linear dim dim ;;
  Ok (mk dim window_size dwconv_kernel_size num_heads
         relative_position_bias_table relative_position_index
         proj_attn proj_attn_norm proj_cnn proj_cnn_norm dwconv3x3
         channel_interaction projection conv_norm qkv Dropout
         spatial_interaction attn_norm proj Dropout Softmax).

(** Lines 187-265, on shapes. *)
Definition forward (self : t) (x : list nat) (H W : nat)
    (mask : option (list nat)) : result (list nat) :=
  x_atten <- (y <- proj_attn self x ;; proj_attn_norm self y) ;;
  x_cnn <- (y <- proj_cnn self x ;; proj_cnn_norm self y) ;;
  c_cnn <- last_dim x_cnn ;;
  x_cnn <- window_reverse2 x_cnn (window_size self) H W c_cnn ;;
  (* conv branch *)
  x_cnn <- dwconv3x3 self x_cnn ;;
  channel_interaction <-
    (y <- adaptive_avg_pool2d_1 x_cnn ;; channel_interaction self y) ;;
  x_cnn <- projection self x_cnn ;;
  (* attention branch *)
  match x_atten with
  | [B_; N; C] =>
      head_dim <- floordiv C (num_heads self) ;;
      qkv <- (y <- qkv self x_atten ;;
              y <- reshape [Dim B_; Dim N; Dim 3; Dim (num_heads self);
                            Dim head_dim] y ;;
              transpose [2; 0; 3; 1; 4] y) ;;
      q <- select0 0 qkv ;;
      k <- select0 1 qkv ;;
      v <- select0 2 qkv ;;
      (* channel interaction *)
      x_cnn2v <- (y <- sigmoid channel_interaction ;;
                  reshape [Infer; Dim 1; Dim (num_heads self); Dim 1;
                           Dim head_dim] y) ;;
      b0 <- select_dim0 x_cnn2v ;;
      v <- reshape [Dim b0; Infer; Dim (num_heads self); Dim N;
                    Dim head_dim] v ;;
      v <- broadcast v x_cnn2v ;;
      v <- reshape [Infer; Dim (num_heads self); Dim N; Dim head_dim] v ;;
      kT <- transpose [0; 1; 3; 2] k ;;
      attn <- mm q kT ;;
      let index := List.concat (relative_position_index self) in
      relative_position_bias <-
        index_select (relative_position_bias_table self) index ;;
      relative_position_bias <-
        reshape [Dim (fst (window_size self) * snd (window_size self));
                 Dim (fst (window_size self) * snd (window_size self));
                 Infer] relative_position_bias ;;
      relative_position_bias <-
        transpose [2; 0; 1] relative_position_bias ;;
      bias <- unsqueeze 0 relative_position_bias ;;
      attn <- broadcast attn bias ;;
      attn <-
        match mask with
        | Some mask =>
            nW <- select_dim0 mask ;;
            Bq <- floordiv B_ nW ;;
            a <- reshape [Dim Bq; Dim nW; Dim (num_heads self); Dim N;
                          Dim N] attn ;;
            m <- (y <- unsqueeze 1 mask ;; unsqueeze 0 y) ;;
            a <- broadcast a m ;;
            a <- reshape [Infer; Dim (num_heads self); Dim N; Dim N] a ;;
            softmax self a
        | None => softmax self attn
        end ;;
      attn <- attn_drop self attn ;;
      x_atten <- (y <- mm attn v ;;
                  y <- transpose [0; 2; 1; 3] y ;;
                  reshape [Dim B_; Dim N; Dim C] y) ;;
      (* spatial interaction *)
      x_spatial <- window_reverse2 x_atten (window_size self) H W C ;;
      spatial_interaction <- spatial_interaction self x_spatial ;;
      x_cnn <- (g <- sigmoid spatial_interaction ;; broadcast g x_cnn) ;;
      x_cnn <- conv_norm self x_cnn ;;
      x_cnn <- window_partition2 x_cnn (window_size self) ;;
      (* concat *)
      x_atten <- attn_norm self x_atten ;;
      x <- concat [x_atten; x_cnn] (-1) ;;
      x <- proj self x ;;
      proj_drop self x
  | _ => Raise (ValueError "not enough values to unpack")
  end.

End MixingAttention.

Fixpoint mapM {A B : Type} (f : A -> result B) (l : list A)
  : result (list B) :=
  match l with
  | [] => Ok []
  | a :: rest =>
      b <- f a ;;
      bs <- mapM f rest ;;
      Ok (b :: bs)
  end.

Definition str (n : nat) : string := NilZero.string_of_uint (Nat.to_uint n).

(** ** Bottleneck (lines 267-310) *)

Module Bottleneck.

Definition expansion : nat := 2.

Record t : Type := mk {
  conv1 : layer; bn1 : layer;
  conv2 : layer; bn2 : layer;
  conv3 : layer; bn3 : layer;
  conv4 : layer; bn4 : layer;
  relu : layer
}.

Definition init (in_channel out_channel : nat) : result t :=
  conv1 <- Conv2D in_channel out_channel 3 1 1 in_channel ;;
  bn1 <- BatchNorm out_channel ;;
  conv2 <- Conv2D out_channel (out_channel / expansion) 1 1 0 1 ;;
  bn2 <- BatchNorm (out_channel / expansion) ;;
  conv3 <- Conv2D (out_channel / expansion) out_channel 1 1 0 1 ;;
  bn3 <- BatchNorm out_channel ;;
  conv4 <- Conv2D in_channel out_channel 3 1 1 in_channel ;;
  bn4 <- BatchNorm out_channel ;;
  Ok (mk conv1 bn1 conv2 bn2 conv3 bn3 conv4 bn4 ReLU).

Definition forward (self : t) (x : list nat) : result (list nat) :=
  let identity := x in
  out <- conv1 self x ;;
  out <- bn1 self out ;;
  out <- relu self out ;;
  out <- conv2 self out ;;
  out <- relu self out ;;
  out <- conv3 self out ;;
  out <- conv4 self out ;;
  out <- bn4 self out ;;
  out <- iadd out identity ;;
  relu self out.

End Bottleneck.

(** ** MixingBlock (lines 311-449) *)

Module MixingBlock.

Record t : Type := mk {
  dim : nat;
  num_heads : nat;
  window_size : nat;
  shift_size : Z;
  mlp_ratio : nat;
  norm1 : layer;
  attn : MixingAttention.t;
  drop_path : layer;
  norm2 : layer;
  mlp : layer;
  bottle_neck_cnn : Bottleneck.t;
  H : option nat;
  W : option nat
}.

(** Lines 335-377.  The drop-path rate is a float; both [DropPath] and
    [Identity] keep the shape. *)
Definition init (dim num_heads window_size dwconv_kernel_size : nat)
    (shift_size : Z) (mlp_ratio : nat) (qk_scale : bool) : result t :=
  _ <- assert (shift_size =? 0)%Z "No shift in MixUnet" ;;
  norm1 <- LayerNorm dim ;;
  attn <- MixingAttention.init dim (to_2tuple window_size)
            dwconv_kernel_size num_heads qk_scale ;;
  norm2 <- LayerNorm dim ;;
  let mlp_hidden_dim := dim * mlp_ratio in
  mlp <- Mlp dim mlp_hidden_dim ;;
  bottle_neck_cnn <- Bottleneck.init dim dim ;;
  Ok (mk dim num_heads window_size shift_size mlp_ratio norm1 attn DropPath
         norm2 mlp bottle_neck_cnn None None).

(** [blk.H, blk.W = H, W] *)
Definition set_HW (self : t) (H W : nat) : t :=
  mk (dim self) (num_heads self) (window_size self) (shift_size self)
     (mlp_ratio self) (norm1 self) (attn self) (drop_path self)
     (norm2 self) (mlp self) (bottle_neck_cnn self) (Some H) (Some W).

(** Lines 398-401: the list handed to [F.pad]. *)
Definition padding (self : t) (H W : nat) : result (list nat) :=
  let pad_l := 0 in
  let pad_t := 0 in
  rW <- pymod W (window_size self) ;;
  pad_r <- pymod (window_size self - rW) (window_size self) ;;
  rH <- pymod H (window_size self) ;;
  pad_b <- pymod (window_size self - rH) (window_size self) ;;
  Ok [0; pad_l; 0; pad_b; 0; pad_r; 0; pad_t].

(** Lines 404-411. *)
Definition cyclic_shift {T : Type} `{Tensor T} (self : t) (x : T)
    (mask_matrix : option (list nat)) : result (T * option (list nat)) :=
  if (shift_size self >? 0)%Z
  then
    shifted_x <- roll [(- shift_size self)%Z; (- shift_size self)%Z]
                      [1; 2] x ;;
    Ok (shifted_x, mask_matrix)
  else Ok (x, None).

(** Lines 431-438. *)
Definition reverse_cyclic_shift {T : Type} `{Tensor T} (self : t)
    (shifted_x : T) : result T :=
  if (shift_size self >? 0)%Z
  then roll [shift_size self; shift_size self] [1; 2] shifted_x
  else Ok shifted_x.

(** [x[:, :H, :W, :]] *)
Definition crop (x : list nat) (H W : nat) : result (list nat) :=
  match x with
  | [B; Hp; Wp; C] => Ok [B; Nat.min Hp H; Nat.min Wp W; C]
  | _ => Raise IndexError
  end.

(** Lines 379-449, on shapes. *)
Definition forward (self : t) (x : list nat)
    (mask_matrix : option (list nat)) : result (list nat) :=
  match x with
  | [B; L; C] =>
      match H self, W self with
      | Some H, Some W =>
          _ <- assert (L =? H * W) "input feature has wrong size" ;;
          let shortcut := x in
          x <- norm1 self x ;;
          x <- reshape [Dim B; Dim H; Dim W; Dim C] x ;;
          x <- transpose [0; 3; 1; 2] x ;;
          x <- Bottleneck.forward (bottle_neck_cnn self) x ;;
          x <- transpose [0; 2; 3; 1] x ;;
          (* pad feature maps to multiples of window size *)
          p <- padding self H W ;;
          x <- pad x p ;;
          match x with
          | [_; Hp; Wp; _] =>
              (* cyclic shift *)
              '(shifted_x, attn_mask) <- cyclic_shift self x mask_matrix ;;
              (* partition windows *)
              x_windows <- window_partition shifted_x (window_size self) ;;
              x_windows <-
                reshape [Infer; Dim (window_size self * window_size self);
                         Dim C] x_windows ;;
              attn_windows <-
                MixingAttention.forward (attn self) x_windows Hp Wp
                                        attn_mask ;;
              (* merge windows *)
              attn_windows <-
                reshape [Infer; Dim (window_size self);
                         Dim (window_size self); Dim C] attn_windows ;;
              shifted_x <-
                window_reverse attn_windows (window_size self) Hp Wp ;;
              (* reverse cyclic shift *)
              x <- reverse_cyclic_shift self shifted_x ;;
              x <- (match p with
                    | [_; _; _; pad_b; _; pad_r; _; _] =>
                        if (0 <? pad_r) || (0 <? pad_b)
                        then crop x H W else Ok x
                    | _ => Ok x
                    end) ;;
              x <- reshape [Dim B; Dim (H * W); Dim C] x ;;
              (* FFN *)
              y <- drop_path self x ;;
              x <- broadcast shortcut y ;;
              y <- (n <- norm2 self x ;;
                    m <- mlp self n ;;
                    drop_path self m) ;;
              broadcast x y
          | _ => Raise (ValueError "not enough values to unpack")
          end
      | _, _ =>
          Raise (TypeError "unsupported operand type(s) for *: 'NoneType'")
      end
  | _ => Raise (ValueError "not enough values to unpack")
  end.

End MixingBlock.

(** ** BaseConv, Focus, ConvMerging (lines 451-515) *)

Inductive activation : Type := silu | relu | lrelu.

Module BaseConv.

Record t : Type := mk { conv : layer; act : layer }.

Definition init (in_channels out_channels kernel_size stride groups : nat)
    (act : activation) : result t :=
  let padding := (kernel_size - 1) / 2 in
  conv <- Conv2D in_channels out_channels kernel_size stride padding
            groups ;;
  Ok (mk conv (match act with
               | silu => Silu
               | relu => ReLU
               | lrelu => LeakyReLU
               end)).

Definition forward (self : t) (x : list nat) : result (list nat) :=
  y <- conv self x ;;
  act self y.

End BaseConv.

Module Focus.

Record t : Type := mk { conv : BaseConv.t }.

Definition init (in_channels out_channels : nat) : result t :=
  conv <- BaseConv.init (in_channels * 4) out_channels 1 1 1 silu ;;
  Ok (mk conv).

Definition forward (self : t) (x : list nat) : result (list nat) :=
  patch_1 <- slice_stride2 0 0 x ;;
  patch_2 <- slice_stride2 1 0 x ;;
  patch_3 <- slice_stride2 0 1 x ;;
  patch_4 <- slice_stride2 1 1 x ;;
  x <- concat [patch_1; patch_2; patch_3; patch_4] 1 ;;
  BaseConv.forward (conv self) x.

End Focus.

Module ConvMerging.

Record t : Type := mk {
  dim : nat;
  out_dim : nat;
  reduction : Focus.t;
  norm : layer
}.

Definition init (dim out_dim : nat) : result t :=
  reduction <- Focus.init dim out_dim ;;
  norm <- BatchNorm dim ;;
  Ok (mk dim out_dim reduction norm).

Definition forward (self : t) (x : list nat) (H W : nat)
  : result (list nat) :=
  match x with
  | [B; L; C] =>
      _ <- assert (L =? H * W) "input feature has wrong size" ;;
      _ <- assert ((H mod 2 =? 0) && (W mod 2 =? 0))
             ("x size (" ++ str H ++ "*" ++ str W ++ ") are not even.") ;;
      x <- reshape [Dim B; Dim H; Dim W; Dim C] x ;;
      x <- transpose [0; 3; 1; 2] x ;;
      x <- norm self x ;;
      x <- Focus.forward (reduction self) x ;;
      x <- flatten 2 x ;;
      transpose [0; 2; 1] x
  | _ => Raise (ValueError "not enough values to unpack")
  end.

End ConvMerging.

(** ** PatchExpand (lines 739-763) *)

Module PatchExpand.

Record t : Type := mk {
  input_resolution : nat * nat;
  dim : nat;
  expand : layer;
  norm : layer
}.

Definition init (input_resolution : nat * nat) (dim dim_scale : nat)
  : result t :=
  expand <- (if dim_scale =? 2 then Linear dim (2 * dim) else Ok Identity) ;;
  d <- floordiv dim dim_scale ;;
  norm <- LayerNorm d ;;
  Ok (mk input_resolution dim expand norm).

(** Lines 757-760: the three reshapes that replace the commented-out
    [rearrange]. *)
Definition rearrange {T : Type} `{Tensor T} (x : T) (B H W C : nat)
  : result T :=
  x <- reshape [Dim B; Dim H; Dim W; Dim C] x ;;
  x <- reshape [Dim B; Dim (2 * H); Dim (2 * W); Dim (C / 4)] x ;;
  reshape [Dim B; Infer; Dim (C / 4)] x.

Definition forward (self : t) (x : list nat) : result (list nat) :=
  let '(H, W) := input_resolution self in
  x <- expand self x ;;
  match x with
  | [B; L; C] =>
      _ <- assert (L =? H * W) "input feature has wrong size" ;;
      x <- rearrange x B H W C ;;
      norm self x
  | _ => Raise (ValueError "not enough values to unpack")
  end.

End PatchExpand.

(** The layout named by the commented-out line 758,
    ['b h w (p1 p2 c) -> b (h p1) (w p2) c'] with [p1 = p2 = 2]: element
    [(b, h', w', c)] of the output is element
    [(b, h' / 2, w' / 2, ((h' mod 2) * 2 + w' mod 2) * (C / 4) + c)] of the
    (B, H, W, C) input. *)
Definition pixel_shuffle_index (B H W C : nat) (j : nat) : nat :=
  match unravel [B; 2 * H; 2 * W; C / 4] j with
  | [b; h'; w'; c] =>
      ravel [B; H; W; C]
            [b; h' / 2; w' / 2; ((h' mod 2) * 2 + w' mod 2) * (C / 4) + c]
  | _ => 0
  end.

Definition pixel_shuffle {A : Type} (x : tensor A) (B H W C : nat)
  : tensor A :=
  mkTensor [B; 2 * H * (2 * W); C / 4]
    (gather (map (pixel_shuffle_index B H W C)
                 (seq 0 (B * (2 * H) * (2 * W) * (C / 4))))
            (data x)).

(** ** BasicLayer and BasicLayer_up (lines 518-662) *)

(** [for blk in self.blocks: blk.H, blk.W = H, W; x = blk(x, None)] *)
Fixpoint run_blocks (blocks : list MixingBlock.t) (x : list nat) (H W : nat)
  : result (list nat) :=
  match blocks with
  | [] => Ok x
  | blk :: rest =>
      let blk := MixingBlock.set_HW blk H W in
      x <- MixingBlock.forward blk x None ;;
      run_blocks rest x H W
  end.

Module BasicLayer.

Record t : Type := mk {
  window_size : nat;
  depth : nat;
  blocks : list MixingBlock.t;
  downsample : option ConvMerging.t
}.

(** [downsample] tells whether [ConvMerging] is passed. *)
Definition init (dim depth num_heads window_size dwconv_kernel_size
    mlp_ratio : nat) (qk_scale : bool) (downsample : bool) (out_dim : nat)
  : result t :=
  blocks <- mapM (fun _ =>
                    MixingBlock.init dim num_heads window_size
                      dwconv_kernel_size 0%Z mlp_ratio qk_scale)
                 (seq 0 depth) ;;
  downsample <- (if downsample
                 then d <- ConvMerging.init dim out_dim ;; Ok (Some d)
                 else Ok None) ;;
  Ok (mk window_size depth blocks downsample).

Definition forward (self : t) (x : list nat) (H W : nat)
  : result (nat * nat * list nat * nat * nat) :=
  x <- run_blocks (blocks self) x H W ;;
  match downsample self with
  | Some down =>
      x_down <- ConvMerging.forward down x H W ;;
      let Wh := (H + 1) / 2 in
      let Ww := (W + 1) / 2 in
      Ok (H, W, x_down, Wh, Ww)
  | None => Ok (H, W, x, H, W)
  end.

End BasicLayer.

Module BasicLayer_up.

Record t : Type := mk {
  dim : nat;
  input_resolution : nat * nat;
  depth : nat;
  blocks : list MixingBlock.t;
  upsample : option PatchExpand.t
}.

Definition init (dim : nat) (input_resolution : nat * nat)
    (depth num_heads window_size dwconv_kernel_size mlp_ratio : nat)
    (qk_scale : bool) (upsample : bool) : result t :=
  blocks <- mapM (fun _ =>
                    MixingBlock.init dim num_heads window_size
                      dwconv_kernel_size 0%Z mlp_ratio qk_scale)
                 (seq 0 depth) ;;
  upsample <- (if upsample
               then u <- PatchExpand.init input_resolution dim 2 ;;
                    Ok (Some u)
               else Ok None) ;;
  Ok (mk dim input_resolution depth blocks upsample).

Definition forward (self : t) (x : list nat) (H W : nat)
  : result (list nat * list nat) :=
  x <- run_blocks (blocks self) x H W ;;
  let output := x in
  match upsample self with
  | Some up =>
      x <- PatchExpand.forward up x ;;
      Ok (x, output)
  | None => Ok (x, output)
  end.

End BasicLayer_up.

(** ** ConvEmbed (lines 664-737) *)

Module ConvEmbed.

Record t : Type := mk {
  img_size : nat * nat;
  patch_size : nat * nat;
  patches_resolution : nat * nat;
  num_patches : nat;
  in_chans : nat;
  embed_dim : nat;
  stem : layer;
  proj : layer;
  norm : option layer
}.

(** [img_size] is the pair that [to_2tuple] returns; [norm_layer] tells
    whether a normalization layer is passed. *)
Definition init (img_size : nat * nat) (patch_size in_chans embed_dim : nat)
    (norm_layer : bool) : result t :=
  let patch_size := to_2tuple patch_size in
  r0 <- floordiv (fst img_size) (fst patch_size) ;;
  r1 <- floordiv (snd img_size) (snd patch_size) ;;
  let patches_resolution := (r0, r1) in
  let num_patches := r0 * r1 in
  c1 <- Conv2D in_chans (embed_dim / 2) 3 (fst patch_size / 2) 1 1 ;;
  b1 <- BatchNorm (embed_dim / 2) ;;
  c2 <- Conv2D (embed_dim / 2) (embed_dim / 2) 3 1 1 1 ;;
  b2 <- BatchNorm (embed_dim / 2) ;;
  c3 <- Conv2D (embed_dim / 2) (embed_dim / 2) 3 1 1 1 ;;
  b3 <- BatchNorm (embed_dim / 2) ;;
  let stem := Sequential [c1; b1; GELU; c2; b2; GELU; c3; b3; GELU] in
  proj <- Conv2D (embed_dim / 2) embed_dim (fst patch_size / 2)
            (fst patch_size / 2) 0 1 ;;
  norm <- (if norm_layer
           then n <- LayerNorm embed_dim ;; Ok (Some n)
           else Ok None) ;;
  Ok (mk img_size patch_size patches_resolution num_patches in_chans
         embed_dim stem proj norm).

Definition forward (self : t) (x : list nat) : result (list nat) :=
  match x with
  | [B; C; H; W] =>
      rW <- pymod W (snd (patch_size self)) ;;
      x <- (if negb (rW =? 0)
            then pad x [0; snd (patch_size self) - rW; 0; 0]
            else Ok x) ;;
      rH <- pymod H (fst (patch_size self)) ;;
      x <- (if negb (rH =? 0)
            then pad x [0; 0; 0; fst (patch_size self) - rH]
            else Ok x) ;;
      x <- stem self x ;;
      x <- proj self x ;;
      match norm self with
      | Some norm =>
          match x with
          | [_; _; Wh; Ww] =>
              x <- flatten 2 x ;;
              x <- transpose [0; 2; 1] x ;;
              x <- norm x ;;
              x <- transpose [0; 2; 1] x ;;
              reshape [Infer; Dim (embed_dim self); Dim Wh; Dim Ww] x
          | _ => Raise (ValueError "not enough values to unpack")
          end
      | None =>
          x <- flatten 2 x ;;
          x <- transpose [0; 2; 1] x ;;
          _ <- transpose [0; 2; 1] x ;;
          Raise (UnboundLocalError "Wh")
      end
  | _ => Raise (ValueError "not enough values to unpack")
  end.

End ConvEmbed.

(** ** MixUnet (lines 764-1067) *)

Definition index {A : Type} (l : list A) (i : nat) : result A :=
  match nth_error l i with
  | Some a => Ok a
  | None => Raise IndexError
  end.

Record ShapeSpec : Type := mkShapeSpec { channels : nat; stride : nat }.

Inductive up_layer : Type :=
| UpExpand (layer_up : PatchExpand.t)
| UpBasic (layer_up : BasicLayer_up.t).

Module MixUnet.

Record t : Type := mk {
  num_layers : nat;
  embed_dim : list nat;
  ape : bool;
  num_feature : nat;
  num_channel : list nat;
  out_indices : list Z;
  patch_embed : ConvEmbed.t;
  patches_resolution : nat * nat;
  absolute_pos_embed : option (list nat);
  pos_drop : layer;
  layers : list BasicLayer.t;
  layers_up : list up_layer;
  concat_back_dim : list layer;
  norm : layer;
  norm_up : layer;
  activate : layer
}.

(** Lines 873-891: encoder stage [i_layer]. *)
Definition build_layer (num_layers : nat) (embed_dim depths num_heads
    : list nat) (window_size dwconv_kernel_size mlp_ratio : nat)
    (qk_scale : bool) (i_layer : nat) : result BasicLayer.t :=
  dim <- index embed_dim i_layer ;;
  depth <- index depths i_layer ;;
  heads <- index num_heads i_layer ;;
  out_dim <- (if i_layer <? num_layers - 1
              then index embed_dim (i_layer + 1) else Ok 0) ;;
  BasicLayer.init dim depth heads window_size dwconv_kernel_size mlp_ratio
    qk_scale (i_layer <? num_layers - 1) out_dim.

(** Lines 897-924: decoder stage [i_layer] and the linear layer that
    follows its concatenation. *)
Definition build_layer_up (num_layers : nat) (embed_dim depths num_heads
    : list nat) (patches_resolution : nat * nat)
    (window_size mlp_ratio : nat) (qk_scale : bool) (i_layer : nat)
  : result (up_layer * layer) :=
  e0 <- index embed_dim 0 ;;
  let k := num_layers - 1 - i_layer in
  let dim := e0 * 2 ^ k in
  concat_linear <- (if 0 <? i_layer then Linear (2 * dim) dim
                    else Ok Identity) ;;
  let input_resolution :=
    (fst patches_resolution / 2 ^ k, snd patches_resolution / 2 ^ k) in
  layer_up <-
    (if i_layer =? 0
     then p <- PatchExpand.init input_resolution dim 2 ;; Ok (UpExpand p)
     else
       depth <- index depths k ;;
       heads <- index num_heads k ;;
       b <- BasicLayer_up.init dim input_resolution depth heads window_size
              3 mlp_ratio qk_scale (i_layer <? num_layers) ;;
       Ok (UpBasic b)) ;;
  Ok (layer_up, concat_linear).

(** Lines 800-954.  [embed_dim] is an integer or a list; the drop-path
    schedule, the frozen stages and the pretrained weights change no
    shape. *)
Definition init (img_size : nat * nat) (patch_size in_chans : nat)
    (embed_dim : nat + list nat) (depths num_heads : list nat)
    (window_size dwconv_kernel_size mlp_ratio : nat) (qk_scale : bool)
    (out_indices : list Z) (ape patch_norm : bool) : result t :=
  let num_layers := length depths in
  let embed_dim :=
    match embed_dim with
    | inl e => map (fun i_layer => e * 2 ^ i_layer) (seq 0 num_layers)
    | inr l => l
    end in
  _ <- assert (length embed_dim =? num_layers) "" ;;
  num_feature <- py_index embed_dim (-1) ;;
  e0 <- index embed_dim 0 ;;
  patch_embed <- ConvEmbed.init img_size patch_size in_chans e0
                   patch_norm ;;
  let num_patches := ConvEmbed.num_patches patch_embed in
  let patches_resolution := ConvEmbed.patches_resolution patch_embed in
  absolute_pos_embed <-
    (if ape
     then p <- create_parameter [1%Z; Z.of_nat num_patches; Z.of_nat e0] ;;
          Ok (Some p)
     else Ok None) ;;
  layers <- mapM (build_layer num_layers embed_dim depths num_heads
                    window_size dwconv_kernel_size mlp_ratio qk_scale)
                 (seq 0 num_layers) ;;
  ups <- mapM (build_layer_up num_layers embed_dim depths num_heads
                 patches_resolution window_size mlp_ratio qk_scale)
              (seq 0 (num_layers - 1)) ;;
  norm <- LayerNorm num_feature ;;
  norm_up <- LayerNorm e0 ;;
  Ok (mk num_layers embed_dim ape num_feature embed_dim out_indices
         patch_embed patches_resolution absolute_pos_embed Dropout layers
         (map fst ups) (map snd ups) norm norm_up ReLU).

(** The loop of lines 991-995. *)
Fixpoint encode (layers : list BasicLayer.t) (x : list nat)
    (x_downsample : list (list nat)) (Wh Ww : nat)
  : result (list nat * list (list nat) * nat * nat) :=
  match layers with
  | [] => Ok (x, x_downsample, Wh, Ww)
  | layer :: rest =>
      let x_downsample := x_downsample ++ [x] in
      '(_, _, x, Wh, Ww) <- BasicLayer.forward layer x Wh Ww ;;
      encode rest x x_downsample Wh Ww
  end.

(** Lines 981-998. *)
Definition forward_features (self : t) (x : list nat)
  : result (list nat * list (list nat) * nat * nat) :=
  x <- ConvEmbed.forward (patch_embed self) x ;;
  match x with
  | [_; _; Wh; Ww] =>
      x <- flatten 2 x ;;
      x <- transpose [0; 2; 1] x ;;
      x <- (match absolute_pos_embed self with
            | Some p => if ape self then broadcast x p else Ok x
            | None => Ok x
            end) ;;
      x <- pos_drop self x ;;
      '(x, x_downsample, Wh, Ww) <- encode (layers self) x [] Wh Ww ;;
      x <- norm self x ;;
      Ok (x, x_downsample, Wh, Ww)
  | _ => Raise (ValueError "not enough values to unpack")
  end.

(** Lines 1012-1016 and 1026-1029: a decoder output as a spatial map. *)
Definition to_spatial (self : t) (output : list nat)
  : result (list nat) :=
  match output with
  | [B; L; C] =>
      x_ilayer <- activate self output ;;
      let H := Nat.sqrt L in
      let W := H in
      x_ilayer <- reshape [Dim B; Dim H; Dim W; Dim C] x_ilayer ;;
      transpose [0; 3; 1; 2] x_ilayer
  | _ => Raise (ValueError "not enough values to unpack")
  end.

(** [x_downsample[3 - inx]] *)
Definition skip (x_downsample : list (list nat)) (inx : nat)
  : result (list nat) :=
  py_index x_downsample (3 - Z.of_nat inx)%Z.

(** The loop of lines 1008-1036, from index [inx] on. *)
Fixpoint decode (self : t) (layers_up : list up_layer) (inx : nat)
    (x : list nat) (x_downsample : list (list nat)) (Wh Ww : nat)
    (x_ilayer : option (list nat)) (x_list : list (list nat))
  : result (option (list nat) * list (list nat)) :=
  match layers_up with
  | [] => Ok (x_ilayer, x_list)
  | layer_up :: rest =>
      '(x, x_ilayer) <-
        (if inx =? 0
         then
           let output := x in
           x <- (match layer_up with
                 | UpExpand p => PatchExpand.forward p x
                 | UpBasic _ =>
                     Raise (TypeError "forward() missing arguments")
                 end) ;;
           x_ilayer <- to_spatial self output ;;
           Ok (x, x_ilayer)
         else
           s <- skip x_downsample inx ;;
           x <- concat [x; s] (-1) ;;
           back <- index (concat_back_dim self) inx ;;
           x <- back x ;;
           '(x, output) <-
             (match layer_up with
              | UpBasic b => BasicLayer_up.forward b x Wh Ww
              | UpExpand _ =>
                  Raise (TypeError "forward() takes 2 arguments")
              end) ;;
           x_ilayer <- to_spatial self output ;;
           Ok (x, x_ilayer)) ;;
      decode self rest (S inx) x x_downsample (Wh * 2) (Ww * 2)
             (Some x_ilayer) (x_list ++ [x_ilayer])
  end.

(** Lines 1006-1039. *)
Definition forward_up_features (self : t) (x : list nat)
    (x_downsample : list (list nat)) (Wh Ww : nat)
  : result (list nat * list (list nat)) :=
  '(x_ilayer, x_list) <-
    decode self (layers_up self) 0 x x_downsample Wh Ww None [] ;;
  match x_ilayer with
  | Some x_ilayer => Ok (x_ilayer, x_list)
  | None => Raise (UnboundLocalError "x_ilayer")
  end.

(** [range(n - 2, -1, -1)] *)
Definition range_down (num_layers : nat) : list nat :=
  rev (seq 0 (num_layers - 1)).

(** Lines 1041-1056; the argument is [x['image']]. *)
Definition forward (self : t) (image : list nat)
  : result (list (list nat)) :=
  '(x, x_downsample, Wh, Ww) <- forward_features self image ;;
  '(x, x_list) <- forward_up_features self x x_downsample Wh Ww ;;
  mapM (fun i => index x_list i) (range_down (num_layers self)).

(** Lines 1060-1067; the entries of [out_indices] are Python integers, and
    a negative one counts from the end of each list. *)
Definition out_shape (self : t) : result (list ShapeSpec) :=
  let out_strides := [4; 8; 16; 32] in
  mapM (fun i =>
          c <- py_index (num_channel self) i ;;
          s <- py_index out_strides i ;;
          Ok (mkShapeSpec c s))
       (out_indices self).

End MixUnet.

(** What a constructed [MixingAttention] is. *)
Definition MixingAttention_made (dim : nat) (window_size : nat * nat)
    (dwconv_kernel_size num_heads : nat) : MixingAttention.t :=
  MixingAttention.mk dim window_size dwconv_kernel_size num_heads
    [Z.to_nat ((2 * Z.of_nat (fst window_size) - 1) *
               (2 * Z.of_nat (snd window_size) - 1)); num_heads]
    (MixingAttention.sum_last (MixingAttention._get_rel_pos window_size))
    (Linear_forward dim (dim / 2))
    (LayerNorm_forward (dim / 2))
    (Linear_forward dim dim)
    (LayerNorm_forward dim)
    (Sequential [Conv2D_forward dim dim dwconv_kernel_size 1
                   (dwconv_kernel_size / 2);
                 BatchNorm_forward dim; GELU])
    (Sequential [Conv2D_forward dim (dim / 8) 1 1 0;
                 BatchNorm_forward (dim / 8); GELU;
                 Conv2D_forward (dim / 8) (dim / 2) 1 1 0])
    (Conv2D_forward dim (dim / 2) 1 1 0)
    (BatchNorm_forward (dim / 2))
    (Linear_forward (dim / 2) (dim / 2 * 3))
    Dropout
    (Sequential [Conv2D_forward (dim / 2) (dim / 16) 1 1 0;
                 BatchNorm_forward (dim / 16); GELU;
                 Conv2D_forward (dim / 16) 1 1 1 0])
    (LayerNorm_forward (dim / 2))
    (Linear_forward dim dim)
    Dropout Softmax.

(** An attention mask fits a batch of [B_] windows of [N] tokens when it is
    absent, or has shape (nW, N, N) with [nW] dividing [B_]. *)
Definition valid_mask (B_ N : nat) (mask : option (list nat)) : Prop :=
  match mask with
  | None => True
  | Some ms => exists nW, ms = [nW; N; N] /\ 0 < nW /\ B_ mod nW = 0
  end.

(** What the constructed [Mlp], [Bottleneck] and [MixingBlock] are. *)
Definition Mlp_made (in_features hidden_features : nat) : layer :=
  Sequential [Linear_forward in_features hidden_features; GELU; Dropout;
              Linear_forward hidden_features in_features; Dropout].

Definition Bottleneck_made (in_channel out_channel : nat) : Bottleneck.t :=
  Bottleneck.mk
    (Conv2D_forward in_channel out_channel 3 1 1)
    (BatchNorm_forward out_channel)
    (Conv2D_forward out_channel (out_channel / Bottleneck.expansion) 1 1 0)
    (BatchNorm_forward (out_channel / Bottleneck.expansion))
    (Conv2D_forward (out_channel / Bottleneck.expansion) out_channel 1 1 0)
    (BatchNorm_forward out_channel)
    (Conv2D_forward in_channel out_channel 3 1 1)
    (BatchNorm_forward out_channel)
    ReLU.

Definition MixingBlock_made (dim num_heads window_size dwconv_kernel_size
    mlp_ratio : nat) (H W : option nat) : MixingBlock.t :=
  MixingBlock.mk dim num_heads window_size 0%Z mlp_ratio
    (LayerNorm_forward dim)
    (MixingAttention_made dim (to_2tuple window_size) dwconv_kernel_size
       num_heads)
    DropPath
    (LayerNorm_forward dim)
    (Mlp_made dim (dim * mlp_ratio))
    (Bottleneck_made dim dim)
    H W.

(** What a constructed [ConvMerging] is. *)
Definition ConvMerging_made (dim out_dim : nat) : ConvMerging.t :=
  ConvMerging.mk dim out_dim
    (Focus.mk (BaseConv.mk (Conv2D_forward (dim * 4) out_dim 1 1 0) Silu))
    (BatchNorm_forward dim).

(** The 4-stage configuration of the end-to-end claims: a 224 x 224 image
    size, patch size 4, embed_dim 24, depths [2, 2, 6, 2], heads
    [3, 6, 12, 24], window size 7. *)
Definition MixUnet_224 (out_indices : list Z) : result MixUnet.t :=
  MixUnet.init (224, 224) 4 3 (inl 24) [2; 2; 6; 2] [3; 6; 12; 24] 7 3 4
    false out_indices false true.

(** A model with another [out_indices] and everything else the same. *)
Definition with_out_indices (self : MixUnet.t) (out_indices : list Z)
  : MixUnet.t :=
  MixUnet.mk (MixUnet.num_layers self) (MixUnet.embed_dim self)
    (MixUnet.ape self) (MixUnet.num_feature self) (MixUnet.num_channel self)
    out_indices (MixUnet.patch_embed self) (MixUnet.patches_resolution self)
    (MixUnet.absolute_pos_embed self) (MixUnet.pos_drop self)
    (MixUnet.layers self) (MixUnet.layers_up self)
    (MixUnet.concat_back_dim self) (MixUnet.norm self) (MixUnet.norm_up self)
    (MixUnet.activate self).

(** The working width of a decoder stage. *)
Definition up_dim (layer_up : up_layer) : nat :=
  match layer_up with
  | UpExpand p => PatchExpand.dim p
  | UpBasic b => BasicLayer_up.dim b
  end.

(** What a constructed [ConvEmbed] is. *)
Definition ConvEmbed_made (img_size : nat * nat) (patch_size in_chans
    embed_dim : nat) (norm_layer : bool) : ConvEmbed.t :=
  ConvEmbed.mk img_size (to_2tuple patch_size)
    (fst img_size / patch_size, snd img_size / patch_size)
    ((fst img_size / patch_size) * (snd img_size / patch_size))
    in_chans embed_dim
    (Sequential [Conv2D_forward in_chans (embed_dim / 2) 3 (patch_size / 2) 1;
                 BatchNorm_forward (embed_dim / 2); GELU;
                 Conv2D_forward (embed_dim / 2) (embed_dim / 2) 3 1 1;
                 BatchNorm_forward (embed_dim / 2); GELU;
                 Conv2D_forward (embed_dim / 2) (embed_dim / 2) 3 1 1;
                 BatchNorm_forward (embed_dim / 2); GELU])
    (Conv2D_forward (embed_dim / 2) embed_dim (patch_size / 2)
       (patch_size / 2) 0)
    (if norm_layer then Some (LayerNorm_forward embed_dim) else None).

(** The size of an axis after [ConvEmbed.forward] has padded it to a
    multiple of the patch size. *)
Definition padded (size patch_size : nat) : nat :=
  if size mod patch_size =? 0 then size
  else size + (patch_size - size mod patch_size).

(** A token tensor of an [H] x [W] map: shape (B, H*W, C), nothing empty. *)
Definition tokens_of (x : list nat) (H W : nat) : Prop :=
  exists B C, x = [B; H * W; C] /\ 0 < B /\ 0 < H /\ 0 < W /\ 0 < C.

(** A block with another attention module and everything else the same:
    the attention layer as a black box. *)
Definition with_attention (self : MixingBlock.t) (a : MixingAttention.t)
  : MixingBlock.t :=
  MixingBlock.mk (MixingBlock.dim self) (MixingBlock.num_heads self)
    (MixingBlock.window_size self) (MixingBlock.shift_size self)
    (MixingBlock.mlp_ratio self) (MixingBlock.norm1 self) a
    (MixingBlock.drop_path self) (MixingBlock.norm2 self)
    (MixingBlock.mlp self) (MixingBlock.bottle_neck_cnn self)
    (MixingBlock.H self) (MixingBlock.W self).

(** A spatial map (B, C, h, w) whose two sides are equal, unless it is
    empty. *)
Definition square_map (y : list nat) : Prop :=
  exists B C h w, y = [B; C; h; w] /\ (0 < h -> h = w).

(** * Properties *)

(** ** Row-major indexing *)

Lemma prod_app (s1 s2 : list nat) : prod (s1 ++ s2) = prod s1 * prod s2.
Proof.
  induction s1 as [|d s1 IH]; simpl.
  - lia.
  - rewrite IH. lia.
Qed.

Lemma ravel_unravel (s : list nat) (j : nat) :
  j < prod s -> ravel s (unravel s j) = j.
Proof.
  revert j. induction s as [|d s IH]; intros j Hj; simpl in *.
  - lia.
  - assert (Hp : prod s <> 0) by (intros E; rewrite E in Hj; lia).
    rewrite IH by (apply Nat.mod_upper_bound; exact Hp).
    pose proof (Nat.div_mod_eq j (prod s)). lia.
Qed.

Lemma unravel_bounds (s : list nat) (j : nat) :
  j < prod s -> Forall2 lt (unravel s j) s.
Proof.
  revert j. induction s as [|d s IH]; intros j Hj; simpl in *.
  - constructor.
  - assert (Hp : prod s <> 0) by (intros E; rewrite E in Hj; lia).
    constructor.
    + apply Nat.Div0.div_lt_upper_bound. lia.
    + apply IH. apply Nat.mod_upper_bound. exact Hp.
Qed.

Lemma ravel_bound (s idx : list nat) :
  Forall2 lt idx s -> ravel s idx < prod s.
Proof.
  intros H. induction H as [|i d idx s Hi _ IH]; simpl.
  - lia.
  - nia.
Qed.

Lemma unravel_ravel (s idx : list nat) :
  Forall2 lt idx s -> unravel s (ravel s idx) = idx.
Proof.
  intros H. induction H as [|i d idx s Hi Hrest IH]; simpl.
  - reflexivity.
  - pose proof (ravel_bound s idx Hrest) as Hb.
    assert (Hp : prod s <> 0) by lia.
    rewrite Nat.div_add_l by exact Hp.
    rewrite (Nat.div_small _ _ Hb), Nat.add_0_r.
    rewrite Nat.add_comm, Nat.Div0.mod_add, (Nat.mod_small _ _ Hb).
    rewrite IH. reflexivity.
Qed.

(** ** Reading a list at computed positions *)

Lemma map_nth_seq {A : Type} (d : A) (l : list A) :
  map (fun j => nth j l d) (seq 0 (length l)) = l.
Proof.
  induction l as [|a l IH]; simpl.
  - reflexivity.
  - f_equal. rewrite <- seq_shift, map_map. exact IH.
Qed.

Lemma gather_eq {A : Type} (d : A) (idxs : list nat) (l : list A) :
  Forall (fun i => i < length l) idxs ->
  gather idxs l = map (fun i => nth i l d) idxs.
Proof.
  intros H. destruct l as [|a l]; unfold gather.
  - destruct H as [|i idxs Hi _]; simpl in *; [reflexivity | lia].
  - apply map_ext_in. intros i Hi.
    apply nth_indep. rewrite Forall_forall in H. exact (H i Hi).
Qed.

Lemma gather_length {A : Type} (f : nat -> nat) (l : list A) :
  length (gather (map f (seq 0 (length l))) l) = length l.
Proof.
  destruct l as [|a l].
  - reflexivity.
  - unfold gather. rewrite !length_map, length_seq. reflexivity.
Qed.

Lemma nth_map_seq {A : Type} (g : nat -> A) (d : A) (n k : nat) :
  k < n -> nth k (map g (seq 0 n)) d = g k.
Proof.
  intros Hk.
  rewrite (nth_indep _ d (g 0)) by (rewrite length_map, length_seq; exact Hk).
  rewrite map_nth, seq_nth by exact Hk. reflexivity.
Qed.

Lemma gather_gather {A : Type} (f1 f2 : nat -> nat) (l : list A) :
  (forall j, j < length l -> f2 j < length l) ->
  (forall j, j < length l -> f1 j < length l) ->
  (forall j, j < length l -> f1 (f2 j) = j) ->
  gather (map f2 (seq 0 (length l)))
         (gather (map f1 (seq 0 (length l))) l) = l.
Proof.
  intros H2 H1 H12. destruct l as [|d l']; [reflexivity|].
  set (l := d :: l') in *. set (n := length l) in *.
  assert (E1 : gather (map f1 (seq 0 n)) l
               = map (fun i => nth (f1 i) l d) (seq 0 n)).
  { rewrite (gather_eq d), map_map; [reflexivity|].
    apply Forall_forall. intros i Hi. apply in_map_iff in Hi.
    destruct Hi as [j [<- Hj]]. apply in_seq in Hj. apply H1. lia. }
  rewrite E1.
  rewrite (gather_eq d).
  - rewrite map_map.
    transitivity (map (fun j => nth j l d) (seq 0 n));
      [|apply map_nth_seq].
    apply map_ext_in. intros j Hj. apply in_seq in Hj.
    rewrite nth_map_seq by (apply H2; lia).
    rewrite H12 by lia. reflexivity.
  - apply Forall_forall. intros i Hi. apply in_map_iff in Hi.
    destruct Hi as [j [<- Hj]]. apply in_seq in Hj.
    rewrite length_map, length_seq. apply H2. lia.
Qed.

(** ** [reshape] on target shapes without zero entries *)

Lemma copy_dims_pos (s : list nat) (spec : list dimspec) (i : nat) :
  pos_spec spec -> copy_dims s i spec = Ok (to_opt spec).
Proof.
  intros H. revert i. induction H as [|d spec Hd _ IH]; intros i; simpl.
  - reflexivity.
  - destruct d as [|n].
    + rewrite IH. reflexivity.
    + destruct n as [|n]; [lia|]. rewrite IH. reflexivity.
Qed.

Lemma known_size_pos (spec : list dimspec) :
  pos_spec spec -> 0 < known_size (to_opt spec).
Proof.
  intros H. induction H as [|d spec Hd _ IH]; simpl.
  - lia.
  - destruct d; simpl; nia.
Qed.

Lemma reshape_explicit (spec : list dimspec) (s : list nat) :
  pos_spec spec ->
  count_infer (to_opt spec) = 0 ->
  known_size (to_opt spec) = prod s ->
  reshape_shape spec s = Ok (fill 0 (to_opt spec)).
Proof.
  intros Hp Hc Hk. unfold reshape_shape.
  rewrite copy_dims_pos by exact Hp. simpl.
  rewrite Hc, Hk, Nat.eqb_refl. reflexivity.
Qed.

Lemma reshape_infer (k : nat) (spec : list dimspec) (s : list nat) :
  pos_spec spec ->
  count_infer (to_opt spec) = 1 ->
  prod s = k * known_size (to_opt spec) ->
  reshape_shape spec s = Ok (fill k (to_opt spec)).
Proof.
  intros Hp Hc Hk. unfold reshape_shape.
  rewrite copy_dims_pos by exact Hp. simpl.
  pose proof (known_size_pos spec Hp) as Hpos.
  rewrite Hc, Hk.
  destruct (Nat.eqb_spec (known_size (to_opt spec)) 0) as [E|_]; [lia|].
  rewrite Nat.Div0.mod_mul, Nat.eqb_refl, Nat.div_mul by lia.
  reflexivity.
Qed.

Lemma reshape_explicit_head (b : nat) (rest : list dimspec) (s : list nat) :
  nth_error s 0 = Some b ->
  pos_spec rest ->
  count_infer (to_opt rest) = 0 ->
  b * known_size (to_opt rest) = prod s ->
  reshape_shape (Dim b :: rest) s = Ok (b :: fill 0 (to_opt rest)).
Proof.
  intros Hb Hp Hc Hk. unfold reshape_shape.
  assert (E : copy_dims s 0 (Dim b :: rest) = Ok (Some b :: to_opt rest)).
  { destruct b as [|b]; cbn [copy_dims].
    - rewrite Hb, copy_dims_pos by exact Hp. reflexivity.
    - rewrite copy_dims_pos by exact Hp. reflexivity. }
  rewrite E. simpl. rewrite Hc, Hk, Nat.eqb_refl. reflexivity.
Qed.

Lemma floordiv_pos (a b : nat) : 0 < b -> floordiv a b = Ok (a / b).
Proof.
  intros Hb. unfold floordiv.
  destruct (Nat.eqb_spec b 0); [lia | reflexivity].
Qed.

(** ** Windowing *)

Section Windowing.

Context {A : Type}.

Lemma transpose_index_roundtrip (p q s : list nat) (j : nat) :
  inverse q = p ->
  (forall idx, length idx = length s ->
               permute (inverse p) (permute p idx) = idx) ->
  (forall idx, Forall2 lt idx s -> Forall2 lt (permute p idx) (permute p s)) ->
  permute q (permute p s) = s ->
  j < prod s ->
  transpose_index p s (transpose_index q (permute p s) j) = j
  /\ transpose_index q (permute p s) j < prod (permute p s).
Proof.
  intros Hq Hinv Hb Hs Hj. unfold transpose_index.
  rewrite Hs, Hq.
  pose proof (unravel_bounds s j Hj) as Hu.
  pose proof (Hb _ Hu) as Hpu.
  rewrite unravel_ravel by exact Hpu.
  rewrite Hinv by (apply Forall2_length in Hu; exact Hu).
  split; [apply ravel_unravel; exact Hj | apply ravel_bound; exact Hpu].
Qed.

End Windowing.

Lemma Forall2_lt_rank6 (idx : list nat) (a b c d e f : nat) :
  Forall2 lt idx [a; b; c; d; e; f] ->
  exists i0 i1 i2 i3 i4 i5,
    idx = [i0; i1; i2; i3; i4; i5] /\
    i0 < a /\ i1 < b /\ i2 < c /\ i3 < d /\ i4 < e /\ i5 < f.
Proof.
  intros H.
  repeat match goal with
         | Hf : Forall2 lt _ (_ :: _) |- _ => inversion Hf; subst; clear Hf
         | Hf : Forall2 lt _ [] |- _ => inversion Hf; subst; clear Hf
         end.
  do 6 eexists. repeat split; eassumption.
Qed.
(** C1. For a rank-4 tensor of shape (B, C, H, W) with H divisible by
    window_size[0] and W divisible by window_size[1],
    [window_reverse2 (window_partition2 x window_size) window_size H W C]
    returns [x] itself: same shape, same elements. *)
Theorem window_reverse2_window_partition2 {A : Type} (x : tensor A)
    (B C H W w0 w1 : nat) :
  dims x = [B; C; H; W] -> wf x ->
  0 < C -> 0 < H -> 0 < W ->
  H mod w0 = 0 -> W mod w1 = 0 ->
  (windows <- window_partition2 x (w0, w1) ;;
   window_reverse2 windows (w0, w1) H W C) = Ok x.
Proof.
  intros Hd Hwf HC HH HW Hh Hw.
  assert (Hw0 : 0 < w0) by (destruct w0; [simpl in Hh; lia | lia]).
  assert (Hw1 : 0 < w1) by (destruct w1; [simpl in Hw; lia | lia]).
  assert (EH : H = w0 * (H / w0)) by (apply Nat.Div0.div_exact; lia).
  assert (EW : W = w1 * (W / w1)) by (apply Nat.Div0.div_exact; lia).
  set (nh := H / w0) in *. set (nw := W / w1) in *.
  assert (Hnh : 0 < nh) by nia. assert (Hnw : 0 < nw) by nia.
  destruct x as [s l]. cbn [dims] in Hd. subst s.
  unfold wf in Hwf. cbn [dims data] in Hwf.
  unfold window_partition2, window_reverse2.
  cbn [shape value_tensor dims fst snd].
  rewrite !floordiv_pos by assumption. fold nh nw. cbn [bind].
  cbn [reshape value_tensor dims data].
  rewrite (reshape_explicit_head B); cycle 1.
  { reflexivity. } { repeat constructor; lia. } { reflexivity. }
  { cbn [to_opt map known_size prod fold_right]. nia. }
  cbn [bind fill to_opt map].
  cbn [transpose value_tensor dims data].
  change (transpose_shape [0; 2; 4; 3; 5; 1] [B; C; nh; w0; nw; w1])
    with (Ok (permute [0; 2; 4; 3; 5; 1] [B; C; nh; w0; nw; w1])).
  cbn [bind dims data].
  set (s1 := [B; C; nh; w0; nw; w1]).
  set (p1 := [0; 2; 4; 3; 5; 1]). set (p2 := [0; 5; 1; 3; 2; 4]).
  assert (Es2 : permute p1 s1 = [B; nh; nw; w0; w1; C]) by reflexivity.
  assert (El : length l = prod s1).
  { rewrite Hwf. subst s1. cbn [prod fold_right]. nia. }
  assert (El2 : prod (permute p1 s1) = length l).
  { rewrite El, Es2. subst s1. cbn [prod fold_right]. nia. }
  rewrite El2.
  rewrite (reshape_infer (B * nh * nw)); cycle 1.
  { repeat constructor; nia. } { reflexivity. }
  { rewrite Es2. cbn [to_opt map known_size prod fold_right]. nia. }
  cbn [bind fill to_opt map dims data].
  rewrite (reshape_infer B); cycle 1.
  { repeat constructor; nia. } { reflexivity. }
  { cbn [to_opt map known_size prod fold_right]. nia. }
  cbn [bind fill to_opt map dims data].
  rewrite <- Es2.
  replace (transpose_shape p2 (permute p1 s1))
    with (Ok (permute p2 (permute p1 s1))) by reflexivity.
  cbn [bind dims data].
  assert (Es3 : permute p2 (permute p1 s1) = s1) by reflexivity.
  rewrite Es3, <- El.
  rewrite (reshape_infer B); cycle 1.
  { repeat constructor; nia. } { reflexivity. }
  { subst s1. cbn [to_opt map known_size prod fold_right]. nia. }
  cbn [bind fill to_opt map dims data].
  do 2 f_equal.
  assert (Hrt : forall j, j < length l ->
            transpose_index p1 s1 (transpose_index p2 (permute p1 s1) j) = j
            /\ transpose_index p2 (permute p1 s1) j < prod (permute p1 s1)).
  { intros j Hj. apply transpose_index_roundtrip.
    - reflexivity.
    - intros idx Hlen.
      do 7 (destruct idx as [|? idx]; try discriminate Hlen). reflexivity.
    - intros idx Hb. apply Forall2_lt_rank6 in Hb.
      destruct Hb as (i0 & i1 & i2 & i3 & i4 & i5 & -> & Hb).
      cbn. repeat constructor; apply Hb.
    - exact Es3.
    - rewrite <- El. exact Hj. }
  apply gather_gather.
  - intros j Hj. rewrite <- El2. apply Hrt. exact Hj.
  - intros j Hj. rewrite El. unfold transpose_index. apply ravel_bound.
    rewrite <- El2 in Hj. pose proof (unravel_bounds _ _ Hj) as Hu.
    rewrite Es2 in Hu. apply Forall2_lt_rank6 in Hu.
    destruct Hu as (i0 & i1 & i2 & i3 & i4 & i5 & Eu & Hu).
    rewrite Es2, Eu. cbn. repeat constructor; apply Hu.
  - intros j Hj. apply Hrt. exact Hj.
Qed.

Lemma window_reverse2_window_partition2_witness :
  (windows <- window_partition2
                (mkTensor [1; 2; 2; 4] [0; 1; 2; 3; 4; 5; 6; 7;
                                        8; 9; 10; 11; 12; 13; 14; 15]) (1, 2) ;;
   window_reverse2 windows (1, 2) 2 4 2)
  = Ok (mkTensor [1; 2; 2; 4] [0; 1; 2; 3; 4; 5; 6; 7;
                               8; 9; 10; 11; 12; 13; 14; 15]).
Proof.
  apply (window_reverse2_window_partition2 _ 1 2 2 4 1 2);
    [reflexivity | reflexivity | lia | lia | lia | reflexivity | reflexivity].
Defined.


(** ** Relative position index *)

Lemma length_concat_const {A B : Type} (f : A -> list B) (n : nat)
    (l : list A) :
  (forall a, In a l -> length (f a) = n) ->
  length (List.concat (map f l)) = length l * n.
Proof.
  induction l as [|a l IH]; intros Hf; simpl.
  - reflexivity.
  - rewrite length_app, Hf by (left; reflexivity).
    rewrite IH by (intros b Hb; apply Hf; right; exact Hb). reflexivity.
Qed.

Lemma in_arange (n : nat) (z : Z) :
  In z (arange n) -> (0 <= z < Z.of_nat n)%Z.
Proof.
  unfold arange. intros H. apply in_map_iff in H.
  destruct H as [k [<- Hk]]. apply in_seq in Hk. lia.
Qed.

Lemma coords_flatten_length (Wh Ww : nat) :
  length (MixingAttention.coords_flatten (Wh, Ww)) = Wh * Ww.
Proof.
  unfold MixingAttention.coords_flatten, meshgrid. cbn [fst snd].
  rewrite length_combine.
  rewrite !(length_concat_const _ Ww).
  - unfold arange. rewrite length_map, length_seq. lia.
  - intros a _. unfold arange. rewrite length_map, length_seq. reflexivity.
  - intros a _. rewrite length_map. unfold arange.
    rewrite length_map, length_seq. reflexivity.
Qed.

Lemma coords_flatten_bounds (Wh Ww : nat) (c : Z * Z) :
  In c (MixingAttention.coords_flatten (Wh, Ww)) ->
  (0 <= fst c < Z.of_nat Wh)%Z /\ (0 <= snd c < Z.of_nat Ww)%Z.
Proof.
  unfold MixingAttention.coords_flatten, meshgrid. cbn [fst snd]. destruct c as [h w].
  intros H. split; cbn [fst snd].
  - apply in_combine_l in H. apply in_concat in H.
    destruct H as [row [Hrow Hh]]. apply in_map_iff in Hrow.
    destruct Hrow as [x [<- Hx]]. apply in_map_iff in Hh.
    destruct Hh as [_ [<- _]]. apply in_arange. exact Hx.
  - apply in_combine_r in H. apply in_concat in H.
    destruct H as [row [Hrow Hw]]. apply in_map_iff in Hrow.
    destruct Hrow as [x [<- Hx]]. apply in_arange. exact Hw.
Qed.

Lemma rel_pos_index_spec (Wh Ww : nat) :
  MixingAttention.sum_last (MixingAttention._get_rel_pos (Wh, Ww))
  = map (fun ci =>
           map (fun cj =>
                  ((fst ci - fst cj + (Z.of_nat Wh - 1))
                     * (2 * Z.of_nat Ww - 1)
                   + (snd ci - snd cj + (Z.of_nat Ww - 1)))%Z)
               (MixingAttention.coords_flatten (Wh, Ww)))
        (MixingAttention.coords_flatten (Wh, Ww)).
Proof.
  unfold MixingAttention.sum_last, MixingAttention._get_rel_pos.
  cbn [fst snd].
  rewrite !map_map. apply map_ext. intros ci.
  rewrite !map_map. apply map_ext. intros cj. reflexivity.
Qed.

Lemma rel_pos_index_range (Wh Ww : nat) :
  1 <= Wh -> 1 <= Ww ->
  let index :=
    MixingAttention.sum_last (MixingAttention._get_rel_pos (Wh, Ww)) in
  length index = Wh * Ww /\
  Forall (fun row =>
            length row = Wh * Ww /\
            Forall (fun v => (0 <= v
                              < Z.of_nat ((2 * Wh - 1) * (2 * Ww - 1)))%Z)
                   row) index.
Proof.
  intros HWh HWw index. subst index. rewrite rel_pos_index_spec. split.
  - rewrite length_map. apply coords_flatten_length.
  - apply Forall_forall. intros row Hrow. apply in_map_iff in Hrow.
    destruct Hrow as [ci [<- Hci]]. split.
    + rewrite length_map. apply coords_flatten_length.
    + apply Forall_forall. intros v Hv. apply in_map_iff in Hv.
      destruct Hv as [cj [<- Hcj]].
      apply coords_flatten_bounds in Hci, Hcj.
      rewrite Nat2Z.inj_mul, !Nat2Z.inj_sub, !Nat2Z.inj_mul by lia.
      change (Z.of_nat 2) with 2%Z. change (Z.of_nat 1) with 1%Z.
      nia.
Qed.

(** ** Inversion of successful constructions *)

Lemma bind_ok {A B : Type} (m : result A) (k : A -> result B) (r : B) :
  bind m k = Ok r -> exists a, m = Ok a /\ k a = Ok r.
Proof.
  destruct m as [a|e]; simpl; intros H; [|discriminate].
  exists a. split; [reflexivity | exact H].
Qed.

Lemma check_ok (b : bool) (msg : string) (u : unit) :
  check b msg = Ok u -> b = true.
Proof. destruct b; [reflexivity | discriminate]. Qed.

Lemma assert_ok (b : bool) (msg : string) (u : unit) :
  assert b msg = Ok u -> b = true.
Proof. destruct b; [reflexivity | discriminate]. Qed.

Lemma floordiv_ok (a b q : nat) :
  floordiv a b = Ok q -> 0 < b /\ q = a / b.
Proof.
  unfold floordiv. destruct (Nat.eqb_spec b 0); [discriminate|].
  intros E. injection E as <-. split; [lia | reflexivity].
Qed.

Ltac inv_bind H :=
  let a := fresh "a" in
  let E := fresh "E" in
  apply bind_ok in H; destruct H as [a [E H]].

Ltac bools :=
  repeat match goal with
         | H : _ && _ = true |- _ => apply andb_prop in H; destruct H
         | H : (_ <? _) = true |- _ => apply Nat.ltb_lt in H
         | H : (_ <=? _) = true |- _ => apply Nat.leb_le in H
         | H : (_ =? _) = true |- _ => apply Nat.eqb_eq in H
         end.

Lemma Linear_ok (i o : nat) (l : layer) :
  Linear i o = Ok l -> l = Linear_forward i o /\ 0 < i /\ 0 < o.
Proof.
  unfold Linear. intros H. inv_bind H. apply assert_ok in E. bools.
  injection H as <-. auto.
Qed.

Lemma LayerNorm_ok (n : nat) (l : layer) :
  LayerNorm n = Ok l -> l = LayerNorm_forward n /\ 0 < n.
Proof.
  unfold LayerNorm. intros H. inv_bind H. apply assert_ok in E. bools.
  injection H as <-. auto.
Qed.

Lemma BatchNorm_ok (n : nat) (l : layer) :
  BatchNorm n = Ok l -> l = BatchNorm_forward n /\ 0 < n.
Proof.
  unfold BatchNorm. intros H. inv_bind H. apply assert_ok in E. bools.
  injection H as <-. auto.
Qed.

Lemma Conv2D_ok (i o k s p g : nat) (l : layer) :
  Conv2D i o k s p g = Ok l ->
  l = Conv2D_forward i o k s p /\ 0 < i /\ 0 < o /\ 0 < k /\ 0 < s /\ 0 < g.
Proof.
  unfold Conv2D. intros H. do 3 inv_bind H.
  apply check_ok in E, E0. apply assert_ok in E1. bools.
  injection H as <-. auto 10.
Qed.

Lemma create_parameter_ok (s : list Z) (p : list nat) :
  create_parameter s = Ok p ->
  p = map Z.to_nat s /\ Forall (fun d => (0 < d)%Z) s.
Proof.
  unfold create_parameter. intros H. inv_bind H. apply assert_ok in E.
  injection H as <-. split; [reflexivity|].
  apply Forall_forall. intros d Hd.
  rewrite forallb_forall in E. apply Z.ltb_lt. apply E. exact Hd.
Qed.

Lemma Forall_pos_to_nat (s : list Z) :
  Forall (fun d => (0 < d)%Z) s -> Forall (fun d => 0 < d) (map Z.to_nat s).
Proof.
  induction 1 as [|d s Hd _ IH]; cbn [map]; constructor; [lia | exact IH].
Qed.

(** The number of rows of the relative position bias table.  The product
    is positive for a window with both sides positive, and also for the
    empty 0 x 0 window, where it is (-1) * (-1) = 1. *)
Lemma bias_table_rows (Wh Ww : nat) :
  1 <= Wh -> 1 <= Ww ->
  Z.to_nat ((2 * Z.of_nat Wh - 1) * (2 * Z.of_nat Ww - 1))
  = (2 * Wh - 1) * (2 * Ww - 1).
Proof.
  intros HWh HWw.
  replace (2 * Z.of_nat Wh - 1)%Z with (Z.of_nat (2 * Wh - 1)) by lia.
  replace (2 * Z.of_nat Ww - 1)%Z with (Z.of_nat (2 * Ww - 1)) by lia.
  rewrite <- Nat2Z.inj_mul. apply Nat2Z.id.
Qed.

Lemma bias_table_rows_pos (Wh Ww : nat) :
  (0 < (2 * Z.of_nat Wh - 1) * (2 * Z.of_nat Ww - 1))%Z ->
  (1 <= Wh /\ 1 <= Ww) \/ (Wh = 0 /\ Ww = 0).
Proof. intros H. destruct Wh, Ww; [right; auto | nia | nia | left; lia]. Qed.

Lemma MixingAttention_init_inv (dim : nat) (window_size : nat * nat)
    (dwconv_kernel_size num_heads : nat) (qk_scale : bool)
    (m : MixingAttention.t) :
  MixingAttention.init dim window_size dwconv_kernel_size num_heads qk_scale
    = Ok m ->
  m = MixingAttention_made dim window_size dwconv_kernel_size num_heads /\
  0 < num_heads /\ 0 < dim / 16 /\ 0 < dwconv_kernel_size /\
  ((1 <= fst window_size /\ 1 <= snd window_size) \/
   (fst window_size = 0 /\ snd window_size = 0)).
Proof.
  unfold MixingAttention.init. intros H.
  repeat (let a := fresh "a" in let E := fresh "E" in
          apply bind_ok in H; destruct H as [a [E H]]).
  repeat match goal with
         | E : Linear _ _ = Ok _ |- _ => apply Linear_ok in E; destruct E as [-> ?]
         | E : LayerNorm _ = Ok _ |- _ => apply LayerNorm_ok in E; destruct E as [-> ?]
         | E : BatchNorm _ = Ok _ |- _ => apply BatchNorm_ok in E; destruct E as [-> ?]
         | E : Conv2D _ _ _ _ _ _ = Ok _ |- _ =>
             apply Conv2D_ok in E; destruct E as [-> ?]
         | E : create_parameter _ = Ok _ |- _ =>
             apply create_parameter_ok in E; destruct E as [-> ?]
         | E : floordiv _ _ = Ok _ |- _ => apply floordiv_ok in E; destruct E as [? ->]
         end.
  injection H as <-. split.
  { unfold MixingAttention_made. cbn [map]. rewrite Nat2Z.id. reflexivity. }
  match goal with
  | Hf : Forall _ [_; _] |- _ =>
      inversion Hf as [|? ? Hpos _]; subst; clear Hf
  end.
  apply bias_table_rows_pos in Hpos.
  repeat match goal with H : _ /\ _ |- _ => destruct H end.
  repeat split; try assumption; lia.
Qed.

(** C6. For every window size (Wh, Ww) with Wh >= 1 and Ww >= 1, the
    [relative_position_index] table of a constructed [MixingAttention] has
    shape (Wh*Ww, Wh*Ww) and every entry lies in
    [0, (2*Wh-1)*(2*Ww-1)), the number of rows of the relative position bias
    table it indexes. *)
Theorem relative_position_index_in_range (dim Wh Ww dwconv_kernel_size
    num_heads : nat) (qk_scale : bool) (m : MixingAttention.t) :
  1 <= Wh -> 1 <= Ww ->
  MixingAttention.init dim (Wh, Ww) dwconv_kernel_size num_heads qk_scale
    = Ok m ->
  let index := MixingAttention.relative_position_index m in
  length index = Wh * Ww /\
  select_dim0 (MixingAttention.relative_position_bias_table m)
    = Ok ((2 * Wh - 1) * (2 * Ww - 1)) /\
  Forall (fun row =>
            length row = Wh * Ww /\
            Forall (fun v => (0 <= v
                              < Z.of_nat ((2 * Wh - 1) * (2 * Ww - 1)))%Z)
                   row) index.
Proof.
  intros HWh HWw Hinit index.
  apply MixingAttention_init_inv in Hinit. destruct Hinit as [-> _].
  subst index. cbn [MixingAttention.relative_position_index
                    MixingAttention.relative_position_bias_table
                    MixingAttention_made select_dim0 fst snd].
  pose proof (rel_pos_index_range Wh Ww HWh HWw) as [Hlen Hall].
  rewrite bias_table_rows by assumption. auto.
Qed.


(** ** Forward equations of the framework layers *)

Lemma Linear_forward_3 (i o a b : nat) :
  Linear_forward i o [a; b; i] = Ok [a; b; o].
Proof. unfold Linear_forward. cbn. rewrite Nat.eqb_refl. reflexivity. Qed.

Lemma LayerNorm_forward_3 (n a b : nat) :
  LayerNorm_forward n [a; b; n] = Ok [a; b; n].
Proof. unfold LayerNorm_forward. cbn. rewrite Nat.eqb_refl. reflexivity. Qed.

Lemma BatchNorm_forward_4 (c a h w : nat) :
  BatchNorm_forward c [a; c; h; w] = Ok [a; c; h; w].
Proof. unfold BatchNorm_forward. rewrite Nat.eqb_refl. reflexivity. Qed.

(** [conv_out] when the kernel fits the padded input, when it exceeds it by
    less than the stride, and when it exceeds it by more. *)
Lemma conv_out_fits (size k s p : nat) :
  0 < s -> k <= size + 2 * p ->
  conv_out size k s p = Ok ((size + 2 * p - k) / s + 1).
Proof.
  intros Hs Hk. unfold conv_out. cbv zeta.
  replace (Z.of_nat size + 2 * Z.of_nat p - Z.of_nat k)%Z
    with (Z.of_nat (size + 2 * p - k)) by lia.
  rewrite Z.quot_div_nonneg by lia.
  rewrite <- Nat2Z.inj_div.
  replace (Z.of_nat ((size + 2 * p - k) / s) + 1)%Z
    with (Z.of_nat ((size + 2 * p - k) / s + 1)) by lia.
  rewrite Nat2Z.id.
  destruct (Z.ltb_spec 0 (Z.of_nat ((size + 2 * p - k) / s + 1))); [|lia].
  reflexivity.
Qed.

Lemma quot_small_neg (n s : Z) : (- s < n < 0)%Z -> Z.quot n s = 0%Z.
Proof.
  intros H. replace n with (- (- n))%Z by lia.
  rewrite Z.quot_opp_l by lia. rewrite Z.quot_small by lia. reflexivity.
Qed.

Lemma quot_large_neg (n s : Z) : (0 < s)%Z -> (n <= - s)%Z -> (Z.quot n s <= -1)%Z.
Proof.
  intros Hs H. replace n with (- (- n))%Z by lia.
  rewrite Z.quot_opp_l by lia.
  assert (1 <= Z.quot (- n) s)%Z; [|lia].
  rewrite Z.quot_div_nonneg by lia.
  apply Z.div_le_lower_bound; lia.
Qed.

Lemma conv_out_small (size k s p : nat) :
  size + 2 * p < k -> k < size + 2 * p + s -> conv_out size k s p = Ok 1.
Proof.
  intros Hk Hs. unfold conv_out. cbv zeta.
  rewrite quot_small_neg by lia. reflexivity.
Qed.

Lemma conv_out_inv (size k s p r : nat) :
  0 < s -> conv_out size k s p = Ok r ->
  (k <= size + 2 * p /\ r = (size + 2 * p - k) / s + 1) \/
  (size + 2 * p < k /\ k < size + 2 * p + s /\ r = 1).
Proof.
  intros Hs H.
  destruct (Nat.le_gt_cases k (size + 2 * p)) as [Hk|Hk].
  - rewrite conv_out_fits in H by assumption. injection H as <-. left. auto.
  - destruct (Nat.lt_ge_cases k (size + 2 * p + s)) as [Hk2|Hk2].
    + rewrite conv_out_small in H by assumption. injection H as <-.
      right. auto.
    + exfalso. unfold conv_out in H. cbv zeta in H.
      pose proof (quot_large_neg
                    (Z.of_nat size + 2 * Z.of_nat p - Z.of_nat k)
                    (Z.of_nat s) ltac:(lia) ltac:(lia)) as Hq.
      destruct (Z.ltb_spec 0
                  (Z.quot (Z.of_nat size + 2 * Z.of_nat p - Z.of_nat k)
                     (Z.of_nat s) + 1)) as [Hlt|_]; [lia|].
      discriminate H.
Qed.

Lemma conv_out_same (size k : nat) :
  k mod 2 = 1 -> 0 < size -> conv_out size k 1 (k / 2) = Ok size.
Proof.
  intros Hk Hs.
  pose proof (Nat.div_mod_eq k 2) as E.
  rewrite conv_out_fits by lia. rewrite Nat.div_1_r. f_equal. lia.
Qed.

Lemma conv_out_1x1 (size : nat) : 0 < size -> conv_out size 1 1 0 = Ok size.
Proof. intros Hs. apply (conv_out_same size 1); [reflexivity | exact Hs]. Qed.

Lemma conv_out_3x3 (size : nat) : 0 < size -> conv_out size 3 1 1 = Ok size.
Proof. intros Hs. apply (conv_out_same size 3); [reflexivity | exact Hs]. Qed.

Lemma Conv2D_forward_same (i o k B H W : nat) :
  k mod 2 = 1 -> 0 < H -> 0 < W ->
  Conv2D_forward i o k 1 (k / 2) [B; i; H; W] = Ok [B; o; H; W].
Proof.
  intros Hk HH HW. unfold Conv2D_forward.
  rewrite Nat.eqb_refl, !conv_out_same by assumption. reflexivity.
Qed.

Lemma Conv2D_forward_1x1 (i o B H W : nat) :
  0 < H -> 0 < W -> Conv2D_forward i o 1 1 0 [B; i; H; W] = Ok [B; o; H; W].
Proof.
  intros HH HW. apply (Conv2D_forward_same i o 1); [reflexivity | | ]; assumption.
Qed.

Lemma Conv2D_forward_3x3 (i o B H W : nat) :
  0 < H -> 0 < W -> Conv2D_forward i o 3 1 1 [B; i; H; W] = Ok [B; o; H; W].
Proof.
  intros HH HW. apply (Conv2D_forward_same i o 3); [reflexivity | | ]; assumption.
Qed.

Lemma check_list_eq (x y : list nat) (msg : string) :
  x = y ->
  check (if list_eq_dec Nat.eq_dec x y then true else false) msg = Ok tt.
Proof. intros ->. destruct (list_eq_dec Nat.eq_dec y y); [reflexivity | contradiction]. Qed.

Lemma broadcast_same (a : list nat) : broadcast a a = Ok a.
Proof.
  unfold broadcast.
  assert (H : forall l, broadcast_rev l l = Ok l).
  { induction l as [|x l IH]; [reflexivity|].
    cbn [broadcast_rev]. rewrite Nat.eqb_refl, IH. reflexivity. }
  rewrite H. cbn [bind]. rewrite rev_involutive. reflexivity.
Qed.

Lemma iadd_same (a : list nat) : iadd a a = Ok a.
Proof.
  unfold iadd. rewrite broadcast_same. cbn [bind].
  rewrite check_list_eq by reflexivity. reflexivity.
Qed.

(** ** Windowing on shapes *)

Ltac pos_spec_tac := repeat constructor; nia.

Lemma window_reverse2_shape (B C H W w0 w1 : nat) :
  0 < C -> 0 < H -> 0 < W -> H mod w0 = 0 -> W mod w1 = 0 ->
  window_reverse2 [B * (H / w0) * (W / w1); w0 * w1; C] (w0, w1) H W C
  = Ok [B; C; H; W].
Proof.
  intros HC HH HW Hh Hw.
  assert (Hw0 : 0 < w0) by (destruct w0; [simpl in Hh; lia | lia]).
  assert (Hw1 : 0 < w1) by (destruct w1; [simpl in Hw; lia | lia]).
  assert (EH : H = w0 * (H / w0)) by (apply Nat.Div0.div_exact; lia).
  assert (EW : W = w1 * (W / w1)) by (apply Nat.Div0.div_exact; lia).
  set (nh := H / w0) in *. set (nw := W / w1) in *.
  assert (Hnh : 0 < nh) by nia. assert (Hnw : 0 < nw) by nia.
  unfold window_reverse2. cbn [fst snd].
  rewrite !floordiv_pos by assumption. fold nh nw. cbn [bind].
  cbn [reshape transpose shape_tensor].
  rewrite (reshape_infer B); cycle 1.
  { pos_spec_tac. } { reflexivity. }
  { cbn [to_opt map known_size prod fold_right]. nia. }
  cbn [bind fill to_opt map].
  replace (transpose_shape [0; 5; 1; 3; 2; 4] [B; nh; nw; w0; w1; C])
    with (Ok [B; C; nh; w0; nw; w1]) by reflexivity.
  cbn [bind].
  apply (reshape_infer B).
  { pos_spec_tac. } { reflexivity. }
  { cbn [to_opt map known_size prod fold_right]. nia. }
Qed.

Lemma window_partition2_shape (B C H W w0 w1 : nat) :
  0 < B -> 0 < C -> 0 < H -> 0 < W -> H mod w0 = 0 -> W mod w1 = 0 ->
  window_partition2 [B; C; H; W] (w0, w1)
  = Ok [B * (H / w0) * (W / w1); w0 * w1; C].
Proof.
  intros HB HC HH HW Hh Hw.
  assert (Hw0 : 0 < w0) by (destruct w0; [simpl in Hh; lia | lia]).
  assert (Hw1 : 0 < w1) by (destruct w1; [simpl in Hw; lia | lia]).
  assert (EH : H = w0 * (H / w0)) by (apply Nat.Div0.div_exact; lia).
  assert (EW : W = w1 * (W / w1)) by (apply Nat.Div0.div_exact; lia).
  set (nh := H / w0) in *. set (nw := W / w1) in *.
  assert (Hnh : 0 < nh) by nia. assert (Hnw : 0 < nw) by nia.
  unfold window_partition2. cbn [shape shape_tensor fst snd].
  rewrite !floordiv_pos by assumption. fold nh nw. cbn [bind].
  cbn [reshape transpose shape_tensor].
  rewrite reshape_explicit; cycle 1.
  { pos_spec_tac. } { reflexivity. }
  { cbn [to_opt map known_size prod fold_right]. nia. }
  cbn [bind fill to_opt map].
  replace (transpose_shape [0; 2; 4; 3; 5; 1] [B; C; nh; w0; nw; w1])
    with (Ok [B; nh; nw; w0; w1; C]) by reflexivity.
  cbn [bind].
  apply (reshape_infer (B * nh * nw)).
  { pos_spec_tac. } { reflexivity. }
  { cbn [to_opt map known_size prod fold_right]. nia. }
Qed.

Lemma bdim_one_r (x : nat) :
  (if x =? 1 then Ok x
   else if x =? 1 then Ok 1
   else if 1 =? 1 then Ok x
   else Raise (ValueError "operands could not be broadcast")) = Ok x.
Proof. destruct (x =? 1); reflexivity. Qed.

Lemma bdim_one_l (y : nat) :
  (if 1 =? y then Ok 1
   else if 1 =? 1 then Ok y
   else if y =? 1 then Ok 1
   else Raise (ValueError "operands could not be broadcast")) = Ok y.
Proof.
  destruct (Nat.eqb_spec 1 y) as [<-|_]; reflexivity.
Qed.

Lemma broadcast_gate5 (a b c d e : nat) :
  broadcast [a; b; c; d; e] [a; 1; c; 1; e] = Ok [a; b; c; d; e].
Proof.
  unfold broadcast. cbn [rev app broadcast_rev].
  repeat (first [rewrite Nat.eqb_refl | rewrite bdim_one_r
                | rewrite bdim_one_l]; cbn [bind]).
  reflexivity.
Qed.

Lemma broadcast_lead1 (a b c d : nat) :
  broadcast [a; b; c; d] [1; b; c; d] = Ok [a; b; c; d].
Proof.
  unfold broadcast. cbn [rev app broadcast_rev].
  repeat (first [rewrite Nat.eqb_refl | rewrite bdim_one_r
                | rewrite bdim_one_l]; cbn [bind]).
  reflexivity.
Qed.

Lemma broadcast_chan1 (a b c d : nat) :
  broadcast [a; 1; c; d] [a; b; c; d] = Ok [a; b; c; d].
Proof.
  unfold broadcast. cbn [rev app broadcast_rev].
  repeat (first [rewrite Nat.eqb_refl | rewrite bdim_one_r
                | rewrite bdim_one_l]; cbn [bind]).
  reflexivity.
Qed.

Lemma mm_4 (a b m k n : nat) :
  mm [a; b; m; k] [a; b; k; n] = Ok [a; b; m; n].
Proof.
  unfold mm. cbn [rev app]. rewrite Nat.eqb_refl. cbn [check bind].
  cbn [broadcast_rev]. rewrite !Nat.eqb_refl. reflexivity.
Qed.

Lemma length_concat_rows {A : Type} (n : nat) (l : list (list A)) :
  Forall (fun row => length row = n) l ->
  length (List.concat l) = length l * n.
Proof.
  intros H. induction H as [|row l Hrow _ IH]; simpl.
  - reflexivity.
  - rewrite length_app, Hrow, IH. reflexivity.
Qed.

Lemma index_select_rel_pos (Wh Ww nh : nat) :
  1 <= Wh -> 1 <= Ww ->
  index_select [(2 * Wh - 1) * (2 * Ww - 1); nh]
    (List.concat
       (MixingAttention.sum_last (MixingAttention._get_rel_pos (Wh, Ww))))
  = Ok [Wh * Ww * (Wh * Ww); nh].
Proof.
  intros HWh HWw.
  destruct (rel_pos_index_range Wh Ww HWh HWw) as [Hlen Hall].
  unfold index_select.
  assert (Hin : forallb
            (fun i => (0 <=? i)%Z
                      && (i <? Z.of_nat ((2 * Wh - 1) * (2 * Ww - 1)))%Z)
            (List.concat
               (MixingAttention.sum_last
                  (MixingAttention._get_rel_pos (Wh, Ww)))) = true).
  { apply forallb_forall. intros v Hv. apply in_concat in Hv.
    destruct Hv as [row [Hrow Hv]].
    rewrite Forall_forall in Hall. destruct (Hall row Hrow) as [_ Hr].
    rewrite Forall_forall in Hr. specialize (Hr v Hv).
    apply andb_true_intro. split; [apply Z.leb_le | apply Z.ltb_lt]; lia. }
  rewrite Hin.
  rewrite (length_concat_rows (Wh * Ww)), Hlen; [reflexivity|].
  eapply Forall_impl; [|exact Hall]. intros row [Hr _]. exact Hr.
Qed.

Lemma concat_last_3 (a b c d : nat) :
  concat [[a; b; c]; [a; b; d]] (-1) = Ok [a; b; c + d].
Proof.
  unfold concat. replace (axis_of (length [a; b; c]) (-1)) with (Ok 2)
    by reflexivity.
  cbn [bind concat_at set_nth firstn skipn app nth length Nat.eqb andb].
  rewrite check_list_eq by reflexivity. reflexivity.
Qed.

Lemma broadcast_mask5 (a b c d e : nat) :
  broadcast [a; b; c; d; e] [1; b; 1; d; e] = Ok [a; b; c; d; e].
Proof.
  unfold broadcast. cbn [rev app broadcast_rev].
  repeat (first [rewrite Nat.eqb_refl | rewrite bdim_one_r
                | rewrite bdim_one_l]; cbn [bind]).
  reflexivity.
Qed.

Lemma window_reverse2_shape_eq (B C H W w0 w1 B_ N : nat) :
  0 < C -> 0 < H -> 0 < W -> H mod w0 = 0 -> W mod w1 = 0 ->
  B_ = B * (H / w0) * (W / w1) -> N = w0 * w1 ->
  window_reverse2 [B_; N; C] (w0, w1) H W C = Ok [B; C; H; W].
Proof. intros. subst B_ N. apply window_reverse2_shape; assumption. Qed.

Lemma window_partition2_shape_eq (B C H W w0 w1 B_ N : nat) :
  0 < B -> 0 < C -> 0 < H -> 0 < W -> H mod w0 = 0 -> W mod w1 = 0 ->
  B_ = B * (H / w0) * (W / w1) -> N = w0 * w1 ->
  window_partition2 [B; C; H; W] (w0, w1) = Ok [B_; N; C].
Proof. intros. subst B_ N. apply window_partition2_shape; assumption. Qed.

(** Side conditions of the reshape lemmas. *)
Ltac rs :=
  first [ reflexivity
        | pos_spec_tac
        | cbn [to_opt map known_size prod fold_right]; nia ].

Lemma MixingAttention_forward_made (dim Wh Ww k nh : nat) (B H W : nat)
    (mask : option (list nat)) :
  0 < nh -> 0 < dim / 16 -> 1 <= Wh -> 1 <= Ww ->
  dim mod 2 = 0 -> (dim / 2) mod nh = 0 -> k mod 2 = 1 ->
  0 < B -> 0 < H -> 0 < W -> H mod Wh = 0 -> W mod Ww = 0 ->
  valid_mask (B * (H / Wh) * (W / Ww)) (Wh * Ww) mask ->
  MixingAttention.forward (MixingAttention_made dim (Wh, Ww) k nh)
    [B * (H / Wh) * (W / Ww); Wh * Ww; dim] H W mask
  = Ok [B * (H / Wh) * (W / Ww); Wh * Ww; dim].
Proof.
  intros Hnh Hd16 HWh HWw Hev Hheads Hk HB HH HW Hh Hw Hmask.
  assert (Ed : dim = 2 * (dim / 2)) by (apply Nat.Div0.div_exact; lia).
  assert (HC : 0 < dim / 2).
  { clear - Hd16. pose proof (Nat.div_mod_eq dim 16).
    pose proof (Nat.div_mod_eq dim 2).
    pose proof (Nat.mod_upper_bound dim 2). lia. }
  assert (Hd8 : 0 < dim / 8).
  { clear - Hd16. pose proof (Nat.div_mod_eq dim 16).
    pose proof (Nat.div_mod_eq dim 8).
    pose proof (Nat.mod_upper_bound dim 8). lia. }
  assert (EH : H = Wh * (H / Wh)) by (apply Nat.Div0.div_exact; lia).
  assert (EW : W = Ww * (W / Ww)) by (apply Nat.Div0.div_exact; lia).
  set (nwh := H / Wh) in *. set (nww := W / Ww) in *.
  assert (Hnwh : 0 < nwh) by nia. assert (Hnww : 0 < nww) by nia.
  set (C := dim / 2) in *.
  assert (Ehd : C = nh * (C / nh)) by (apply Nat.Div0.div_exact; lia).
  set (hd := C / nh) in *.
  assert (Hhd : 0 < hd) by nia.
  remember (B * nwh * nww) as B_ eqn:EB_.
  remember (Wh * Ww) as N eqn:EN.
  assert (HB_ : 0 < B_) by nia.
  assert (HN : 0 < N) by nia.
  unfold MixingAttention.forward.
  cbn [MixingAttention.proj_attn MixingAttention.proj_attn_norm
       MixingAttention.proj_cnn MixingAttention.proj_cnn_norm
       MixingAttention_made MixingAttention.window_size
       MixingAttention.dwconv3x3 MixingAttention.channel_interaction
       MixingAttention.projection MixingAttention.num_heads
       MixingAttention.qkv].
  fold C.
  rewrite !Linear_forward_3. cbn [bind].
  rewrite !LayerNorm_forward_3. cbn [bind].
  cbn [last_dim rev app bind].
  rewrite (window_reverse2_shape_eq B dim H W Wh Ww B_ N)
    by (assumption || lia).
  cbn [bind Sequential].
  rewrite Conv2D_forward_same by assumption. cbn [bind].
  rewrite BatchNorm_forward_4. cbn [bind GELU adaptive_avg_pool2d_1].
  rewrite !Conv2D_forward_1x1 by lia. cbn [bind].
  rewrite BatchNorm_forward_4. cbn [bind].
  rewrite !Conv2D_forward_1x1 by lia. cbn [bind].
  rewrite floordiv_pos by assumption. fold hd. cbn [bind].
  rewrite Linear_forward_3. cbn [bind reshape transpose shape_tensor].
  rewrite reshape_explicit by rs.
  cbn [bind fill to_opt map].
  replace (transpose_shape [2; 0; 3; 1; 4] [B_; N; 3; nh; hd])
    with (Ok [3; B_; nh; N; hd]) by reflexivity.
  cbn [bind select0 Nat.ltb Nat.leb sigmoid].
  rewrite (reshape_infer B) by rs.
  cbn [bind fill to_opt map select_dim0].
  rewrite (reshape_infer (nwh * nww)) by rs.
  cbn [bind fill to_opt map].
  rewrite broadcast_gate5. cbn [bind].
  rewrite (reshape_infer B_) by rs.
  cbn [bind fill to_opt map].
  replace (transpose_shape [0; 1; 3; 2] [B_; nh; N; hd])
    with (Ok [B_; nh; hd; N]) by reflexivity.
  cbn [bind]. rewrite mm_4. cbn [bind].
  cbn [MixingAttention.relative_position_bias_table
       MixingAttention.relative_position_index MixingAttention_made
       fst snd].
  rewrite bias_table_rows by assumption.
  rewrite index_select_rel_pos by assumption. rewrite <- EN. cbn [bind].
  rewrite (reshape_infer nh) by rs.
  cbn [bind fill to_opt map].
  replace (transpose_shape [2; 0; 1] [N; N; nh])
    with (Ok [nh; N; N]) by reflexivity.
  cbn [bind]. unfold unsqueeze at 1.
  cbn [length Nat.leb check bind firstn skipn app].
  rewrite broadcast_lead1. cbn [bind].
  assert (Hsoft :
    match mask with
    | Some mask0 =>
        nW <- select_dim0 mask0 ;;
        Bq <- floordiv B_ nW ;;
        a <- reshape_shape [Dim Bq; Dim nW; Dim nh; Dim N; Dim N]
               [B_; nh; N; N] ;;
        m <- (y <- unsqueeze 1 mask0 ;; unsqueeze 0 y) ;;
        a0 <- broadcast a m ;;
        a1 <- reshape_shape [Infer; Dim nh; Dim N; Dim N] a0 ;;
        Softmax a1
    | None => Softmax [B_; nh; N; N]
    end = Ok [B_; nh; N; N]).
  { destruct mask as [ms|]; [|reflexivity].
    destruct Hmask as (nW & -> & HnW & Hdiv).
    assert (EB : B_ = nW * (B_ / nW)) by (apply Nat.Div0.div_exact; lia).
    set (Bq := B_ / nW) in *. assert (HBq : 0 < Bq) by nia.
    cbn [select_dim0 bind]. rewrite floordiv_pos by assumption. fold Bq.
    cbn [bind]. rewrite reshape_explicit by rs.
    cbn [bind fill to_opt map]. unfold unsqueeze.
    cbn [length Nat.leb check bind firstn skipn app].
    rewrite broadcast_mask5. cbn [bind].
    rewrite (reshape_infer B_) by rs. reflexivity. }
  cbn [MixingAttention.softmax MixingAttention_made].
  rewrite Hsoft. clear Hsoft.
  cbn [bind MixingAttention.attn_drop MixingAttention_made Dropout].
  rewrite mm_4. cbn [bind].
  replace (transpose_shape [0; 2; 1; 3] [B_; nh; N; hd])
    with (Ok [B_; N; nh; hd]) by reflexivity.
  cbn [bind].
  rewrite reshape_explicit by rs.
  cbn [bind fill to_opt map].
  rewrite (window_reverse2_shape_eq B C H W Wh Ww B_ N)
    by (assumption || lia).
  cbn [bind MixingAttention.spatial_interaction MixingAttention.conv_norm
       MixingAttention.attn_norm MixingAttention.proj
       MixingAttention.proj_drop MixingAttention_made Sequential].
  fold C.
  rewrite !Conv2D_forward_1x1 by lia. cbn [bind].
  rewrite BatchNorm_forward_4. cbn [bind GELU].
  rewrite !Conv2D_forward_1x1 by lia. cbn [bind].
  rewrite broadcast_chan1. cbn [bind].
  rewrite BatchNorm_forward_4. cbn [bind].
  rewrite (window_partition2_shape_eq B C H W Wh Ww B_ N)
    by (assumption || lia).
  cbn [bind].
  rewrite LayerNorm_forward_3. cbn [bind].
  rewrite concat_last_3. cbn [bind].
  replace (C + C) with dim by lia.
  rewrite Linear_forward_3. reflexivity.
Qed.

(** C4. For a constructed [MixingAttention] (even width, heads dividing the
    attention width, odd depth-wise kernel) and every input of shape
    (num_windows*B, Wh*Ww, dim) cut from a map whose height and width are
    multiples of the window size, with no mask or a mask that fits,
    [forward] returns a tensor of exactly the input's shape. *)
Theorem MixingAttention_forward_preserves_shape (dim Wh Ww k nh : nat)
    (qk_scale : bool) (m : MixingAttention.t) (B H W : nat)
    (mask : option (list nat)) :
  MixingAttention.init dim (Wh, Ww) k nh qk_scale = Ok m ->
  dim mod 2 = 0 -> (dim / 2) mod nh = 0 -> k mod 2 = 1 ->
  0 < B -> 0 < H -> 0 < W -> H mod Wh = 0 -> W mod Ww = 0 ->
  valid_mask (B * (H / Wh) * (W / Ww)) (Wh * Ww) mask ->
  let x := [B * (H / Wh) * (W / Ww); Wh * Ww; dim] in
  MixingAttention.forward m x H W mask = Ok x.
Proof.
  intros Hinit Hev Hheads Hk HB HH HW Hh Hw Hmask x. subst x.
  apply MixingAttention_init_inv in Hinit.
  destruct Hinit as (-> & Hnh & Hd16 & _ & _).
  assert (HWh : 1 <= Wh).
  { destruct Wh; [|lia]. rewrite Nat.mod_0_r in Hh. lia. }
  assert (HWw : 1 <= Ww).
  { destruct Ww; [|lia]. rewrite Nat.mod_0_r in Hw. lia. }
  apply MixingAttention_forward_made; assumption.
Qed.


(** ** MixingBlock *)

Lemma Mlp_ok (i h : nat) (l : layer) :
  Mlp i h = Ok l -> l = Mlp_made i h /\ 0 < i /\ 0 < h.
Proof.
  unfold Mlp. intros H. do 2 inv_bind H.
  apply Linear_ok in E, E0. destruct E as (-> & ? & ?), E0 as (-> & ? & ?).
  injection H as <-. auto.
Qed.

Lemma Bottleneck_init_inv (i o : nat) (b : Bottleneck.t) :
  Bottleneck.init i o = Ok b -> b = Bottleneck_made i o /\ 0 < o / 2.
Proof.
  unfold Bottleneck.init. intros H.
  repeat (let a := fresh "a" in let E := fresh "E" in
          apply bind_ok in H; destruct H as [a [E H]]).
  repeat match goal with
         | E : BatchNorm _ = Ok _ |- _ =>
             apply BatchNorm_ok in E; destruct E as [-> ?]
         | E : Conv2D _ _ _ _ _ _ = Ok _ |- _ =>
             apply Conv2D_ok in E; destruct E as [-> ?]
         end.
  injection H as <-. split; [reflexivity|].
  unfold Bottleneck.expansion in *. assumption.
Qed.

Lemma MixingBlock_init_inv (dim nh ws k : nat) (shift : Z) (mlp : nat)
    (qk : bool) (blk : MixingBlock.t) :
  MixingBlock.init dim nh ws k shift mlp qk = Ok blk ->
  shift = 0%Z /\
  blk = MixingBlock_made dim nh ws k mlp None None /\
  0 < nh /\ 0 < dim / 16 /\ 0 < k /\ 0 < mlp.
Proof.
  unfold MixingBlock.init. intros H.
  repeat (let a := fresh "a" in let E := fresh "E" in
          apply bind_ok in H; destruct H as [a [E H]]).
  apply assert_ok in E. apply Z.eqb_eq in E. subst shift.
  repeat match goal with
         | E : LayerNorm _ = Ok _ |- _ =>
             apply LayerNorm_ok in E; destruct E as [-> ?]
         | E : Mlp _ _ = Ok _ |- _ =>
             apply Mlp_ok in E; destruct E as (-> & ? & ?)
         | E : Bottleneck.init _ _ = Ok _ |- _ =>
             apply Bottleneck_init_inv in E; destruct E as [-> ?]
         | E : MixingAttention.init _ _ _ _ _ = Ok _ |- _ =>
             apply MixingAttention_init_inv in E;
             destruct E as (-> & ? & ? & ? & _)
         end.
  injection H as <-. cbn [fst snd to_2tuple] in *.
  repeat split; try assumption; nia.
Qed.

Lemma pad_to_multiple (n ws : nat) :
  0 < ws -> (n + (ws - n mod ws) mod ws) mod ws = 0.
Proof.
  intros Hws.
  pose proof (Nat.div_mod_eq n ws) as E.
  pose proof (Nat.mod_upper_bound n ws ltac:(lia)) as Hr.
  destruct (Nat.eq_dec (n mod ws) 0) as [E0|E0].
  - rewrite E0, Nat.sub_0_r, Nat.Div0.mod_same, Nat.add_0_r. exact E0.
  - rewrite (Nat.mod_small (ws - n mod ws)) by lia.
    replace (n + (ws - n mod ws)) with ((n / ws + 1) * ws) by nia.
    apply Nat.Div0.mod_mul.
Qed.

Lemma pymod_pos (a b : nat) : 0 < b -> pymod a b = Ok (a mod b).
Proof.
  intros Hb. unfold pymod. destruct (Nat.eqb_spec b 0); [lia | reflexivity].
Qed.

Lemma Bottleneck_forward_made (dim B H W : nat) :
  0 < H -> 0 < W ->
  Bottleneck.forward (Bottleneck_made dim dim) [B; dim; H; W]
  = Ok [B; dim; H; W].
Proof.
  intros HH HW. unfold Bottleneck.forward.
  cbn [Bottleneck.conv1 Bottleneck.bn1 Bottleneck.relu Bottleneck.conv2
       Bottleneck.conv3 Bottleneck.conv4 Bottleneck.bn4 Bottleneck_made].
  rewrite Conv2D_forward_3x3 by assumption. cbn [bind].
  rewrite BatchNorm_forward_4. cbn [bind ReLU].
  rewrite Conv2D_forward_1x1 by assumption. cbn [bind].
  rewrite Conv2D_forward_1x1 by assumption. cbn [bind].
  rewrite Conv2D_forward_3x3 by assumption. cbn [bind].
  rewrite BatchNorm_forward_4. cbn [bind].
  rewrite iadd_same. reflexivity.
Qed.

Lemma window_partition_shape (B H W C ws : nat) :
  0 < B -> 0 < C -> 0 < H -> 0 < W -> H mod ws = 0 -> W mod ws = 0 ->
  window_partition [B; H; W; C] ws = Ok [B * (H / ws) * (W / ws); ws; ws; C].
Proof.
  intros HB HC HH HW Hh Hw.
  assert (Hws : 0 < ws) by (destruct ws; [simpl in Hh; lia | lia]).
  assert (EH : H = ws * (H / ws)) by (apply Nat.Div0.div_exact; lia).
  assert (EW : W = ws * (W / ws)) by (apply Nat.Div0.div_exact; lia).
  set (nh := H / ws) in *. set (nw := W / ws) in *.
  assert (Hnh : 0 < nh) by nia. assert (Hnw : 0 < nw) by nia.
  unfold window_partition. cbn [shape shape_tensor].
  rewrite !floordiv_pos by assumption. fold nh nw. cbn [bind].
  cbn [reshape transpose shape_tensor].
  rewrite (reshape_infer B) by rs.
  cbn [bind fill to_opt map].
  replace (transpose_shape [0; 1; 3; 2; 4; 5] [B; nh; ws; nw; ws; C])
    with (Ok [B; nh; nw; ws; ws; C]) by reflexivity.
  cbn [bind].
  apply (reshape_infer (B * nh * nw)); rs.
Qed.

Lemma window_reverse_shape (B H W C ws B_ : nat) :
  0 < C -> 0 < H -> 0 < W -> H mod ws = 0 -> W mod ws = 0 ->
  B_ = B * (H / ws) * (W / ws) ->
  window_reverse [B_; ws; ws; C] ws H W = Ok [B; H; W; C].
Proof.
  intros HC HH HW Hh Hw EB.
  assert (Hws : 0 < ws) by (destruct ws; [simpl in Hh; lia | lia]).
  assert (EH : H = ws * (H / ws)) by (apply Nat.Div0.div_exact; lia).
  assert (EW : W = ws * (W / ws)) by (apply Nat.Div0.div_exact; lia).
  set (nh := H / ws) in *. set (nw := W / ws) in *.
  assert (Hnh : 0 < nh) by nia. assert (Hnw : 0 < nw) by nia.
  unfold window_reverse. cbn [shape shape_tensor].
  rewrite !floordiv_pos by assumption. fold nh nw. cbn [bind].
  cbn [reshape transpose shape_tensor].
  rewrite (reshape_infer B) by rs.
  cbn [bind fill to_opt map].
  replace (transpose_shape [0; 1; 3; 2; 4; 5] [B; nh; nw; ws; ws; C])
    with (Ok [B; nh; ws; nw; ws; C]) by reflexivity.
  cbn [bind].
  apply (reshape_infer B); rs.
Qed.
Lemma MixingAttention_forward_made_eq (dim Wh Ww k nh : nat) (B H W B_ N : nat)
    (mask : option (list nat)) :
  0 < nh -> 0 < dim / 16 -> 1 <= Wh -> 1 <= Ww ->
  dim mod 2 = 0 -> (dim / 2) mod nh = 0 -> k mod 2 = 1 ->
  0 < B -> 0 < H -> 0 < W -> H mod Wh = 0 -> W mod Ww = 0 ->
  B_ = B * (H / Wh) * (W / Ww) -> N = Wh * Ww ->
  valid_mask B_ N mask ->
  MixingAttention.forward (MixingAttention_made dim (Wh, Ww) k nh)
    [B_; N; dim] H W mask
  = Ok [B_; N; dim].
Proof.
  intros. subst B_ N. apply MixingAttention_forward_made; assumption.
Qed.

Lemma Mlp_made_forward (dim hidden a b : nat) :
  Mlp_made dim hidden [a; b; dim] = Ok [a; b; dim].
Proof.
  unfold Mlp_made. cbn [Sequential].
  rewrite Linear_forward_3. cbn [bind GELU Dropout].
  rewrite Linear_forward_3. reflexivity.
Qed.


Lemma MixingBlock_padding_ws (blk : MixingBlock.t) (H W : nat) :
  let ws := MixingBlock.window_size blk in
  0 < ws ->
  MixingBlock.padding blk H W
  = Ok [0; 0; 0; (ws - H mod ws) mod ws; 0; (ws - W mod ws) mod ws; 0; 0].
Proof.
  intros ws Hws. unfold MixingBlock.padding. fold ws.
  repeat (rewrite pymod_pos by assumption; cbn [bind]). reflexivity.
Qed.

(** The forward pass of a block whose attention module is any module [a]:
    up to the attention, and from the attention on. *)
Lemma MixingBlock_forward_any_attention (dim nh ws k mlp B H W : nat)
    (a : MixingAttention.t) (mask_matrix : option (list nat)) :
  0 < dim -> 1 <= ws -> 0 < B -> 0 < H -> 0 < W ->
  let pad_r := (ws - W mod ws) mod ws in
  let pad_b := (ws - H mod ws) mod ws in
  let windows :=
    [B * ((H + pad_b) / ws) * ((W + pad_r) / ws); ws * ws; dim] in
  let blk :=
    with_attention (MixingBlock_made dim nh ws k mlp (Some H) (Some W)) a in
  (forall e,
     MixingAttention.forward a windows (H + pad_b) (W + pad_r) None = Raise e ->
     MixingBlock.forward blk [B; H * W; dim] mask_matrix = Raise e) /\
  (MixingAttention.forward a windows (H + pad_b) (W + pad_r) None = Ok windows ->
   MixingBlock.forward blk [B; H * W; dim] mask_matrix = Ok [B; H * W; dim]).
Proof.
  intros Hdim Hws HB HH HW. cbv zeta.
  pose proof (pad_to_multiple H ws Hws) as HpH.
  pose proof (pad_to_multiple W ws Hws) as HpW.
  remember ((ws - H mod ws) mod ws) as pad_b eqn:Epb.
  remember ((ws - W mod ws) mod ws) as pad_r eqn:Epr.
  assert (Efwd :
    MixingBlock.forward
      (with_attention (MixingBlock_made dim nh ws k mlp (Some H) (Some W)) a)
      [B; H * W; dim] mask_matrix
    = (attn_windows <-
         MixingAttention.forward a
           [B * ((H + pad_b) / ws) * ((W + pad_r) / ws); ws * ws; dim]
           (H + pad_b) (W + pad_r) None ;;
       attn_windows <-
         reshape [Infer; Dim ws; Dim ws; Dim dim] attn_windows ;;
       shifted_x <-
         window_reverse attn_windows ws (H + pad_b) (W + pad_r) ;;
       x <- (if (0 <? pad_r) || (0 <? pad_b)
             then MixingBlock.crop shifted_x H W else Ok shifted_x) ;;
       x <- reshape [Dim B; Dim (H * W); Dim dim] x ;;
       y <- DropPath x ;;
       x <- broadcast [B; H * W; dim] y ;;
       y <- (n <- LayerNorm_forward dim x ;;
             m <- Mlp_made dim (dim * mlp) n ;;
             DropPath m) ;;
       broadcast x y)).
  { unfold MixingBlock.forward.
    cbn [MixingBlock.H MixingBlock.W MixingBlock_made MixingBlock.norm1
         MixingBlock.bottle_neck_cnn with_attention].
    rewrite Nat.eqb_refl. cbn [assert bind].
    rewrite LayerNorm_forward_3. cbn [bind reshape transpose shape_tensor].
    rewrite reshape_explicit by rs.
    cbn [bind fill to_opt map].
    replace (transpose_shape [0; 3; 1; 2] [B; H; W; dim])
      with (Ok [B; dim; H; W]) by reflexivity.
    cbn [bind].
    rewrite Bottleneck_forward_made by assumption. cbn [bind].
    replace (transpose_shape [0; 2; 3; 1] [B; dim; H; W])
      with (Ok [B; H; W; dim]) by reflexivity.
    cbn [bind].
    rewrite MixingBlock_padding_ws by exact Hws.
    cbv zeta. cbn [MixingBlock.window_size MixingBlock_made with_attention].
    rewrite <- Epb, <- Epr. cbn [bind].
    unfold pad. cbn [length Nat.mul Nat.add Nat.eqb pad_all bind].
    rewrite !Nat.add_0_r.
    remember (H + pad_b) as Hp eqn:EHp. remember (W + pad_r) as Wp eqn:EWp.
    assert (HHp : 0 < Hp) by lia. assert (HWp : 0 < Wp) by lia.
    unfold MixingBlock.cyclic_shift, MixingBlock.reverse_cyclic_shift.
    cbn [MixingBlock.shift_size MixingBlock.window_size MixingBlock.attn
         MixingBlock.drop_path MixingBlock.norm2 MixingBlock.mlp
         MixingBlock_made with_attention Z.gtb Z.compare bind].
    rewrite window_partition_shape by (assumption || lia). cbn [bind].
    remember (B * (Hp / ws) * (Wp / ws)) as B_ eqn:EB_.
    assert (HB_ : 0 < B_).
    { assert (Hp = ws * (Hp / ws)) by (apply Nat.Div0.div_exact; lia).
      assert (Wp = ws * (Wp / ws)) by (apply Nat.Div0.div_exact; lia). nia. }
    cbn [reshape shape_tensor].
    rewrite (reshape_infer B_) by rs.
    cbn [bind fill to_opt map].
    destruct (MixingAttention.forward a [B_; ws * ws; dim] Hp Wp None)
      as [aw|e]; [|reflexivity].
    cbn [bind].
    destruct (reshape_shape [Infer; Dim ws; Dim ws; Dim dim] aw) as [aw'|e];
      [|reflexivity].
    cbn [bind].
    destruct (window_reverse aw' ws Hp Wp) as [sx|e]; reflexivity. }
  rewrite Efwd. clear Efwd. split.
  - intros e Ha. rewrite Ha. reflexivity.
  - intros Ha. rewrite Ha. cbn [bind].
    remember (H + pad_b) as Hp eqn:EHp. remember (W + pad_r) as Wp eqn:EWp.
    assert (HHp : 0 < Hp) by lia. assert (HWp : 0 < Wp) by lia.
    remember (B * (Hp / ws) * (Wp / ws)) as B_ eqn:EB_.
    assert (HB_ : 0 < B_).
    { assert (Hp = ws * (Hp / ws)) by (apply Nat.Div0.div_exact; lia).
      assert (Wp = ws * (Wp / ws)) by (apply Nat.Div0.div_exact; lia). nia. }
    cbn [reshape shape_tensor].
    rewrite (reshape_infer B_) by rs.
    cbn [bind fill to_opt map].
    rewrite (window_reverse_shape B Hp Wp dim ws B_) by (assumption || lia).
    cbn [bind].
    assert (Hcrop :
      (if (0 <? pad_r) || (0 <? pad_b)
       then MixingBlock.crop [B; Hp; Wp; dim] H W
       else Ok [B; Hp; Wp; dim]) = Ok [B; H; W; dim]).
    { destruct (Nat.ltb_spec 0 pad_r) as [Hr|Hr];
        destruct (Nat.ltb_spec 0 pad_b) as [Hb|Hb]; cbn [orb MixingBlock.crop];
        first [ replace (Nat.min Hp H) with H by lia;
                replace (Nat.min Wp W) with W by lia; reflexivity
              | replace Hp with H by lia; replace Wp with W by lia;
                reflexivity ]. }
    rewrite Hcrop. clear Hcrop. cbn [bind].
    rewrite reshape_explicit by rs.
    cbn [bind fill to_opt map DropPath].
    rewrite broadcast_same. cbn [bind].
    rewrite LayerNorm_forward_3. cbn [bind].
    rewrite Mlp_made_forward. cbn [bind].
    apply broadcast_same.
Qed.

Lemma MixingBlock_forward_made (dim nh ws k mlp B H W : nat)
    (mask_matrix : option (list nat)) :
  0 < nh -> 0 < dim / 16 -> 1 <= ws ->
  dim mod 2 = 0 -> (dim / 2) mod nh = 0 -> k mod 2 = 1 ->
  0 < B -> 0 < H -> 0 < W ->
  MixingBlock.forward (MixingBlock_made dim nh ws k mlp (Some H) (Some W))
    [B; H * W; dim] mask_matrix
  = Ok [B; H * W; dim].
Proof.
  intros Hnh Hd16 Hws Hev Hheads Hk HB HH HW.
  assert (Hdim : 0 < dim).
  { clear - Hd16. pose proof (Nat.div_mod_eq dim 16). lia. }
  pose proof (pad_to_multiple H ws Hws) as HpH.
  pose proof (pad_to_multiple W ws Hws) as HpW.
  apply (MixingBlock_forward_any_attention dim nh ws k mlp B H W
           (MixingAttention_made dim (to_2tuple ws) k nh) mask_matrix
           Hdim Hws HB HH HW).
  unfold to_2tuple.
  apply (MixingAttention_forward_made_eq dim ws ws k nh B);
    first [assumption | lia | reflexivity | exact I].
Qed.



(** ** Successful constructions *)

Lemma Linear_make (i o : nat) :
  0 < i -> 0 < o -> Linear i o = Ok (Linear_forward i o).
Proof.
  intros Hi Ho. unfold Linear.
  destruct (Nat.ltb_spec 0 i); [|lia]. destruct (Nat.ltb_spec 0 o); [|lia].
  reflexivity.
Qed.

Lemma LayerNorm_make (n : nat) :
  0 < n -> LayerNorm n = Ok (LayerNorm_forward n).
Proof.
  intros Hn. unfold LayerNorm. destruct (Nat.ltb_spec 0 n); [|lia].
  reflexivity.
Qed.

Lemma BatchNorm_make (n : nat) :
  0 < n -> BatchNorm n = Ok (BatchNorm_forward n).
Proof.
  intros Hn. unfold BatchNorm. destruct (Nat.ltb_spec 0 n); [|lia].
  reflexivity.
Qed.

Lemma Conv2D_make (i o k s p g : nat) :
  0 < g -> 0 < s -> 0 < k -> i mod g = 0 -> o mod g = 0 -> 0 < i -> 0 < o ->
  Conv2D i o k s p g = Ok (Conv2D_forward i o k s p).
Proof.
  intros Hg Hs Hk Hig Hog Hi Ho. unfold Conv2D.
  destruct (Nat.ltb_spec 0 g); [|lia]. destruct (Nat.ltb_spec 0 s); [|lia].
  destruct (Nat.ltb_spec 0 k); [|lia]. cbn [andb check bind].
  rewrite Hig, Hog. cbn [Nat.eqb andb check bind].
  destruct (Nat.ltb_spec 0 i); [|lia]. destruct (Nat.ltb_spec 0 o); [|lia].
  reflexivity.
Qed.

Lemma Conv2D_make_dense (i o k s p : nat) :
  0 < s -> 0 < k -> 0 < i -> 0 < o ->
  Conv2D i o k s p 1 = Ok (Conv2D_forward i o k s p).
Proof.
  intros. apply Conv2D_make; try assumption; try lia; apply Nat.mod_1_r.
Qed.

Lemma Conv2D_make_depthwise (c k s p : nat) :
  0 < s -> 0 < k -> 0 < c ->
  Conv2D c c k s p c = Ok (Conv2D_forward c c k s p).
Proof.
  intros. apply Conv2D_make; try assumption; apply Nat.Div0.mod_same.
Qed.

Lemma div_pos_16 (dim : nat) :
  0 < dim / 16 -> 0 < dim /\ 0 < dim / 2 /\ 0 < dim / 8 /\ 0 < dim / 2 * 3.
Proof.
  intros H. pose proof (Nat.div_mod_eq dim 16).
  pose proof (Nat.div_mod_eq dim 2). pose proof (Nat.mod_upper_bound dim 2).
  pose proof (Nat.div_mod_eq dim 8). pose proof (Nat.mod_upper_bound dim 8).
  lia.
Qed.

Lemma MixingAttention_init_ok (dim Wh Ww k nh : nat) (qk_scale : bool) :
  0 < nh -> (qk_scale = true \/ 0 < dim / 2 / nh) ->
  1 <= Wh -> 1 <= Ww -> 0 < dim / 16 -> 0 < k ->
  MixingAttention.init dim (Wh, Ww) k nh qk_scale
  = Ok (MixingAttention_made dim (Wh, Ww) k nh).
Proof.
  intros Hnh Hscale HWh HWw Hd16 Hk.
  destruct (div_pos_16 dim Hd16) as (Hd & Hd2 & Hd8 & Hd3).
  unfold MixingAttention.init. cbn [fst snd].
  rewrite floordiv_pos by assumption. cbn [bind].
  assert (Es : (if qk_scale then Ok tt
                else if dim / 2 / nh =? 0 then Raise ZeroDivisionError
                     else Ok tt) = Ok tt).
  { destruct Hscale as [->|Hh]; [reflexivity|].
    destruct qk_scale; [reflexivity|].
    destruct (Nat.eqb_spec (dim / 2 / nh) 0); [lia | reflexivity]. }
  rewrite Es. cbn [bind]. unfold create_parameter.
  cbn [forallb].
  destruct (Z.ltb_spec 0 ((2 * Z.of_nat Wh - 1) * (2 * Z.of_nat Ww - 1)));
    [|nia].
  destruct (Z.ltb_spec 0 (Z.of_nat nh)); [|lia].
  cbn [andb assert bind map]. rewrite Nat2Z.id.
  fold (MixingAttention_made dim (Wh, Ww) k nh).
  rewrite !Linear_make, !LayerNorm_make, !BatchNorm_make by assumption.
  rewrite Conv2D_make_depthwise by (assumption || lia).
  rewrite !Conv2D_make_dense by (assumption || lia).
  reflexivity.
Qed.

Lemma Bottleneck_init_ok (dim : nat) :
  0 < dim / 2 ->
  Bottleneck.init dim dim = Ok (Bottleneck_made dim dim).
Proof.
  intros Hd2.
  assert (Hd : 0 < dim) by (pose proof (Nat.div_mod_eq dim 2); lia).
  unfold Bottleneck.init, Bottleneck.expansion.
  rewrite !Conv2D_make_depthwise by (assumption || lia).
  rewrite !BatchNorm_make by assumption.
  rewrite !Conv2D_make_dense by (assumption || lia).
  reflexivity.
Qed.

Lemma Mlp_make (i h : nat) : 0 < i -> 0 < h -> Mlp i h = Ok (Mlp_made i h).
Proof.
  intros Hi Hh. unfold Mlp. rewrite !Linear_make by assumption. reflexivity.
Qed.

Lemma MixingBlock_init_ok (dim nh ws k mlp : nat) (qk_scale : bool) :
  0 < nh -> (qk_scale = true \/ 0 < dim / 2 / nh) ->
  1 <= ws -> 0 < dim / 16 -> 0 < k -> 0 < mlp ->
  MixingBlock.init dim nh ws k 0 mlp qk_scale
  = Ok (MixingBlock_made dim nh ws k mlp None None).
Proof.
  intros Hnh Hscale Hws Hd16 Hk Hmlp.
  destruct (div_pos_16 dim Hd16) as (Hd & Hd2 & Hd8 & Hd3).
  unfold MixingBlock.init. cbn [Z.eqb assert bind]. unfold to_2tuple.
  rewrite !LayerNorm_make by assumption.
  rewrite MixingAttention_init_ok by assumption.
  rewrite Mlp_make by nia.
  rewrite Bottleneck_init_ok by assumption.
  reflexivity.
Qed.

Lemma relative_position_index_in_range_witness :
  exists m,
    MixingAttention.init 24 (7, 7) 3 3 false = Ok m /\
    length (MixingAttention.relative_position_index m) = 7 * 7 /\
    select_dim0 (MixingAttention.relative_position_bias_table m)
      = Ok ((2 * 7 - 1) * (2 * 7 - 1)) /\
    Forall (fun row =>
              length row = 7 * 7 /\
              Forall (fun v => (0 <= v
                                < Z.of_nat ((2 * 7 - 1) * (2 * 7 - 1)))%Z)
                     row)
           (MixingAttention.relative_position_index m).
Proof.
  assert (E : MixingAttention.init 24 (7, 7) 3 3 false
              = Ok (MixingAttention_made 24 (7, 7) 3 3)).
  { apply MixingAttention_init_ok; try lia.
    - right. apply Nat.ltb_lt. reflexivity.
    - apply Nat.ltb_lt. reflexivity. }
  eexists. split; [exact E|].
  apply (relative_position_index_in_range 24 7 7 3 3 false _);
    [lia | lia | exact E].
Defined.

Lemma MixingAttention_forward_preserves_shape_witness :
  exists m,
    MixingAttention.init 24 (7, 7) 3 3 false = Ok m /\
    MixingAttention.forward m [1 * (56 / 7) * (56 / 7); 7 * 7; 24] 56 56 None
    = Ok [1 * (56 / 7) * (56 / 7); 7 * 7; 24].
Proof.
  assert (E : MixingAttention.init 24 (7, 7) 3 3 false
              = Ok (MixingAttention_made 24 (7, 7) 3 3)).
  { apply MixingAttention_init_ok; try lia.
    - right. apply Nat.ltb_lt. reflexivity.
    - apply Nat.ltb_lt. reflexivity. }
  eexists. split; [exact E|].
  apply (MixingAttention_forward_preserves_shape 24 7 7 3 3 false _ 1 56 56
           None);
    [exact E | reflexivity | reflexivity | reflexivity
    | lia | lia | lia | reflexivity | reflexivity | exact I].
Defined.


(** C9. Constructing a [MixingBlock] with a non-zero [shift_size] raises the
    assertion "No shift in MixUnet" whatever the other arguments are; with
    [shift_size = 0] and arguments its sub-layers accept, construction
    succeeds; and in the forward pass of every constructed block the cyclic
    shift and its reverse leave the tensor as it is and the attention mask is
    [None], on value tensors as on shapes. *)
Theorem MixingBlock_shift_size_must_be_zero (dim nh ws k mlp : nat)
    (shift : Z) (qk_scale : bool) :
  (shift <> 0%Z ->
   MixingBlock.init dim nh ws k shift mlp qk_scale
   = Raise (AssertionError "No shift in MixUnet")) /\
  (shift = 0%Z ->
   0 < nh -> 0 < dim / 2 / nh -> 1 <= ws -> 0 < dim / 16 -> 0 < k ->
   0 < mlp ->
   exists blk, MixingBlock.init dim nh ws k shift mlp qk_scale = Ok blk) /\
  (forall blk,
     MixingBlock.init dim nh ws k shift mlp qk_scale = Ok blk ->
     MixingBlock.shift_size blk = 0%Z /\
     forall (T : Type) (tensor_ops : Tensor T) (x : T)
            (mask_matrix : option (list nat)),
       MixingBlock.cyclic_shift blk x mask_matrix = Ok (x, None) /\
       MixingBlock.reverse_cyclic_shift blk x = Ok x).
Proof.
  repeat split.
  - intros Hs. unfold MixingBlock.init.
    destruct (Z.eqb_spec shift 0) as [E|_]; [contradiction | reflexivity].
  - intros -> Hnh Hhd Hws Hd16 Hk Hmlp. eexists.
    apply MixingBlock_init_ok; auto.
  - apply MixingBlock_init_inv in H. destruct H as (_ & -> & _). reflexivity.
  - apply MixingBlock_init_inv in H. destruct H as (_ & -> & _). reflexivity.
  - apply MixingBlock_init_inv in H. destruct H as (_ & -> & _). reflexivity.
Qed.

(** ** ConvMerging *)

Lemma Ok_inj {A : Type} (a b : A) : Ok a = Ok b -> a = b.
Proof. intros H. injection H as H. exact H. Qed.

Ltac inv_binds :=
  repeat match goal with
         | H : bind _ _ = Ok _ |- _ =>
             let a := fresh "a" in
             let E := fresh "E" in
             apply bind_ok in H; destruct H as [a [E H]]
         | H : Ok _ = Ok ?y |- _ => apply Ok_inj in H; subst y
         end.

Ltac inv_layers :=
  repeat match goal with
         | E : Linear _ _ = Ok _ |- _ =>
             apply Linear_ok in E; destruct E as (-> & ? & ?)
         | E : LayerNorm _ = Ok _ |- _ =>
             apply LayerNorm_ok in E; destruct E as [-> ?]
         | E : BatchNorm _ = Ok _ |- _ =>
             apply BatchNorm_ok in E; destruct E as [-> ?]
         | E : Conv2D _ _ _ _ _ _ = Ok _ |- _ =>
             apply Conv2D_ok in E; destruct E as (-> & ? & ? & ? & ? & ?)
         end.

Lemma ConvMerging_init_inv (dim out_dim : nat) (m : ConvMerging.t) :
  ConvMerging.init dim out_dim = Ok m ->
  m = ConvMerging_made dim out_dim /\ 0 < dim /\ 0 < out_dim.
Proof.
  unfold ConvMerging.init, Focus.init, BaseConv.init. intros H.
  inv_binds. inv_layers. repeat split; assumption.
Qed.

Lemma stride2_len_even (start size : nat) :
  start <= 1 -> size mod 2 = 0 -> stride2_len start size = size / 2.
Proof.
  intros Hs He. unfold stride2_len.
  pose proof (Nat.div_mod_eq size 2) as E.
  destruct start as [|[|start]]; [| |lia].
  - rewrite Nat.sub_0_r.
    replace (size + 1) with (1 + (size / 2) * 2) by lia.
    rewrite Nat.div_add by lia. reflexivity.
  - replace (size + 1 - 1) with (0 + (size / 2) * 2) by lia.
    rewrite Nat.div_add by lia. reflexivity.
Qed.

Lemma slice_stride2_even (a b B C H W : nat) :
  a <= 1 -> b <= 1 -> H mod 2 = 0 -> W mod 2 = 0 ->
  slice_stride2 a b [B; C; H; W] = Ok [B; C; H / 2; W / 2].
Proof.
  intros Ha Hb HH HW. unfold slice_stride2. cbn [rev app].
  rewrite !stride2_len_even by assumption. reflexivity.
Qed.

Lemma concat_channels_4 (B C H W : nat) :
  concat [[B; C; H; W]; [B; C; H; W]; [B; C; H; W]; [B; C; H; W]] 1
  = Ok [B; C * 4; H; W].
Proof.
  unfold concat.
  replace (axis_of (length [B; C; H; W]) 1) with (Ok 1) by reflexivity.
  cbn [bind concat_at set_nth firstn skipn app nth length Nat.eqb andb].
  repeat (rewrite check_list_eq by reflexivity; cbn [bind]).
  do 2 f_equal. f_equal. lia.
Qed.

Lemma ConvMerging_forward_made (dim out_dim B H W : nat) :
  0 < B -> 0 < dim -> 0 < H -> 0 < W -> H mod 2 = 0 -> W mod 2 = 0 ->
  ConvMerging.forward (ConvMerging_made dim out_dim) [B; H * W; dim] H W
  = Ok [B; (H / 2) * (W / 2); out_dim].
Proof.
  intros HB Hdim HH HW Heh Hew.
  pose proof (Nat.div_mod_eq H 2) as EH. pose proof (Nat.div_mod_eq W 2) as EW.
  unfold ConvMerging.forward.
  rewrite Nat.eqb_refl, Heh, Hew. cbn [Nat.eqb andb assert bind].
  cbn [reshape transpose shape_tensor].
  rewrite reshape_explicit by rs.
  cbn [bind fill to_opt map].
  replace (transpose_shape [0; 3; 1; 2] [B; H; W; dim])
    with (Ok [B; dim; H; W]) by reflexivity.
  cbn [bind ConvMerging.norm ConvMerging.reduction ConvMerging_made].
  rewrite BatchNorm_forward_4. cbn [bind].
  unfold Focus.forward.
  rewrite !slice_stride2_even by (assumption || lia). cbn [bind].
  rewrite concat_channels_4. cbn [bind Focus.conv].
  unfold BaseConv.forward. cbn [BaseConv.conv BaseConv.act].
  rewrite Conv2D_forward_1x1 by lia. cbn [bind Silu].
  unfold flatten. cbn [length Nat.ltb Nat.leb check bind firstn skipn app
                       prod fold_right].
  rewrite Nat.mul_1_r.
  reflexivity.
Qed.

(** C8. For a constructed [ConvMerging] and an input of shape (B, H*W, dim)
    with H and W even, [forward] returns (B, (H/2)*(W/2), out_dim); a token
    count other than H*W fails the first assertion, and an odd H or W fails
    the second. *)
Theorem ConvMerging_forward_halves_resolution (dim out_dim : nat)
    (m : ConvMerging.t) (B : nat) :
  ConvMerging.init dim out_dim = Ok m ->
  0 < B ->
  (forall H W, 0 < H -> 0 < W -> H mod 2 = 0 -> W mod 2 = 0 ->
     ConvMerging.forward m [B; H * W; dim] H W
     = Ok [B; (H / 2) * (W / 2); out_dim]) /\
  (forall L C H W, L <> H * W ->
     ConvMerging.forward m [B; L; C] H W
     = Raise (AssertionError "input feature has wrong size")) /\
  (forall C H W, H mod 2 <> 0 \/ W mod 2 <> 0 ->
     ConvMerging.forward m [B; H * W; C] H W
     = Raise (AssertionError
                ("x size (" ++ str H ++ "*" ++ str W ++ ") are not even."))).
Proof.
  intros Hinit HB. apply ConvMerging_init_inv in Hinit.
  destruct Hinit as (-> & Hdim & Hout). repeat split.
  - intros H W HH HW Heh Hew. apply ConvMerging_forward_made; assumption.
  - intros L C H W HL. unfold ConvMerging.forward.
    destruct (Nat.eqb_spec L (H * W)) as [E|_]; [contradiction | reflexivity].
  - intros C H W Hodd. unfold ConvMerging.forward.
    rewrite Nat.eqb_refl. cbn [assert bind].
    destruct (Nat.eqb_spec (H mod 2) 0) as [Eh|Eh];
      destruct (Nat.eqb_spec (W mod 2) 0) as [Ew|Ew];
      cbn [andb assert bind]; try reflexivity.
    destruct Hodd; contradiction.
Qed.

Lemma ConvMerging_forward_halves_resolution_witness :
  exists m,
    ConvMerging.init 24 48 = Ok m /\
    ConvMerging.forward m [1; 56 * 56; 24] 56 56
    = Ok [1; (56 / 2) * (56 / 2); 48].
Proof.
  eexists. split; [reflexivity|].
  apply (ConvMerging_forward_halves_resolution 24 48 _ 1);
    [reflexivity | lia | lia | lia | reflexivity | reflexivity].
Defined.

(** ** The spatial form of the decoder outputs *)

Lemma reshape_explicit_inv (spec : list dimspec) (s r : list nat) :
  pos_spec spec ->
  count_infer (to_opt spec) = 0 ->
  reshape_shape spec s = Ok r ->
  known_size (to_opt spec) = prod s /\ r = fill 0 (to_opt spec).
Proof.
  intros Hp Hc. unfold reshape_shape.
  rewrite copy_dims_pos by exact Hp. cbn [bind]. rewrite Hc.
  destruct (Nat.eqb_spec (known_size (to_opt spec)) (prod s)) as [E|_];
    [|discriminate].
  intros H. apply Ok_inj in H. auto.
Qed.

Lemma MixUnet_init_activate (img_size : nat * nat)
    (patch_size in_chans : nat) (embed_dim : nat + list nat)
    (depths num_heads : list nat)
    (window_size dwconv_kernel_size mlp_ratio : nat) (qk_scale : bool)
    (out_indices : list Z) (ape patch_norm : bool) (self : MixUnet.t) :
  MixUnet.init img_size patch_size in_chans embed_dim depths num_heads
    window_size dwconv_kernel_size mlp_ratio qk_scale out_indices ape
    patch_norm = Ok self ->
  MixUnet.activate self = ReLU /\
  MixUnet.num_layers self = length depths /\
  MixUnet.out_indices self = out_indices.
Proof.
  unfold MixUnet.init. intros H. cbv zeta in H.
  inv_binds. auto.
Qed.

Lemma to_spatial_ok (self : MixUnet.t) (B L C : nat) (s : list nat) :
  MixUnet.activate self = ReLU ->
  0 < B -> 0 < C -> 0 < L ->
  MixUnet.to_spatial self [B; L; C] = Ok s ->
  s = [B; C; Nat.sqrt L; Nat.sqrt L] /\ L = Nat.sqrt L * Nat.sqrt L.
Proof.
  intros Hact HB HC HL. unfold MixUnet.to_spatial. rewrite Hact.
  cbn [ReLU bind reshape transpose shape_tensor].
  assert (Hr : 0 < Nat.sqrt L).
  { pose proof (Nat.sqrt_spec L ltac:(lia)) as [_ Hs].
    destruct (Nat.sqrt L); [simpl in Hs; lia | lia]. }
  set (r := Nat.sqrt L) in *.
  intros H. inv_binds.
  apply reshape_explicit_inv in E; [| pos_spec_tac | reflexivity].
  destruct E as [Ek ->]. cbn [to_opt map known_size prod fold_right fill] in *.
  apply Ok_inj in H. subst s. split; [reflexivity | nia].
Qed.

Lemma to_spatial_square (self : MixUnet.t) (B Hs C : nat) :
  MixUnet.activate self = ReLU ->
  0 < B -> 0 < C -> 0 < Hs ->
  MixUnet.to_spatial self [B; Hs * Hs; C] = Ok [B; C; Hs; Hs].
Proof.
  intros Hact HB HC HH. unfold MixUnet.to_spatial. rewrite Hact.
  cbn [ReLU bind reshape transpose shape_tensor].
  rewrite Nat.sqrt_square.
  rewrite reshape_explicit by rs. reflexivity.
Qed.

(** ** PatchExpand *)

Lemma reshape_value_data {A : Type} (spec : list dimspec) (x y : tensor A) :
  reshape spec x = Ok y -> data y = data x.
Proof.
  cbn [reshape value_tensor]. intros H. inv_binds. reflexivity.
Qed.

(** The three reshapes of [PatchExpand.forward] never move an element. *)
Lemma PatchExpand_rearrange_keeps_data {A : Type} (x y : tensor A)
    (B H W C : nat) :
  PatchExpand.rearrange x B H W C = Ok y -> data y = data x.
Proof.
  unfold PatchExpand.rearrange. intros E.
  apply bind_ok in E. destruct E as [x1 [E1 E]].
  apply bind_ok in E. destruct E as [x2 [E2 E]].
  apply reshape_value_data in E1, E2, E. congruence.
Qed.

(** On shapes [PatchExpand.forward] does double H and W and quarter the
    expanded width. *)
Lemma PatchExpand_forward_shape (H W dim B : nat) (p : PatchExpand.t) :
  PatchExpand.init (H, W) dim 2 = Ok p ->
  dim mod 2 = 0 -> 0 < B -> 0 < H -> 0 < W ->
  PatchExpand.forward p [B; H * W; dim] = Ok [B; 2 * H * (2 * W); 2 * dim / 4].
Proof.
  unfold PatchExpand.init. cbn [Nat.eqb]. intros Hinit Hev HB HH HW.
  inv_binds. inv_layers.
  match goal with E : floordiv _ _ = Ok _ |- _ =>
    apply floordiv_ok in E; destruct E as [_ ->] end.
  assert (Ed : dim = 2 * (dim / 2)) by (apply Nat.Div0.div_exact; lia).
  assert (E4 : 2 * dim / 4 = dim / 2).
  { replace (2 * dim) with ((dim / 2) * 4) by lia. apply Nat.div_mul. lia. }
  unfold PatchExpand.forward.
  cbn [PatchExpand.input_resolution PatchExpand.expand PatchExpand.norm].
  rewrite Linear_forward_3. cbn [bind]. rewrite Nat.eqb_refl.
  cbn [assert bind]. unfold PatchExpand.rearrange.
  cbn [reshape shape_tensor]. rewrite E4.
  rewrite reshape_explicit by rs. cbn [bind fill to_opt map].
  rewrite reshape_explicit by rs. cbn [bind fill to_opt map].
  rewrite (reshape_infer (2 * H * (2 * W))) by rs.
  cbn [bind fill to_opt map].
  apply LayerNorm_forward_3.
Qed.

(** C3 (the code departs from the claim).  On a (1, 1*2, 4) input, two
    tokens of four channels, the reshapes of [PatchExpand.forward] leave the
    elements in place: the four channels of a token fill four consecutive
    positions of one row of the 2 x 4 output grid.  The 2 x 2 block layout of
    the commented-out [rearrange] would give a different tensor. *)
Theorem PatchExpand_rearrange_is_not_pixel_shuffle :
  let x := mkTensor [1; 2; 4] [0; 1; 2; 3; 4; 5; 6; 7] in
  PatchExpand.rearrange x 1 1 2 4
    = Ok (mkTensor [1; 8; 1] [0; 1; 2; 3; 4; 5; 6; 7]) /\
  pixel_shuffle x 1 1 2 4 = mkTensor [1; 8; 1] [0; 1; 4; 5; 2; 3; 6; 7] /\
  PatchExpand.rearrange x 1 1 2 4 <> Ok (pixel_shuffle x 1 1 2 4).
Proof.
  cbv zeta. split; [reflexivity|]. split; [reflexivity|].
  intros E. vm_compute in E. discriminate E.
Qed.

(** ** The forward pass and [out_indices] *)

Lemma MixUnet_init_out_indices (img_size : nat * nat)
    (patch_size in_chans : nat) (embed_dim : nat + list nat)
    (depths num_heads : list nat)
    (window_size dwconv_kernel_size mlp_ratio : nat) (qk_scale : bool)
    (out_indices : list Z) (ape patch_norm : bool) :
  MixUnet.init img_size patch_size in_chans embed_dim depths num_heads
    window_size dwconv_kernel_size mlp_ratio qk_scale out_indices ape
    patch_norm
  = (self <- MixUnet.init img_size patch_size in_chans embed_dim depths
               num_heads window_size dwconv_kernel_size mlp_ratio qk_scale []
               ape patch_norm ;;
     Ok (with_out_indices self out_indices)).
Proof.
  unfold MixUnet.init. cbv zeta.
  repeat match goal with
         | |- context [bind ?m _] =>
             lazymatch m with
             | bind _ _ => fail
             | _ => destruct m; cbn [bind]; try reflexivity
             end
         end.
Qed.

Lemma bind_ext {A B : Type} (m1 m2 : result A) (k1 k2 : A -> result B) :
  m1 = m2 -> (forall a, k1 a = k2 a) -> bind m1 k1 = bind m2 k2.
Proof. intros -> Hk. destruct m2; [apply Hk | reflexivity]. Qed.

Lemma to_spatial_with_out_indices (self : MixUnet.t) (oi : list Z)
    (output : list nat) :
  MixUnet.to_spatial (with_out_indices self oi) output
  = MixUnet.to_spatial self output.
Proof. reflexivity. Qed.

Lemma decode_with_out_indices (self : MixUnet.t) (oi : list Z)
    (layers_up : list up_layer) :
  forall inx x x_downsample Wh Ww x_ilayer x_list,
    MixUnet.decode (with_out_indices self oi) layers_up inx x x_downsample
      Wh Ww x_ilayer x_list
    = MixUnet.decode self layers_up inx x x_downsample Wh Ww x_ilayer x_list.
Proof.
  induction layers_up as [|layer_up rest IH]; intros; [reflexivity|].
  cbn [MixUnet.decode].
  apply bind_ext; [reflexivity|].
  intros [x' xi']. apply IH.
Qed.

Lemma forward_with_out_indices (self : MixUnet.t) (oi : list Z)
    (image : list nat) :
  MixUnet.forward (with_out_indices self oi) image
  = MixUnet.forward self image.
Proof.
  unfold MixUnet.forward, MixUnet.forward_features,
    MixUnet.forward_up_features.
  cbn [MixUnet.patch_embed MixUnet.absolute_pos_embed MixUnet.ape
       MixUnet.pos_drop MixUnet.layers MixUnet.norm MixUnet.layers_up
       MixUnet.num_layers with_out_indices].
  apply bind_ext; [reflexivity|].
  intros [[[x sk] Wh] Ww].
  rewrite decode_with_out_indices. reflexivity.
Qed.

(** One run of the 224 configuration, from which the end-to-end facts
    follow. *)
Lemma MixUnet_224_run :
  exists self0,
    MixUnet_224 [] = Ok self0 /\
    MixUnet.num_layers self0 = 4 /\
    MixUnet.num_channel self0 = [24; 48; 96; 192] /\
    map up_dim (MixUnet.layers_up self0) = [192; 96; 48] /\
    MixUnet.forward_features self0 [1; 3; 224; 224]
      = Ok ([1; 49; 192],
            [[1; 3136; 24]; [1; 784; 48]; [1; 196; 96]; [1; 49; 192]],
            7, 7) /\
    MixUnet.forward_up_features self0 [1; 49; 192]
      [[1; 3136; 24]; [1; 784; 48]; [1; 196; 96]; [1; 49; 192]] 7 7
      = Ok ([1; 48; 28; 28],
            [[1; 192; 7; 7]; [1; 96; 14; 14]; [1; 48; 28; 28]]).
Proof.
  assert (F :
    (s <- MixUnet_224 [] ;;
     ff <- MixUnet.forward_features s [1; 3; 224; 224] ;;
     up <- (let '(x, x_downsample, Wh, Ww) := ff in
            MixUnet.forward_up_features s x x_downsample Wh Ww) ;;
     Ok (MixUnet.num_layers s, MixUnet.num_channel s,
         map up_dim (MixUnet.layers_up s), ff, up))
    = Ok (4, [24; 48; 96; 192], [192; 96; 48],
          ([1; 49; 192],
           [[1; 3136; 24]; [1; 784; 48]; [1; 196; 96]; [1; 49; 192]], 7, 7),
          ([1; 48; 28; 28],
           [[1; 192; 7; 7]; [1; 96; 14; 14]; [1; 48; 28; 28]])))
    by (vm_compute; reflexivity).
  destruct (MixUnet_224 []) as [s|e]; [|discriminate F].
  exists s. cbn [bind] in F.
  apply bind_ok in F. destruct F as [ff [Eff F]].
  apply bind_ok in F. destruct F as [up [Eup F]].
  apply Ok_inj in F. injection F as E1 E2 E3 E4 E5. subst ff up.
  auto 10.
Qed.

Lemma MixUnet_224_with_out_indices (out_indices : list Z)
    (self self0 : MixUnet.t) :
  MixUnet_224 [] = Ok self0 ->
  (MixUnet_224 out_indices = Ok self
   <-> self = with_out_indices self0 out_indices).
Proof.
  intros E0. unfold MixUnet_224 in *. rewrite MixUnet_init_out_indices, E0.
  cbn [bind]. split; [intros H; apply Ok_inj in H; auto | intros ->; auto].
Qed.

Lemma MixUnet_224_forward_run (self0 : MixUnet.t) :
  MixUnet.num_layers self0 = 4 ->
  MixUnet.forward_features self0 [1; 3; 224; 224]
    = Ok ([1; 49; 192],
          [[1; 3136; 24]; [1; 784; 48]; [1; 196; 96]; [1; 49; 192]],
          7, 7) ->
  MixUnet.forward_up_features self0 [1; 49; 192]
    [[1; 3136; 24]; [1; 784; 48]; [1; 196; 96]; [1; 49; 192]] 7 7
    = Ok ([1; 48; 28; 28],
          [[1; 192; 7; 7]; [1; 96; 14; 14]; [1; 48; 28; 28]]) ->
  MixUnet.forward self0 [1; 3; 224; 224]
  = Ok [[1; 48; 28; 28]; [1; 96; 14; 14]; [1; 192; 7; 7]].
Proof.
  intros Hn Hff Hup. unfold MixUnet.forward.
  rewrite Hff. cbn [bind]. rewrite Hup. cbn [bind]. rewrite Hn. reflexivity.
Qed.

(** Whatever [out_indices] is, the 224 configuration returns the maps of
    the stages 1, 2 and 3. *)
Lemma MixUnet_224_forward (out_indices : list Z) (self : MixUnet.t) :
  MixUnet_224 out_indices = Ok self ->
  MixUnet.forward self [1; 3; 224; 224]
  = Ok [[1; 48; 28; 28]; [1; 96; 14; 14]; [1; 192; 7; 7]].
Proof.
  intros H. destruct MixUnet_224_run as (s0 & E0 & Hn & _ & _ & Hff & Hup).
  apply (MixUnet_224_with_out_indices out_indices self s0 E0) in H.
  subst self. rewrite forward_with_out_indices.
  apply MixUnet_224_forward_run; assumption.
Qed.

(** C2, as stated, fails: asked for the four indices 0, 1, 2, 3 the forward
    pass still returns three maps. *)
Lemma forward_ignores_out_indices :
  (self <- MixUnet_224 [0; 1; 2; 3]%Z ;;
   outs <- MixUnet.forward self [1; 3; 224; 224] ;;
   Ok (length outs, length (MixUnet.out_indices self)))
  = Ok (3, 4).
Proof.
  destruct MixUnet_224_run as (s0 & E0 & Hn & _ & _ & Hff & Hup).
  assert (E : MixUnet_224 [0; 1; 2; 3]%Z
              = Ok (with_out_indices s0 [0; 1; 2; 3]%Z))
    by (apply (MixUnet_224_with_out_indices _ _ s0 E0); reflexivity).
  rewrite E. cbn [bind]. rewrite forward_with_out_indices.
  rewrite (MixUnet_224_forward_run s0 Hn Hff Hup). reflexivity.
Qed.

(** C2 (amended). For the 4-stage configuration built for 224 x 224 images,
    the forward pass on a (1, 3, 224, 224) input returns exactly three maps,
    (1, 48, 28, 28), (1, 96, 14, 14) and (1, 192, 7, 7), whatever
    [out_indices] is; for [out_indices = (1, 2, 3)] these are the channel
    counts that [out_shape] reports, at strides 8, 16 and 32. *)
Theorem MixUnet_forward_returns_three_maps (out_indices : list Z)
    (self : MixUnet.t) :
  MixUnet_224 out_indices = Ok self ->
  MixUnet.forward self [1; 3; 224; 224]
    = Ok [[1; 48; 28; 28]; [1; 96; 14; 14]; [1; 192; 7; 7]] /\
  (out_indices = [1; 2; 3]%Z ->
   MixUnet.out_shape self
   = Ok [mkShapeSpec 48 8; mkShapeSpec 96 16; mkShapeSpec 192 32]).
Proof.
  intros Hinit. split.
  - apply (MixUnet_224_forward out_indices). exact Hinit.
  - intros ->.
    destruct MixUnet_224_run as (s0 & E0 & _ & Hc & _).
    apply (MixUnet_224_with_out_indices _ _ s0 E0) in Hinit. subst self.
    unfold MixUnet.out_shape.
    cbn [MixUnet.num_channel MixUnet.out_indices with_out_indices].
    rewrite Hc. reflexivity.
Qed.

Lemma MixUnet_forward_returns_three_maps_witness :
  exists self,
    MixUnet_224 [1; 2; 3]%Z = Ok self /\
    MixUnet.forward self [1; 3; 224; 224]
    = Ok [[1; 48; 28; 28]; [1; 96; 14; 14]; [1; 192; 7; 7]].
Proof.
  destruct MixUnet_224_run as (s0 & E0 & _).
  assert (E : MixUnet_224 [1; 2; 3]%Z = Ok (with_out_indices s0 [1; 2; 3]%Z))
    by (apply (MixUnet_224_with_out_indices _ _ s0 E0); reflexivity).
  exists (with_out_indices s0 [1; 2; 3]%Z). split; [exact E|].
  apply (MixUnet_forward_returns_three_maps [1; 2; 3]%Z _ E).
Defined.

Lemma mapM_length {A B : Type} (f : A -> result B) (l : list A)
    (r : list B) :
  mapM f l = Ok r -> length r = length l.
Proof.
  revert r. induction l as [|a l IH]; intros r H; cbn [mapM] in H.
  - apply Ok_inj in H. subst r. reflexivity.
  - apply bind_ok in H. destruct H as [b [_ H]].
    apply bind_ok in H. destruct H as [bs [Ebs H]].
    apply Ok_inj in H. subst r. cbn [length]. rewrite (IH bs Ebs).
    reflexivity.
Qed.





(** * Further properties of the module *)

(** ** Windowing *)

(** X1. For a stack of windows of shape (B*(H/w0)*(W/w1), w0*w1, C) with H
    divisible by w0 and W by w1, [window_partition2] applied to
    [window_reverse2 windows window_size H W C] returns the windows
    themselves: the two functions are inverse in both directions. *)
Theorem window_partition2_window_reverse2 {A : Type} (w : tensor A)
    (B C H W w0 w1 : nat) :
  dims w = [B * (H / w0) * (W / w1); w0 * w1; C] -> wf w ->
  0 < C -> 0 < H -> 0 < W ->
  H mod w0 = 0 -> W mod w1 = 0 ->
  (x <- window_reverse2 w (w0, w1) H W C ;;
   window_partition2 x (w0, w1)) = Ok w.
Proof.
  intros Hd Hwf HC HH HW Hh Hw.
  assert (Hw0 : 0 < w0) by (destruct w0; [simpl in Hh; lia | lia]).
  assert (Hw1 : 0 < w1) by (destruct w1; [simpl in Hw; lia | lia]).
  assert (EH : H = w0 * (H / w0)) by (apply Nat.Div0.div_exact; lia).
  assert (EW : W = w1 * (W / w1)) by (apply Nat.Div0.div_exact; lia).
  set (nh := H / w0) in *. set (nw := W / w1) in *.
  assert (Hnh : 0 < nh) by nia. assert (Hnw : 0 < nw) by nia.
  destruct w as [s l]. cbn [dims] in Hd. subst s.
  unfold wf in Hwf. cbn [dims data] in Hwf.
  unfold window_partition2, window_reverse2.
  cbn [shape value_tensor dims fst snd].
  rewrite !floordiv_pos by assumption. fold nh nw. cbn [bind].
  cbn [reshape value_tensor dims data].
  rewrite (reshape_infer B); cycle 1.
  { repeat constructor; nia. } { reflexivity. }
  { cbn [to_opt map known_size prod fold_right]. nia. }
  cbn [bind fill to_opt map].
  cbn [transpose value_tensor dims data].
  set (s2 := [B; nh; nw; w0; w1; C]).
  set (p1 := [0; 2; 4; 3; 5; 1]). set (p2 := [0; 5; 1; 3; 2; 4]).
  replace (transpose_shape p2 s2) with (Ok (permute p2 s2)) by reflexivity.
  cbn [bind dims data].
  assert (Es1 : permute p2 s2 = [B; C; nh; w0; nw; w1]) by reflexivity.
  assert (El : length l = prod s2).
  { rewrite Hwf. subst s2. cbn [prod fold_right]. nia. }
  assert (El1 : prod (permute p2 s2) = length l).
  { rewrite El, Es1. subst s2. cbn [prod fold_right]. nia. }
  rewrite El1.
  rewrite (reshape_infer B); cycle 1.
  { repeat constructor; nia. } { reflexivity. }
  { rewrite Es1. cbn [to_opt map known_size prod fold_right]. nia. }
  cbn [bind fill to_opt map dims data shape value_tensor].
  rewrite !floordiv_pos by assumption. fold nh nw. cbn [bind].
  cbn [reshape value_tensor dims data].
  rewrite (reshape_explicit_head B); cycle 1.
  { reflexivity. } { repeat constructor; lia. } { reflexivity. }
  { cbn [to_opt map known_size prod fold_right]. nia. }
  cbn [bind fill to_opt map dims data].
  rewrite <- Es1.
  replace (transpose_shape p1 (permute p2 s2))
    with (Ok (permute p1 (permute p2 s2))) by reflexivity.
  cbn [bind dims data].
  assert (Es3 : permute p1 (permute p2 s2) = s2) by reflexivity.
  rewrite Es3, <- El.
  rewrite (reshape_infer (B * nh * nw)); cycle 1.
  { repeat constructor; nia. } { reflexivity. }
  { subst s2. cbn [to_opt map known_size prod fold_right]. nia. }
  cbn [bind fill to_opt map dims data].
  do 2 f_equal.
  assert (Hrt : forall j, j < length l ->
            transpose_index p2 s2 (transpose_index p1 (permute p2 s2) j) = j
            /\ transpose_index p1 (permute p2 s2) j < prod (permute p2 s2)).
  { intros j Hj. apply transpose_index_roundtrip.
    - reflexivity.
    - intros idx Hlen.
      do 7 (destruct idx as [|? idx]; try discriminate Hlen). reflexivity.
    - intros idx Hb. apply Forall2_lt_rank6 in Hb.
      destruct Hb as (i0 & i1 & i2 & i3 & i4 & i5 & -> & Hb).
      cbn. repeat constructor; apply Hb.
    - exact Es3.
    - rewrite <- El. exact Hj. }
  apply gather_gather.
  - intros j Hj. rewrite <- El1. apply Hrt. exact Hj.
  - intros j Hj. rewrite El. unfold transpose_index. apply ravel_bound.
    rewrite <- El1 in Hj. pose proof (unravel_bounds _ _ Hj) as Hu.
    rewrite Es1 in Hu. apply Forall2_lt_rank6 in Hu.
    destruct Hu as (i0 & i1 & i2 & i3 & i4 & i5 & Eu & Hu).
    rewrite Es1, Eu. cbn. repeat constructor; apply Hu.
  - intros j Hj. apply Hrt. exact Hj.
Qed.

Lemma window_partition2_window_reverse2_witness :
  (x <- window_reverse2
          (mkTensor [4; 2; 2] [0; 1; 2; 3; 4; 5; 6; 7;
                               8; 9; 10; 11; 12; 13; 14; 15]) (1, 2) 2 4 2 ;;
   window_partition2 x (1, 2))
  = Ok (mkTensor [4; 2; 2] [0; 1; 2; 3; 4; 5; 6; 7;
                            8; 9; 10; 11; 12; 13; 14; 15]).
Proof.
  apply (window_partition2_window_reverse2 _ 1 2 2 4 1 2);
    [reflexivity | reflexivity | lia | lia | lia | reflexivity | reflexivity].
Defined.

Lemma window_partition2_value {A : Type} (l : list A) (B C H W w0 w1 : nat) :
  length l = prod [B; C; H; W] ->
  0 < C -> 0 < H -> 0 < W ->
  H mod w0 = 0 -> W mod w1 = 0 ->
  window_partition2 (mkTensor [B; C; H; W] l) (w0, w1)
  = Ok (mkTensor [B * (H / w0) * (W / w1); w0 * w1; C]
          (gather (map (transpose_index [0; 2; 4; 3; 5; 1]
                          [B; C; H / w0; w0; W / w1; w1])
                       (seq 0 (length l))) l)).
Proof.
  intros Hwf HC HH HW Hh Hw.
  assert (Hw0 : 0 < w0) by (destruct w0; [simpl in Hh; lia | lia]).
  assert (Hw1 : 0 < w1) by (destruct w1; [simpl in Hw; lia | lia]).
  assert (EH : H = w0 * (H / w0)) by (apply Nat.Div0.div_exact; lia).
  assert (EW : W = w1 * (W / w1)) by (apply Nat.Div0.div_exact; lia).
  set (nh := H / w0) in *. set (nw := W / w1) in *.
  assert (Hnh : 0 < nh) by nia. assert (Hnw : 0 < nw) by nia.
  unfold window_partition2.
  cbn [shape value_tensor dims fst snd].
  rewrite !floordiv_pos by assumption. fold nh nw. cbn [bind].
  cbn [reshape value_tensor dims data].
  rewrite (reshape_explicit_head B); cycle 1.
  { reflexivity. } { repeat constructor; lia. } { reflexivity. }
  { cbn [to_opt map known_size prod fold_right]. nia. }
  cbn [bind fill to_opt map].
  cbn [transpose value_tensor dims data].
  change (transpose_shape [0; 2; 4; 3; 5; 1] [B; C; nh; w0; nw; w1])
    with (Ok (permute [0; 2; 4; 3; 5; 1] [B; C; nh; w0; nw; w1])).
  cbn [bind dims data].
  set (s1 := [B; C; nh; w0; nw; w1]).
  set (p1 := [0; 2; 4; 3; 5; 1]).
  assert (Es2 : permute p1 s1 = [B; nh; nw; w0; w1; C]) by reflexivity.
  assert (El2 : prod (permute p1 s1) = length l).
  { rewrite Hwf, Es2. cbn [prod fold_right]. nia. }
  rewrite El2.
  rewrite (reshape_infer (B * nh * nw)); cycle 1.
  { repeat constructor; nia. } { reflexivity. }
  { rewrite Es2. cbn [to_opt map known_size prod fold_right]. nia. }
  reflexivity.
Qed.

(** X2. [window_partition2] puts the element at position (b, c, h, w) of a
    (B, C, H, W) map into window number (b * H/w0 + h/w0) * W/w1 + w/w1, at
    token (h mod w0) * w1 + w mod w1 and channel c: windows are numbered
    row by row within an image, tokens row by row within a window. *)
Theorem window_partition2_layout {A : Type} (d : A) (x y : tensor A)
    (B C H W w0 w1 : nat) :
  dims x = [B; C; H; W] -> wf x ->
  H mod w0 = 0 -> W mod w1 = 0 ->
  window_partition2 x (w0, w1) = Ok y ->
  forall b c h w, b < B -> c < C -> h < H -> w < W ->
    nth (ravel (dims y)
           [(b * (H / w0) + h / w0) * (W / w1) + w / w1;
            (h mod w0) * w1 + w mod w1; c]) (data y) d
    = nth (ravel [B; C; H; W] [b; c; h; w]) (data x) d.
Proof.
  intros Hd Hwf Hh Hw Hy b c h w Hb Hc Hhh Hww.
  destruct x as [s l]. cbn [dims] in Hd. subst s.
  unfold wf in Hwf. cbn [dims data] in Hwf.
  rewrite window_partition2_value in Hy by (assumption || lia).
  apply Ok_inj in Hy. subst y. cbn [dims data].
  assert (Hw0 : 0 < w0) by (destruct w0; [simpl in Hh; lia | lia]).
  assert (Hw1 : 0 < w1) by (destruct w1; [simpl in Hw; lia | lia]).
  assert (EH : H = w0 * (H / w0)) by (apply Nat.Div0.div_exact; lia).
  assert (EW : W = w1 * (W / w1)) by (apply Nat.Div0.div_exact; lia).
  set (nh := H / w0) in *. set (nw := W / w1) in *.
  pose proof (Nat.div_mod_eq h w0) as Eh.
  pose proof (Nat.div_mod_eq w w1) as Ew.
  pose proof (Nat.mod_upper_bound h w0 ltac:(lia)) as Hhr.
  pose proof (Nat.mod_upper_bound w w1 ltac:(lia)) as Hwr.
  set (hq := h / w0) in *. set (hr := h mod w0) in *.
  set (wq := w / w1) in *. set (wr := w mod w1) in *.
  assert (Hhq : hq < nh) by nia. assert (Hwq : wq < nw) by nia.
  set (s1 := [B; C; nh; w0; nw; w1]).
  set (p1 := [0; 2; 4; 3; 5; 1]).
  assert (Ej : ravel [B * nh * nw; w0 * w1; C]
                 [(b * nh + hq) * nw + wq; hr * w1 + wr; c]
               = ravel (permute p1 s1) [b; hq; wq; hr; wr; c]).
  { cbn [permute map nth s1 p1 ravel prod fold_right]. ring. }
  assert (Hidx : Forall2 lt [b; hq; wq; hr; wr; c] (permute p1 s1)).
  { cbn. repeat constructor; assumption. }
  pose proof (ravel_bound _ _ Hidx) as Hjb.
  assert (El2 : prod (permute p1 s1) = length l).
  { rewrite Hwf. cbn [permute map nth s1 p1 prod fold_right]. nia. }
  rewrite Ej.
  set (j := ravel (permute p1 s1) [b; hq; wq; hr; wr; c]) in *.
  assert (Et : transpose_index p1 s1 j = ravel [B; C; H; W] [b; c; h; w]).
  { unfold transpose_index, j. rewrite unravel_ravel by exact Hidx.
    cbn [permute inverse map nth s1 p1 ravel prod fold_right length seq
         index_of Nat.eqb].
    rewrite Eh, Ew, EH, EW. ring. }
  assert (Hin : ravel [B; C; H; W] [b; c; h; w] < length l).
  { rewrite Hwf. apply ravel_bound. repeat constructor; assumption. }
  rewrite (gather_eq d).
  - rewrite map_map, (nth_map_seq _ d) by lia. rewrite Et. reflexivity.
  - apply Forall_forall. intros i Hi. apply in_map_iff in Hi.
    destruct Hi as [k [<- Hk]]. apply in_seq in Hk.
    unfold transpose_index. rewrite Hwf.
    replace (prod [B; C; H; W]) with (prod s1)
      by (cbn [s1 prod fold_right]; nia).
    apply ravel_bound.
    assert (Hk' : k < prod (permute p1 s1)) by lia.
    pose proof (unravel_bounds _ _ Hk') as Hu.
    change (permute p1 s1) with [B; nh; nw; w0; w1; C] in Hu |- *.
    apply Forall2_lt_rank6 in Hu.
    destruct Hu as (i0 & i1 & i2 & i3 & i4 & i5 & Eu & Hu).
    rewrite Eu. cbn. repeat constructor; apply Hu.
Qed.

Lemma window_partition2_layout_witness :
  nth (ravel [4; 2; 2]
         [(0 * (2 / 1) + 1 / 1) * (4 / 2) + 3 / 2;
          (1 mod 1) * 2 + 3 mod 2; 1])
      [0; 8; 1; 9; 2; 10; 3; 11; 4; 12; 5; 13; 6; 14; 7; 15] 0
  = nth (ravel [1; 2; 2; 4] [0; 1; 1; 3])
        [0; 1; 2; 3; 4; 5; 6; 7; 8; 9; 10; 11; 12; 13; 14; 15] 0.
Proof.
  apply (window_partition2_layout 0
           (mkTensor [1; 2; 2; 4] [0; 1; 2; 3; 4; 5; 6; 7;
                                   8; 9; 10; 11; 12; 13; 14; 15])
           (mkTensor [4; 2; 2] [0; 8; 1; 9; 2; 10; 3; 11;
                                4; 12; 5; 13; 6; 14; 7; 15])
           1 2 2 4 1 2);
    [reflexivity | reflexivity | reflexivity | reflexivity | reflexivity
    | lia | lia | lia | lia].
Defined.

(** ** What a returning forward pass implies *)

Lemma Linear_forward_inv (i o : nat) (x y : list nat) :
  Linear_forward i o x = Ok y ->
  exists pre, x = pre ++ [i] /\ y = pre ++ [o].
Proof.
  unfold Linear_forward. intros H.
  destruct (rev x) as [|c pre] eqn:E; [discriminate|].
  inv_bind H. apply check_ok in E0. bools. subst c.
  apply Ok_inj in H. subst y.
  exists (rev pre). split; [|reflexivity].
  rewrite <- (rev_involutive x), E. reflexivity.
Qed.

Lemma LayerNorm_forward_inv (n : nat) (x y : list nat) :
  LayerNorm_forward n x = Ok y ->
  y = x /\ exists pre, x = pre ++ [n].
Proof.
  unfold LayerNorm_forward. intros H.
  destruct (rev x) as [|c pre] eqn:E; [discriminate|].
  inv_bind H. apply check_ok in E0. bools. subst c.
  apply Ok_inj in H. subst y. split; [reflexivity|].
  exists (rev pre). rewrite <- (rev_involutive x), E. reflexivity.
Qed.

Lemma app_last_3 (pre : list nat) (a b c d : nat) :
  pre ++ [d] = [a; b; c] -> pre = [a; b] /\ d = c.
Proof.
  intros H. change [a; b; c] with ([a; b] ++ [c]) in H.
  apply app_inj_tail in H. exact H.
Qed.

Lemma concat_last_3_inv (a b c : nat) (x r : list nat) :
  concat [[a; b; c]; x] (-1) = Ok r ->
  exists c', r = [a; b; c + c'].
Proof.
  unfold concat. cbn [length axis_of].
  replace (axis_of 3 (-1)) with (@Ok nat 2) by reflexivity.
  cbn [bind concat_at]. intros H. inv_bind H.
  apply Ok_inj in H. subst r. exists (nth 2 x 0). reflexivity.
Qed.

(** X3. Whenever [MixingAttention.forward] of a constructed layer returns, on
    an input without an empty dimension, whatever H, W and the mask are, the
    tensor it returns has exactly the shape of its input. *)
Theorem MixingAttention_forward_returns_input_shape (dim : nat)
    (window_size : nat * nat) (dwconv_kernel_size num_heads : nat)
    (qk_scale : bool) (m : MixingAttention.t) (x y : list nat) (H W : nat)
    (mask : option (list nat)) :
  MixingAttention.init dim window_size dwconv_kernel_size num_heads qk_scale
    = Ok m ->
  Forall (fun d => 0 < d) x ->
  MixingAttention.forward m x H W mask = Ok y ->
  y = x.
Proof.
  intros Hm Hx Hf.
  apply MixingAttention_init_inv in Hm.
  destruct Hm as (-> & Hnh & Hd16 & Hk & _).
  unfold MixingAttention.forward in Hf.
  cbn [MixingAttention_made MixingAttention.proj_attn
       MixingAttention.proj_attn_norm MixingAttention.attn_norm
       MixingAttention.proj MixingAttention.proj_drop] in Hf.
  inv_bind Hf. inv_bind E.
  apply Linear_forward_inv in E0. destruct E0 as (pre & Ex & ->).
  apply LayerNorm_forward_inv in E. destruct E as [-> _].
  do 6 inv_bind Hf.
  destruct (pre ++ [dim / 2]) as [|B_ [|N [|C [|? ?]]]] eqn:Ea;
    try discriminate Hf.
  apply app_last_3 in Ea. destruct Ea as [-> EC].
  cbn [app] in Ex. subst x.
  inversion Hx as [|? ? HB Hx1]; subst.
  inversion Hx1 as [|? ? HN _]; subst. clear Hx Hx1.
  assert (HC : 0 < dim / 2).
  { pose proof (Nat.div_mod_eq dim 16). pose proof (Nat.div_mod_eq dim 2).
    pose proof (Nat.mod_upper_bound dim 2). lia. }
  inv_binds.
  match goal with
  | Er : reshape [Dim B_; Dim N; Dim (dim / 2)] _ = Ok _ |- _ =>
      apply reshape_explicit_inv in Er;
        [destruct Er as [_ ->] | repeat constructor; assumption | reflexivity]
  end.
  cbn [fill to_opt map] in *.
  match goal with
  | En : LayerNorm_forward _ _ = Ok _ |- _ =>
      apply LayerNorm_forward_inv in En; destruct En as [-> _]
  end.
  match goal with
  | Ec : concat _ _ = Ok _ |- _ =>
      apply concat_last_3_inv in Ec; destruct Ec as [c' ->]
  end.
  match goal with
  | Ep : Linear_forward dim dim _ = Ok _ |- _ =>
      apply Linear_forward_inv in Ep; destruct Ep as (pre & Epre & ->)
  end.
  symmetry in Epre. apply app_last_3 in Epre. destruct Epre as [-> _].
  unfold Dropout in Hf. apply Ok_inj in Hf. subst y. reflexivity.
Qed.

Lemma MixingAttention_forward_returns_input_shape_witness :
  exists m y,
    MixingAttention.init 24 (7, 7) 3 3 false = Ok m /\
    MixingAttention.forward m [64; 49; 24] 56 56 None = Ok y /\
    y = [64; 49; 24].
Proof.
  assert (E : MixingAttention.init 24 (7, 7) 3 3 false
              = Ok (MixingAttention_made 24 (7, 7) 3 3)).
  { apply MixingAttention_init_ok; try lia.
    - right. apply Nat.ltb_lt. reflexivity.
    - apply Nat.ltb_lt. reflexivity. }
  assert (F : MixingAttention.forward (MixingAttention_made 24 (7, 7) 3 3)
                [64; 49; 24] 56 56 None = Ok [64; 49; 24]).
  { apply (MixingAttention_forward_made 24 7 7 3 3 1 56 56 None);
      first [lia | reflexivity | exact I | apply Nat.ltb_lt; reflexivity]. }
  exists (MixingAttention_made 24 (7, 7) 3 3), [64; 49; 24].
  split; [exact E|]. split; [exact F|].
  apply (MixingAttention_forward_returns_input_shape 24 (7, 7) 3 3 false
           _ _ _ 56 56 None E);
    [repeat constructor; lia | exact F].
Defined.

Lemma Mlp_made_forward_inv (i h : nat) (x y : list nat) :
  Mlp_made i h x = Ok y -> y = x.
Proof.
  unfold Mlp_made. cbn [Sequential]. unfold GELU, Dropout. cbn [bind].
  intros Hf. inv_binds.
  match goal with
  | E1 : Linear_forward i h _ = Ok _ |- _ =>
      apply Linear_forward_inv in E1; destruct E1 as (pre & -> & ->)
  end.
  match goal with
  | E2 : Linear_forward h i _ = Ok _ |- _ =>
      apply Linear_forward_inv in E2; destruct E2 as (pre' & Epre & ->)
  end.
  apply app_inj_tail in Epre. destruct Epre as [-> _].
  reflexivity.
Qed.

Lemma MixingBlock_forward_inv (dim num_heads window_size
    dwconv_kernel_size : nat) (shift_size : Z) (mlp_ratio : nat)
    (qk_scale : bool) (blk0 : MixingBlock.t) (H W : nat) (x y : list nat)
    (mask_matrix : option (list nat)) :
  MixingBlock.init dim num_heads window_size dwconv_kernel_size shift_size
    mlp_ratio qk_scale = Ok blk0 ->
  Forall (fun d => 0 < d) x ->
  MixingBlock.forward (MixingBlock.set_HW blk0 H W) x mask_matrix = Ok y ->
  y = x /\ exists B, x = [B; H * W; dim].
Proof.
  intros Hb Hx Hf.
  apply MixingBlock_init_inv in Hb.
  destruct Hb as (-> & -> & Hnh & Hd16 & Hk & Hmlp).
  unfold MixingBlock.forward in Hf.
  destruct x as [|B [|L [|C [|? ?]]]]; try discriminate Hf.
  cbn [MixingBlock.set_HW MixingBlock_made MixingBlock.H MixingBlock.W
       MixingBlock.norm1 MixingBlock.norm2 MixingBlock.mlp
       MixingBlock.drop_path MixingBlock.window_size MixingBlock.attn
       MixingBlock.bottle_neck_cnn MixingBlock.cyclic_shift
       MixingBlock.reverse_cyclic_shift MixingBlock.shift_size] in Hf.
  inversion Hx as [|? ? HB Hx1]; subst.
  inversion Hx1 as [|? ? HL Hx2]; subst.
  inversion Hx2 as [|? ? HC _]; subst. clear Hx Hx1 Hx2.
  inv_bind Hf. apply assert_ok in E. bools. subst L.
  inv_bind Hf. apply LayerNorm_forward_inv in E. destruct E as [-> [pre Epre]].
  symmetry in Epre. apply app_last_3 in Epre. destruct Epre as [_ ->].
  do 6 inv_bind Hf.
  destruct a5 as [|? [|Hp [|Wp [|? [|? ?]]]]]; try discriminate Hf.
  unfold MixingBlock.cyclic_shift, MixingBlock.reverse_cyclic_shift in Hf.
  cbn [MixingBlock.set_HW MixingBlock_made MixingBlock.shift_size Z.gtb
       Z.compare bind] in Hf.
  do 7 inv_bind Hf.
  apply reshape_explicit_inv in E11;
    [destruct E11 as [_ ->] | repeat constructor; assumption | reflexivity].
  cbn [fill to_opt map] in Hf.
  unfold DropPath in Hf. cbn [bind] in Hf.
  rewrite broadcast_same in Hf. cbn [bind] in Hf.
  inv_bind Hf. inv_bind E11.
  apply LayerNorm_forward_inv in E12. destruct E12 as [-> _].
  inv_bind E11. apply Mlp_made_forward_inv in E12. subst.
  apply Ok_inj in E11. subst.
  rewrite broadcast_same in Hf. apply Ok_inj in Hf. subst y.
  split; [reflexivity | exists B; reflexivity].
Qed.

(** X4. Whenever [MixingBlock.forward] of a constructed block (with [H] and
    [W] set) returns, on an input without an empty dimension, the input has
    shape (B, H*W, dim) and the output has the same shape: the block accepts
    no other token count or channel width. *)
Theorem MixingBlock_forward_returns_input_shape (dim num_heads window_size
    dwconv_kernel_size : nat) (shift_size : Z) (mlp_ratio : nat)
    (qk_scale : bool) (blk0 : MixingBlock.t) (H W : nat) (x y : list nat)
    (mask_matrix : option (list nat)) :
  MixingBlock.init dim num_heads window_size dwconv_kernel_size shift_size
    mlp_ratio qk_scale = Ok blk0 ->
  Forall (fun d => 0 < d) x ->
  MixingBlock.forward (MixingBlock.set_HW blk0 H W) x mask_matrix = Ok y ->
  y = x /\ exists B, x = [B; H * W; dim].
Proof.
  exact (MixingBlock_forward_inv dim num_heads window_size dwconv_kernel_size
           shift_size mlp_ratio qk_scale blk0 H W x y mask_matrix).
Qed.

Lemma MixingBlock_forward_returns_input_shape_witness :
  exists blk0 y,
    MixingBlock.init 24 3 7 3 0 4 false = Ok blk0 /\
    MixingBlock.forward (MixingBlock.set_HW blk0 10 12) [2; 120; 24] None
      = Ok y /\
    y = [2; 120; 24] /\ exists B, [2; 120; 24] = [B; 10 * 12; 24].
Proof.
  assert (E : MixingBlock.init 24 3 7 3 0 4 false
              = Ok (MixingBlock_made 24 3 7 3 4 None None)).
  { apply MixingBlock_init_ok; try lia.
    - right. apply Nat.ltb_lt. reflexivity.
    - apply Nat.ltb_lt. reflexivity. }
  assert (F : MixingBlock.forward
                (MixingBlock.set_HW (MixingBlock_made 24 3 7 3 4 None None)
                   10 12) [2; 120; 24] None = Ok [2; 120; 24]).
  { apply (MixingBlock_forward_made 24 3 7 3 4 2 10 12 None);
      first [lia | reflexivity | apply Nat.ltb_lt; reflexivity]. }
  exists (MixingBlock_made 24 3 7 3 4 None None), [2; 120; 24].
  split; [exact E|]. split; [exact F|].
  apply (MixingBlock_forward_returns_input_shape 24 3 7 3 0 4 false _ 10 12
           _ _ None E);
    [repeat constructor; lia | exact F].
Defined.

(** ** Bottleneck *)

Lemma conv_out_stride1_inv (size k p r : nat) :
  conv_out size k 1 p = Ok r -> r = size + 2 * p - k + 1 /\ k <= size + 2 * p.
Proof.
  intros H. apply conv_out_inv in H; [|lia].
  destruct H as [[Hk ->] | (Hk & Hk2 & _)]; [|lia].
  rewrite Nat.div_1_r. auto.
Qed.

Lemma Conv2D_forward_inv (i o k s p : nat) (x y : list nat) :
  Conv2D_forward i o k s p x = Ok y ->
  exists B H W H' W',
    x = [B; i; H; W] /\ conv_out H k s p = Ok H' /\
    conv_out W k s p = Ok W' /\ y = [B; o; H'; W'].
Proof.
  unfold Conv2D_forward. intros Hf.
  destruct x as [|B [|C [|H [|W [|? ?]]]]]; try discriminate Hf.
  inv_binds. apply check_ok in E. bools. subst C.
  exists B, H, W, a0, a1. auto.
Qed.

Lemma BatchNorm_forward_inv (c : nat) (x y : list nat) :
  BatchNorm_forward c x = Ok y ->
  y = x /\ exists B H W, x = [B; c; H; W].
Proof.
  unfold BatchNorm_forward. intros Hf.
  destruct x as [|B [|C [|H [|W [|? ?]]]]]; try discriminate Hf.
  inv_binds. apply check_ok in E. bools. subst C.
  split; [reflexivity | exists B, H, W; reflexivity].
Qed.

Lemma iadd_inv (a b r : list nat) : iadd a b = Ok r -> r = a.
Proof. unfold iadd. intros H. inv_binds. reflexivity. Qed.

(** X5. [Bottleneck.forward] of a constructed block returns exactly when
    [in_channel = out_channel] and the input is a (B, in_channel, H, W) map
    with H, W >= 1, and it then returns the shape of its input: [conv4] is
    applied to the output of [conv3], which has [out_channel] channels, so a
    block built with two different widths raises on every input. *)
Theorem Bottleneck_forward_returns_iff (in_channel out_channel : nat)
    (b : Bottleneck.t) (x y : list nat) :
  Bottleneck.init in_channel out_channel = Ok b ->
  (Bottleneck.forward b x = Ok y <->
   in_channel = out_channel /\ y = x /\
   exists B H W, x = [B; in_channel; H; W] /\ 1 <= H /\ 1 <= W).
Proof.
  intros Hb. apply Bottleneck_init_inv in Hb. destruct Hb as [-> _].
  split.
  - unfold Bottleneck.forward.
    cbn [Bottleneck.conv1 Bottleneck.bn1 Bottleneck.relu Bottleneck.conv2
         Bottleneck.conv3 Bottleneck.conv4 Bottleneck.bn4 Bottleneck_made].
    unfold ReLU. intros Hf. inv_binds.
    apply iadd_inv in E7. subst a7.
    apply BatchNorm_forward_inv in E6. destruct E6 as [-> _].
    apply BatchNorm_forward_inv in E0. destruct E0 as [-> _].
    apply Conv2D_forward_inv in E.
    destruct E as (B & H & W & H1 & W1 & -> & EH1 & EW1 & ->).
    apply conv_out_stride1_inv in EH1, EW1.
    apply Conv2D_forward_inv in E2.
    destruct E2 as (B2 & H2 & W2 & H2' & W2' & E2 & EH2 & EW2 & ->).
    injection E2 as <- <- <-.
    apply conv_out_stride1_inv in EH2, EW2.
    apply Conv2D_forward_inv in E4.
    destruct E4 as (B3 & H3 & W3 & H3' & W3' & E3 & EH3 & EW3 & ->).
    injection E3 as <- <- <-.
    apply conv_out_stride1_inv in EH3, EW3.
    apply Conv2D_forward_inv in E5.
    destruct E5 as (B4 & H4 & W4 & H4' & W4' & E4 & EH4 & EW4 & ->).
    injection E4 as <- Eio <- <-.
    apply conv_out_stride1_inv in EH4, EW4.
    subst out_channel.
    split; [reflexivity|]. split.
    + replace H4' with H by lia. replace W4' with W by lia. reflexivity.
    + exists B, H, W. split; [reflexivity | lia].
  - intros (<- & -> & B & H & W & -> & HH & HW).
    apply Bottleneck_forward_made; lia.
Qed.

Lemma Bottleneck_forward_returns_iff_witness :
  exists b,
    Bottleneck.init 24 24 = Ok b /\
    (Bottleneck.forward b [2; 24; 10; 12] = Ok [2; 24; 10; 12] <->
     24 = 24 /\ [2; 24; 10; 12] = [2; 24; 10; 12] /\
     exists B H W, [2; 24; 10; 12] = [B; 24; H; W] /\ 1 <= H /\ 1 <= W).
Proof.
  assert (E : Bottleneck.init 24 24 = Ok (Bottleneck_made 24 24)).
  { apply Bottleneck_init_ok. apply Nat.ltb_lt. reflexivity. }
  eexists. split; [exact E|].
  apply (Bottleneck_forward_returns_iff 24 24 _ _ _ E).
Defined.

(** ** Focus *)

Lemma Focus_init_inv (i o : nat) (f : Focus.t) :
  Focus.init i o = Ok f ->
  f = Focus.mk (BaseConv.mk (Conv2D_forward (i * 4) o 1 1 0) Silu) /\
  0 < i /\ 0 < o.
Proof.
  unfold Focus.init, BaseConv.init. intros H.
  inv_binds. inv_layers. split; [reflexivity | split; [lia | assumption]].
Qed.

Lemma slice_stride2_length (a b : nat) (x p : list nat) :
  slice_stride2 a b x = Ok p -> length p = length x.
Proof.
  unfold slice_stride2. intros H.
  destruct (rev x) as [|W [|Hh pre]] eqn:E; try discriminate H.
  apply Ok_inj in H. subst p.
  rewrite <- (length_rev x), E. rewrite length_rev. reflexivity.
Qed.

Lemma set_nth_length (k v : nat) (s : list nat) :
  k < length s -> length (set_nth k v s) = length s.
Proof.
  intros Hk. unfold set_nth.
  rewrite length_app, length_firstn. cbn [length].
  rewrite length_skipn. lia.
Qed.

Lemma concat_at_length (k : nat) (xs : list (list nat)) (acc r : list nat) :
  k < length acc -> concat_at k acc xs = Ok r -> length r = length acc.
Proof.
  revert acc. induction xs as [|x xs IH]; intros acc Hk H; cbn [concat_at] in H.
  - apply Ok_inj in H. subst r. reflexivity.
  - inv_bind H. apply IH in H.
    + rewrite H. apply set_nth_length. exact Hk.
    + rewrite set_nth_length by exact Hk. exact Hk.
Qed.

Lemma stride2_len_eq_even (size : nat) :
  stride2_len 1 size = stride2_len 0 size -> size mod 2 = 0.
Proof.
  unfold stride2_len. rewrite Nat.sub_0_r, Nat.add_sub. intros E.
  pose proof (Nat.div_mod_eq size 2) as E1.
  pose proof (Nat.div_mod_eq (size + 1) 2) as E2.
  pose proof (Nat.mod_upper_bound size 2) as B1.
  pose proof (Nat.mod_upper_bound (size + 1) 2) as B2.
  destruct (size mod 2) as [|[|?]] eqn:Em; [reflexivity | | lia].
  exfalso.
  assert (Hs : (size + 1) mod 2 = 0).
  { replace (size + 1) with (0 + (size / 2 + 1) * 2) by lia.
    rewrite Nat.Div0.mod_add. reflexivity. }
  lia.
Qed.

Ltac inv_bind_as H a E := apply bind_ok in H; destruct H as [a [E H]].

Lemma Focus_forward_inv (in_channels out_channels : nat)
    (f : Focus.t) (x y : list nat) :
  Focus.init in_channels out_channels = Ok f ->
  (Focus.forward f x = Ok y <->
   exists B H W,
     x = [B; in_channels; H; W] /\ H mod 2 = 0 /\ W mod 2 = 0 /\
     2 <= H /\ 2 <= W /\ y = [B; out_channels; H / 2; W / 2]).
Proof.
  intros Hf. apply Focus_init_inv in Hf. destruct Hf as (-> & Hi & Ho).
  unfold Focus.forward, BaseConv.forward.
  cbn [Focus.conv BaseConv.conv BaseConv.act]. unfold Silu.
  split.
  - intros H.
    inv_bind_as H p1 E1. inv_bind_as H p2 E2. inv_bind_as H p3 E3.
    inv_bind_as H p4 E4. inv_bind_as H c Ec. inv_bind_as H o Eo.
    apply Ok_inj in H. subst o.
    assert (Hrank : length x = 4).
    { apply Conv2D_forward_inv in Eo.
      destruct Eo as (B & H' & W' & ? & ? & -> & _).
      pose proof (slice_stride2_length _ _ _ _ E1) as L1.
      unfold concat in Ec. inv_bind_as Ec k Ek.
      assert (Ha : k < length p1).
      { unfold axis_of in Ek. cbn in Ek.
        destruct (Z.of_nat (length p1) <=? 1)%Z eqn:El; [discriminate|].
        apply Ok_inj in Ek. subst k. apply Z.leb_gt in El. lia. }
      apply concat_at_length in Ec; [|exact Ha].
      cbn [length] in Ec. lia. }
    destruct x as [|B [|C [|H [|W [|? ?]]]]]; try discriminate Hrank.
    clear Hrank. unfold slice_stride2 in E1, E2, E3, E4. cbn [rev app] in *.
    apply Ok_inj in E1, E2, E3, E4. subst.
    unfold concat in Ec.
    replace (axis_of (length [B; C; stride2_len 0 H; stride2_len 0 W]) 1)
      with (@Ok nat 1) in Ec by reflexivity.
    cbn [bind concat_at set_nth firstn skipn app nth] in Ec.
    inv_bind_as Ec u1 K1. apply check_ok in K1.
    destruct (list_eq_dec Nat.eq_dec _ _) as [EH|]; [|discriminate].
    injection EH as EH.
    inv_bind_as Ec u2 K2. apply check_ok in K2.
    destruct (list_eq_dec Nat.eq_dec _ _) as [EW|]; [|discriminate].
    injection EW as EW.
    inv_bind_as Ec u3 K3. apply Ok_inj in Ec. subst c.
    apply stride2_len_eq_even in EH, EW.
    rewrite !stride2_len_even in Eo by (assumption || lia).
    apply Conv2D_forward_inv in Eo.
    destruct Eo as (B' & H' & W' & H'' & W'' & Ex & EH' & EW' & ->).
    injection Ex as <- EC <- <-.
    apply conv_out_stride1_inv in EH', EW'.
    pose proof (Nat.div_mod_eq H 2). pose proof (Nat.div_mod_eq W 2).
    exists B, H, W.
    change (fst (Nat.divmod H 1 0 1)) with (H / 2) in *.
    change (fst (Nat.divmod W 1 0 1)) with (W / 2) in *.
    repeat split; try assumption; try lia.
    + replace C with in_channels by lia. reflexivity.
    + replace H'' with (H / 2) by lia. replace W'' with (W / 2) by lia.
      reflexivity.
  - intros (B & H & W & -> & HH & HW & H2 & W2 & ->).
    pose proof (Nat.div_mod_eq H 2). pose proof (Nat.div_mod_eq W 2).
    rewrite !slice_stride2_even by (assumption || lia). cbn [bind].
    rewrite concat_channels_4. cbn [bind].
    rewrite Conv2D_forward_1x1 by lia. reflexivity.
Qed.

(** X6. [Focus.forward] of a constructed layer returns exactly on
    (B, in_channels, H, W) maps with H and W even and at least 2, and then
    returns (B, out_channels, H/2, W/2): on an odd H or W the four strided
    slices differ in size and their concatenation raises. *)
Theorem Focus_forward_returns_iff (in_channels out_channels : nat)
    (f : Focus.t) (x y : list nat) :
  Focus.init in_channels out_channels = Ok f ->
  (Focus.forward f x = Ok y <->
   exists B H W,
     x = [B; in_channels; H; W] /\ H mod 2 = 0 /\ W mod 2 = 0 /\
     2 <= H /\ 2 <= W /\ y = [B; out_channels; H / 2; W / 2]).
Proof. exact (Focus_forward_inv in_channels out_channels f x y). Qed.

Lemma Focus_forward_returns_iff_witness :
  exists f,
    Focus.init 24 48 = Ok f /\
    (Focus.forward f [1; 24; 56; 56] = Ok [1; 48; 28; 28] <->
     exists B H W,
       [1; 24; 56; 56] = [B; 24; H; W] /\ H mod 2 = 0 /\ W mod 2 = 0 /\
       2 <= H /\ 2 <= W /\ [1; 48; 28; 28] = [B; 48; H / 2; W / 2]).
Proof.
  assert (E : Focus.init 24 48
              = Ok (Focus.mk (BaseConv.mk (Conv2D_forward (24 * 4) 48 1 1 0)
                                          Silu))) by reflexivity.
  eexists. split; [exact E|].
  apply (Focus_forward_returns_iff 24 48 _ _ _ E).
Defined.

(** ** PatchExpand *)

Lemma PatchExpand_init_inv (res : nat * nat) (dim : nat) (p : PatchExpand.t) :
  PatchExpand.init res dim 2 = Ok p ->
  p = PatchExpand.mk res dim (Linear_forward dim (2 * dim))
        (LayerNorm_forward (dim / 2)) /\ 0 < dim / 2.
Proof.
  unfold PatchExpand.init. cbn [Nat.eqb]. intros H.
  inv_binds. inv_layers.
  match goal with E : floordiv _ _ = Ok _ |- _ =>
    apply floordiv_ok in E; destruct E as [_ ->] end.
  split; [reflexivity | assumption].
Qed.

Lemma PatchExpand_forward_inv (H W dim : nat) (p : PatchExpand.t)
    (x y : list nat) :
  PatchExpand.init (H, W) dim 2 = Ok p ->
  Forall (fun d => 0 < d) x ->
  (PatchExpand.forward p x = Ok y <->
   dim mod 2 = 0 /\
   exists B, x = [B; H * W; dim] /\ y = [B; 2 * H * (2 * W); dim / 2]).
Proof.
  intros Hp Hx. pose proof Hp as Hinit.
  apply PatchExpand_init_inv in Hp. destruct Hp as [Ep Hd2].
  split.
  - subst p. unfold PatchExpand.forward.
    cbn [PatchExpand.input_resolution PatchExpand.expand PatchExpand.norm].
    intros Hf. inv_bind_as Hf e Ee.
    apply Linear_forward_inv in Ee. destruct Ee as (pre & -> & ->).
    destruct (pre ++ [2 * dim]) as [|B [|L [|C [|? ?]]]] eqn:Ea;
      try discriminate Hf.
    apply app_last_3 in Ea. destruct Ea as [-> <-]. cbn [app] in Hx.
    inversion Hx as [|? ? HB Hx1]; subst.
    inversion Hx1 as [|? ? HL _]; subst. clear Hx Hx1.
    inv_bind_as Hf u Eu. apply assert_ok in Eu. bools. subst L.
    unfold PatchExpand.rearrange in Hf.
    inv_bind_as Hf r Er. inv_bind_as Er r1 E1. inv_bind_as Er r2 E2.
    pose proof (Nat.div_mod_eq dim 2) as Ed.
    pose proof (Nat.div_mod_eq (2 * dim) 4) as Ed4.
    pose proof (Nat.mod_upper_bound (2 * dim) 4) as Hm4.
    pose proof (Nat.mod_upper_bound dim 2) as Hm2.
    assert (H4 : 0 < 2 * dim / 4) by lia.
    apply reshape_explicit_inv in E1;
      [destruct E1 as [_ ->] | repeat constructor; nia | reflexivity].
    cbn [fill to_opt map] in E2.
    apply reshape_explicit_inv in E2;
      [destruct E2 as [K2 ->] | repeat constructor; nia | reflexivity].
    cbn [to_opt map known_size prod fold_right] in K2.
    assert (E4 : 2 * dim = 4 * (2 * dim / 4)) by nia.
    assert (Eq : 2 * dim / 4 = dim / 2) by lia.
    assert (Hev : dim mod 2 = 0) by lia.
    cbn [fill to_opt map] in Er. rewrite Eq in Er.
    cbn [reshape shape_tensor] in Er.
    rewrite (reshape_infer (2 * H * (2 * W))) in Er by rs.
    apply Ok_inj in Er. subst r. cbn [fill to_opt map] in Hf.
    apply LayerNorm_forward_inv in Hf. destruct Hf as [-> _].
    split; [exact Hev|]. exists B. split; reflexivity.
  - intros (Hev & B & -> & ->). clear Ep.
    inversion Hx as [|? ? HB Hx1]; subst.
    inversion Hx1 as [|? ? HL _]; subst. clear Hx Hx1.
    rewrite (PatchExpand_forward_shape H W dim B p Hinit Hev) by nia.
    pose proof (Nat.div_mod_eq dim 2) as Ed.
    replace (2 * dim) with ((dim / 2) * 4) by lia.
    rewrite Nat.div_mul by lia. reflexivity.
Qed.

(** X7. On an input without an empty dimension, [PatchExpand.forward] of a
    layer constructed for resolution (H, W) and an even or odd [dim] returns
    exactly when [dim] is even and the input has shape (B, H*W, dim), and it
    then returns (B, 2H*2W, dim/2): four times the tokens at half the width.
    A token count other than H*W, another width or an odd [dim] raise. *)
Theorem PatchExpand_forward_returns_iff (H W dim : nat) (p : PatchExpand.t)
    (x y : list nat) :
  PatchExpand.init (H, W) dim 2 = Ok p ->
  Forall (fun d => 0 < d) x ->
  (PatchExpand.forward p x = Ok y <->
   dim mod 2 = 0 /\
   exists B, x = [B; H * W; dim] /\ y = [B; 2 * H * (2 * W); dim / 2]).
Proof. exact (PatchExpand_forward_inv H W dim p x y). Qed.

Lemma PatchExpand_forward_returns_iff_witness :
  exists p,
    PatchExpand.init (7, 7) 192 2 = Ok p /\
    (PatchExpand.forward p [1; 49; 192] = Ok [1; 196; 96] <->
     192 mod 2 = 0 /\
     exists B, [1; 49; 192] = [B; 7 * 7; 192] /\
               [1; 196; 96] = [B; 2 * 7 * (2 * 7); 192 / 2]).
Proof.
  assert (E : PatchExpand.init (7, 7) 192 2
              = Ok (PatchExpand.mk (7, 7) 192 (Linear_forward 192 (2 * 192))
                      (LayerNorm_forward (192 / 2)))) by reflexivity.
  eexists. split; [exact E|].
  apply (PatchExpand_forward_returns_iff 7 7 192 _ _ _ E).
  repeat constructor; lia.
Defined.

(** X8. On value tensors of shape (B, H*W, C) with B, H, W >= 1 and C >= 4,
    the three reshapes of [PatchExpand.forward] succeed only when the width
    C is a multiple of 4, and they then cut the channels of every input
    token into four consecutive output tokens: output element (b, t, c) is
    input element (b, t / 4, (t mod 4) * (C/4) + c).  No element changes its
    position in memory. *)
Theorem PatchExpand_rearrange_layout {A : Type} (d : A) (x y : tensor A)
    (B H W C : nat) :
  dims x = [B; H * W; C] ->
  0 < B -> 0 < H -> 0 < W -> 0 < C / 4 ->
  PatchExpand.rearrange x B H W C = Ok y ->
  C mod 4 = 0 /\
  dims y = [B; 2 * H * (2 * W); C / 4] /\
  forall b t c,
    nth (ravel (dims y) [b; t; c]) (data y) d
    = nth (ravel (dims x) [b; t / 4; (t mod 4) * (C / 4) + c]) (data x) d.
Proof.
  intros Hd HB HH HW HC Hy.
  destruct x as [s l]. cbn [dims data] in *. subst s.
  unfold PatchExpand.rearrange in Hy.
  inv_bind_as Hy x1 E1. inv_bind_as Hy x2 E2.
  cbn [reshape value_tensor] in E1, E2, Hy.
  inv_bind_as E1 s1 K1. apply Ok_inj in E1. subst x1. cbn [dims data] in *.
  inv_bind_as E2 s2 K2. apply Ok_inj in E2. subst x2. cbn [dims data] in *.
  inv_bind_as Hy s3 K3. apply Ok_inj in Hy. subst y. cbn [dims data] in *.
  pose proof (Nat.div_mod_eq C 4) as EC.
  pose proof (Nat.mod_upper_bound C 4) as HC4.
  apply reshape_explicit_inv in K1;
    [destruct K1 as [_ ->] | repeat constructor; lia | reflexivity].
  cbn [fill to_opt map] in K2.
  apply reshape_explicit_inv in K2;
    [destruct K2 as [K2 ->] | repeat constructor; lia | reflexivity].
  cbn [to_opt map known_size prod fold_right] in K2.
  assert (E4 : C = 4 * (C / 4)) by nia.
  cbn [fill to_opt map] in K3.
  rewrite (reshape_infer (2 * H * (2 * W))) in K3 by rs.
  apply Ok_inj in K3. subst s3. cbn [fill to_opt map].
  split; [lia|]. split; [reflexivity|].
  intros b t c. f_equal.
  pose proof (Nat.div_mod_eq t 4) as Et.
  cbn [ravel prod fold_right].
  set (q := C / 4) in *. set (tq := t / 4) in *. set (tr := t mod 4) in *.
  rewrite E4, Et. ring.
Qed.

Lemma PatchExpand_rearrange_layout_witness :
  4 mod 4 = 0 /\
  dims (mkTensor [1; 8; 1] [0; 1; 2; 3; 4; 5; 6; 7]) = [1; 2 * 1 * (2 * 2); 4 / 4] /\
  forall b t c,
    nth (ravel (dims (mkTensor [1; 8; 1] [0; 1; 2; 3; 4; 5; 6; 7])) [b; t; c])
        (data (mkTensor [1; 8; 1] [0; 1; 2; 3; 4; 5; 6; 7])) 0
    = nth (ravel (dims (mkTensor [1; 2; 4] [0; 1; 2; 3; 4; 5; 6; 7]))
             [b; t / 4; (t mod 4) * (4 / 4) + c])
          (data (mkTensor [1; 2; 4] [0; 1; 2; 3; 4; 5; 6; 7])) 0.
Proof.
  apply (PatchExpand_rearrange_layout 0
           (mkTensor [1; 2; 4] [0; 1; 2; 3; 4; 5; 6; 7])
           (mkTensor [1; 8; 1] [0; 1; 2; 3; 4; 5; 6; 7]) 1 1 2 4);
    first [reflexivity | lia | apply Nat.ltb_lt; reflexivity].
Defined.

(** ** BasicLayer and BasicLayer_up *)

Lemma mapM_const_ok {A B : Type} (v : B) (l : list A) :
  mapM (fun _ => Ok v) l = Ok (map (fun _ => v) l).
Proof.
  induction l as [|a l IH]; cbn [mapM map bind]; [reflexivity|].
  rewrite IH. reflexivity.
Qed.

Lemma ConvMerging_init_ok (dim out_dim : nat) :
  0 < dim -> 0 < out_dim ->
  ConvMerging.init dim out_dim = Ok (ConvMerging_made dim out_dim).
Proof.
  intros Hd Ho. unfold ConvMerging.init, Focus.init, BaseConv.init.
  change ((1 - 1) / 2) with 0.
  rewrite Conv2D_make_dense by lia. cbn [bind].
  rewrite BatchNorm_make by assumption. reflexivity.
Qed.

Lemma BasicLayer_init_ok (dim depth nh ws k mlp : nat) (qk down : bool)
    (out_dim : nat) :
  0 < nh -> (qk = true \/ 0 < dim / 2 / nh) ->
  1 <= ws -> 0 < dim / 16 -> 0 < k -> 0 < mlp ->
  (down = true -> 0 < out_dim) ->
  BasicLayer.init dim depth nh ws k mlp qk down out_dim
  = Ok (BasicLayer.mk ws depth
          (map (fun _ => MixingBlock_made dim nh ws k mlp None None)
               (seq 0 depth))
          (if down then Some (ConvMerging_made dim out_dim) else None)).
Proof.
  intros Hnh Hscale Hws Hd16 Hk Hmlp Hout.
  unfold BasicLayer.init.
  rewrite MixingBlock_init_ok by assumption.
  rewrite mapM_const_ok. cbn [bind].
  destruct down; [|reflexivity].
  rewrite ConvMerging_init_ok;
    [reflexivity | destruct (div_pos_16 dim Hd16); assumption | auto].
Qed.

Lemma mapM_const_inv {A B : Type} (m : result B) (l : list A) (bs : list B) :
  mapM (fun _ => m) l = Ok bs ->
  l = [] /\ bs = [] \/ exists v, m = Ok v /\ bs = map (fun _ => v) l.
Proof.
  revert bs. induction l as [|a l IH]; intros bs H; cbn [mapM] in H.
  - left. apply Ok_inj in H. auto.
  - right. inv_bind_as H v Ev. inv_bind_as H vs Evs.
    apply Ok_inj in H. subst bs. exists v. split; [exact Ev|].
    cbn [map]. f_equal.
    destruct (IH _ Evs) as [[-> ->] | (v' & Ev' & ->)]; [reflexivity|].
    rewrite Ev in Ev'. apply Ok_inj in Ev'. subst v'. reflexivity.
Qed.

Lemma run_blocks_made {A : Type} (l : list A) (dim nh ws k mlp B H W : nat) :
  0 < nh -> 0 < dim / 16 -> 1 <= ws ->
  dim mod 2 = 0 -> (dim / 2) mod nh = 0 -> k mod 2 = 1 ->
  0 < B -> 0 < H -> 0 < W ->
  run_blocks (map (fun _ => MixingBlock_made dim nh ws k mlp None None) l)
    [B; H * W; dim] H W
  = Ok [B; H * W; dim].
Proof.
  intros Hnh Hd16 Hws Hev Hheads Hk HB HH HW.
  induction l as [|a l IH]; cbn [map run_blocks]; [reflexivity|].
  change (MixingBlock.set_HW (MixingBlock_made dim nh ws k mlp None None) H W)
    with (MixingBlock_made dim nh ws k mlp (Some H) (Some W)).
  rewrite MixingBlock_forward_made by assumption. cbn [bind]. exact IH.
Qed.

Lemma BasicLayer_blocks_run (dim depth nh ws k mlp : nat) (qk : bool)
    (blocks : list MixingBlock.t) (B H W : nat) :
  mapM (fun _ => MixingBlock.init dim nh ws k 0%Z mlp qk) (seq 0 depth)
    = Ok blocks ->
  1 <= ws ->
  dim mod 2 = 0 -> (dim / 2) mod nh = 0 -> k mod 2 = 1 ->
  0 < B -> 0 < H -> 0 < W ->
  run_blocks blocks [B; H * W; dim] H W = Ok [B; H * W; dim].
Proof.
  intros Hb Hws Hev Hheads Hk HB HH HW.
  apply mapM_const_inv in Hb.
  destruct Hb as [[_ ->] | (blk & Eblk & ->)]; [reflexivity|].
  apply MixingBlock_init_inv in Eblk.
  destruct Eblk as (_ & -> & Hnh & Hd16 & _ & _).
  apply run_blocks_made; assumption.
Qed.

Lemma half_succ_even (n : nat) : n mod 2 = 0 -> (n + 1) / 2 = n / 2.
Proof.
  intros He. pose proof (Nat.div_mod_eq n 2) as E.
  replace (n + 1) with (1 + (n / 2) * 2) by lia.
  rewrite Nat.div_add by lia. reflexivity.
Qed.

Lemma BasicLayer_forward_ok (dim depth num_heads window_size
    dwconv_kernel_size mlp_ratio : nat) (qk_scale downsample : bool)
    (out_dim : nat) (l : BasicLayer.t) (B H W : nat) :
  BasicLayer.init dim depth num_heads window_size dwconv_kernel_size
    mlp_ratio qk_scale downsample out_dim = Ok l ->
  1 <= window_size ->
  dim mod 2 = 0 -> (dim / 2) mod num_heads = 0 ->
  dwconv_kernel_size mod 2 = 1 ->
  0 < B -> 0 < H -> 0 < W ->
  (downsample = true -> H mod 2 = 0 /\ W mod 2 = 0) ->
  BasicLayer.forward l [B; H * W; dim] H W
  = Ok (if downsample
        then (H, W, [B; (H / 2) * (W / 2); out_dim], H / 2, W / 2)
        else (H, W, [B; H * W; dim], H, W)).
Proof.
  intros Hl Hws Hev Hheads Hk HB HH HW Hdown.
  unfold BasicLayer.init in Hl.
  inv_bind_as Hl blocks Eb. inv_bind_as Hl down Ed.
  apply Ok_inj in Hl. subst l.
  unfold BasicLayer.forward. cbn [BasicLayer.blocks BasicLayer.downsample].
  rewrite (BasicLayer_blocks_run _ _ _ _ _ _ _ _ B H W Eb) by assumption.
  cbn [bind]. destruct downsample.
  - inv_bind_as Ed d Ec. apply Ok_inj in Ed. subst down.
    apply ConvMerging_init_inv in Ec. destruct Ec as (-> & Hdim & _).
    destruct (Hdown eq_refl) as [HeH HeW].
    rewrite ConvMerging_forward_made by assumption. cbn [bind].
    rewrite !half_succ_even by assumption. reflexivity.
  - apply Ok_inj in Ed. subst down. reflexivity.
Qed.

(** X9. A constructed encoder stage applied to a (B, H*W, dim) input at
    resolution (H, W), with a window size of at least 1, an even [dim] whose
    half the heads divide and an odd convolution kernel, returns (H, W, x_down, Wh, Ww): with a
    downsample layer and H, W even, [x_down] has shape
    (B, (H/2)*(W/2), out_dim) and (Wh, Ww) = (H/2, W/2); without one (the
    last stage) the tensor keeps its shape and (Wh, Ww) = (H, W). *)
Theorem BasicLayer_forward_shape (dim depth num_heads window_size
    dwconv_kernel_size mlp_ratio : nat) (qk_scale downsample : bool)
    (out_dim : nat) (l : BasicLayer.t) (B H W : nat) :
  BasicLayer.init dim depth num_heads window_size dwconv_kernel_size
    mlp_ratio qk_scale downsample out_dim = Ok l ->
  1 <= window_size ->
  dim mod 2 = 0 -> (dim / 2) mod num_heads = 0 ->
  dwconv_kernel_size mod 2 = 1 ->
  0 < B -> 0 < H -> 0 < W ->
  (downsample = true -> H mod 2 = 0 /\ W mod 2 = 0) ->
  BasicLayer.forward l [B; H * W; dim] H W
  = Ok (if downsample
        then (H, W, [B; (H / 2) * (W / 2); out_dim], H / 2, W / 2)
        else (H, W, [B; H * W; dim], H, W)).
Proof.
  exact (BasicLayer_forward_ok dim depth num_heads window_size dwconv_kernel_size
           mlp_ratio qk_scale downsample out_dim l B H W).
Qed.

(** X10. Whenever [BasicLayer.forward] of a stage with a downsample layer
    returns, H and W are even and the resolution it hands on is exactly
    (H/2, W/2): the rounding up in [(H + 1) // 2] never takes effect, since
    [ConvMerging] has already rejected an odd size. *)
Theorem BasicLayer_forward_needs_even_size (dim depth num_heads window_size
    dwconv_kernel_size mlp_ratio : nat) (qk_scale : bool) (out_dim : nat)
    (l : BasicLayer.t) (x x_down : list nat) (H W H' W' Wh Ww : nat) :
  BasicLayer.init dim depth num_heads window_size dwconv_kernel_size
    mlp_ratio qk_scale true out_dim = Ok l ->
  BasicLayer.forward l x H W = Ok (H', W', x_down, Wh, Ww) ->
  H' = H /\ W' = W /\ H mod 2 = 0 /\ W mod 2 = 0 /\
  Wh = H / 2 /\ Ww = W / 2.
Proof.
  intros Hl Hf.
  unfold BasicLayer.init in Hl.
  inv_bind_as Hl blocks Eb. inv_bind_as Hl down Ed.
  apply Ok_inj in Hl. subst l.
  inv_bind_as Ed d Ec. apply Ok_inj in Ed. subst down.
  unfold BasicLayer.forward in Hf.
  cbn [BasicLayer.blocks BasicLayer.downsample] in Hf.
  inv_bind_as Hf x1 E1. inv_bind_as Hf xd Exd.
  injection Hf as <- <- <- <- <-.
  unfold ConvMerging.forward in Exd.
  destruct x1 as [|B [|L [|C [|? ?]]]]; try discriminate Exd.
  inv_bind_as Exd u1 K1. inv_bind_as Exd u2 K2.
  apply assert_ok in K2. bools.
  repeat split; try assumption.
  - exact (half_succ_even H ltac:(assumption)).
  - exact (half_succ_even W ltac:(assumption)).
Qed.

Lemma BasicLayer_forward_shape_witness :
  exists l,
    BasicLayer.init 24 2 3 7 3 4 false true 48 = Ok l /\
    BasicLayer.forward l [1; 56 * 56; 24] 56 56
    = Ok (56, 56, [1; (56 / 2) * (56 / 2); 48], 56 / 2, 56 / 2).
Proof.
  assert (E : BasicLayer.init 24 2 3 7 3 4 false true 48
              = Ok (BasicLayer.mk 7 2
                      (map (fun _ => MixingBlock_made 24 3 7 3 4 None None)
                           (seq 0 2))
                      (Some (ConvMerging_made 24 48)))).
  { apply (BasicLayer_init_ok 24 2 3 7 3 4 false true 48); try lia.
    - right. apply Nat.ltb_lt. reflexivity.
    - apply Nat.ltb_lt. reflexivity. }
  eexists. split; [exact E|].
  apply (BasicLayer_forward_shape 24 2 3 7 3 4 false true 48 _ 1 56 56 E);
    first [reflexivity | lia | intros _; split; reflexivity].
Defined.

Lemma BasicLayer_forward_needs_even_size_witness :
  exists l,
    BasicLayer.init 24 2 3 7 3 4 false true 48 = Ok l /\
    BasicLayer.forward l [1; 56 * 56; 24] 56 56
      = Ok (56, 56, [1; 28 * 28; 48], 28, 28) /\
    56 = 56 /\ 56 = 56 /\ 56 mod 2 = 0 /\ 56 mod 2 = 0 /\
    28 = 56 / 2 /\ 28 = 56 / 2.
Proof.
  assert (E : BasicLayer.init 24 2 3 7 3 4 false true 48
              = Ok (BasicLayer.mk 7 2
                      (map (fun _ => MixingBlock_made 24 3 7 3 4 None None)
                           (seq 0 2))
                      (Some (ConvMerging_made 24 48)))).
  { apply (BasicLayer_init_ok 24 2 3 7 3 4 false true 48); try lia.
    - right. apply Nat.ltb_lt. reflexivity.
    - apply Nat.ltb_lt. reflexivity. }
  assert (F : BasicLayer.forward
                (BasicLayer.mk 7 2
                   (map (fun _ => MixingBlock_made 24 3 7 3 4 None None)
                        (seq 0 2))
                   (Some (ConvMerging_made 24 48))) [1; 56 * 56; 24] 56 56
              = Ok (56, 56, [1; 28 * 28; 48], 28, 28)).
  { unfold BasicLayer.forward.
    cbn [BasicLayer.blocks BasicLayer.downsample].
    rewrite (run_blocks_made (seq 0 2) 24 3 7 3 4 1 56 56)
      by first [lia | reflexivity | apply Nat.ltb_lt; reflexivity].
    cbn [bind].
    rewrite (ConvMerging_forward_made 24 48 1 56 56)
      by first [lia | reflexivity].
    reflexivity. }
  eexists. split; [exact E|]. split; [exact F|].
  apply (BasicLayer_forward_needs_even_size 24 2 3 7 3 4 false 48 _ _ _ 56 56
           56 56 28 28 E F).
Defined.

Lemma PatchExpand_init_ok (res : nat * nat) (dim : nat) :
  0 < dim / 2 ->
  PatchExpand.init res dim 2
  = Ok (PatchExpand.mk res dim (Linear_forward dim (2 * dim))
          (LayerNorm_forward (dim / 2))).
Proof.
  intros Hd. pose proof (Nat.div_mod_eq dim 2).
  unfold PatchExpand.init. cbn [Nat.eqb].
  rewrite Linear_make by lia. cbn [bind].
  rewrite floordiv_pos by lia. cbn [bind].
  rewrite LayerNorm_make by assumption. reflexivity.
Qed.

Lemma PatchExpand_forward_wrong_size (res : nat * nat) (dim B L : nat) :
  L <> fst res * snd res ->
  PatchExpand.forward
    (PatchExpand.mk res dim (Linear_forward dim (2 * dim))
       (LayerNorm_forward (dim / 2))) [B; L; dim]
  = Raise (AssertionError "input feature has wrong size").
Proof.
  intros HL. destruct res as [H W]. cbn [fst snd] in HL.
  unfold PatchExpand.forward.
  cbn [PatchExpand.input_resolution PatchExpand.expand].
  rewrite Linear_forward_3. cbn [bind].
  destruct (Nat.eqb_spec L (H * W)); [contradiction | reflexivity].
Qed.

Lemma BasicLayer_up_forward_ok (dim H W depth num_heads window_size
    dwconv_kernel_size mlp_ratio : nat) (qk_scale upsample : bool)
    (l : BasicLayer_up.t) (B : nat) :
  BasicLayer_up.init dim (H, W) depth num_heads window_size
    dwconv_kernel_size mlp_ratio qk_scale upsample = Ok l ->
  1 <= window_size ->
  dim mod 2 = 0 -> (dim / 2) mod num_heads = 0 ->
  dwconv_kernel_size mod 2 = 1 ->
  0 < B -> 0 < H -> 0 < W ->
  BasicLayer_up.forward l [B; H * W; dim] H W
  = Ok (if upsample then [B; 2 * H * (2 * W); dim / 2] else [B; H * W; dim],
        [B; H * W; dim]).
Proof.
  intros Hl Hws Hev Hheads Hk HB HH HW.
  unfold BasicLayer_up.init in Hl.
  inv_bind_as Hl blocks Eb. inv_bind_as Hl up Eu.
  apply Ok_inj in Hl. subst l.
  unfold BasicLayer_up.forward.
  cbn [BasicLayer_up.blocks BasicLayer_up.upsample].
  rewrite (BasicLayer_blocks_run _ _ _ _ _ _ _ _ B H W Eb) by assumption.
  cbn [bind]. destruct upsample.
  - inv_bind_as Eu p Ep. apply Ok_inj in Eu. subst up.
    rewrite (PatchExpand_forward_shape H W dim B p Ep) by assumption.
    cbn [bind]. pose proof (Nat.div_mod_eq dim 2) as Ed.
    replace (2 * dim) with ((dim / 2) * 4) by lia.
    rewrite Nat.div_mul by lia. reflexivity.
  - apply Ok_inj in Eu. subst up. reflexivity.
Qed.

(** X11. A constructed decoder stage, with a window size of at least 1, an
    even [dim] whose half the heads divide and an odd convolution kernel,
    applied at its configured
    resolution (H, W) to a (B, H*W, dim) input returns the pair
    (x, output): [output] is the tensor after the blocks, of the input's
    shape, and [x] is the upsampled tensor of shape (B, 2H*2W, dim/2), or
    [output] again when the stage has no upsample layer. *)
Theorem BasicLayer_up_forward_shape (dim H W depth num_heads window_size
    dwconv_kernel_size mlp_ratio : nat) (qk_scale upsample : bool)
    (l : BasicLayer_up.t) (B : nat) :
  BasicLayer_up.init dim (H, W) depth num_heads window_size
    dwconv_kernel_size mlp_ratio qk_scale upsample = Ok l ->
  1 <= window_size ->
  dim mod 2 = 0 -> (dim / 2) mod num_heads = 0 ->
  dwconv_kernel_size mod 2 = 1 ->
  0 < B -> 0 < H -> 0 < W ->
  BasicLayer_up.forward l [B; H * W; dim] H W
  = Ok (if upsample then [B; 2 * H * (2 * W); dim / 2] else [B; H * W; dim],
        [B; H * W; dim]).
Proof.
  exact (BasicLayer_up_forward_ok dim H W depth num_heads window_size
           dwconv_kernel_size mlp_ratio qk_scale upsample l B).
Qed.

(** X12. A decoder stage with an upsample layer is tied to the
    [input_resolution] it was constructed with: called on a (B, H*W, dim)
    input at a resolution (H, W) with another number of tokens, its blocks
    succeed (window size at least 1, even [dim], heads dividing its half,
    odd kernel) and its
    [PatchExpand] then raises the assertion "input feature has wrong size". *)
Theorem BasicLayer_up_forward_wrong_resolution (dim depth num_heads
    window_size dwconv_kernel_size mlp_ratio : nat) (qk_scale : bool)
    (input_resolution : nat * nat) (l : BasicLayer_up.t) (B H W : nat) :
  BasicLayer_up.init dim input_resolution depth num_heads window_size
    dwconv_kernel_size mlp_ratio qk_scale true = Ok l ->
  1 <= window_size ->
  dim mod 2 = 0 -> (dim / 2) mod num_heads = 0 ->
  dwconv_kernel_size mod 2 = 1 ->
  0 < B -> 0 < H -> 0 < W ->
  H * W <> fst input_resolution * snd input_resolution ->
  BasicLayer_up.forward l [B; H * W; dim] H W
  = Raise (AssertionError "input feature has wrong size").
Proof.
  intros Hl Hws Hev Hheads Hk HB HH HW Hres.
  unfold BasicLayer_up.init in Hl.
  inv_bind_as Hl blocks Eb. inv_bind_as Hl up Eu.
  apply Ok_inj in Hl. subst l.
  unfold BasicLayer_up.forward.
  cbn [BasicLayer_up.blocks BasicLayer_up.upsample].
  rewrite (BasicLayer_blocks_run _ _ _ _ _ _ _ _ B H W Eb) by assumption.
  cbn [bind].
  inv_bind_as Eu p Ep. apply Ok_inj in Eu. subst up.
  apply PatchExpand_init_inv in Ep. destruct Ep as [-> _].
  rewrite PatchExpand_forward_wrong_size by exact Hres. reflexivity.
Qed.

Lemma BasicLayer_up_init_ok (dim depth nh ws k mlp : nat) (qk up : bool)
    (res : nat * nat) :
  0 < nh -> (qk = true \/ 0 < dim / 2 / nh) ->
  1 <= ws -> 0 < dim / 16 -> 0 < k -> 0 < mlp ->
  BasicLayer_up.init dim res depth nh ws k mlp qk up
  = Ok (BasicLayer_up.mk dim res depth
          (map (fun _ => MixingBlock_made dim nh ws k mlp None None)
               (seq 0 depth))
          (if up
           then Some (PatchExpand.mk res dim (Linear_forward dim (2 * dim))
                        (LayerNorm_forward (dim / 2)))
           else None)).
Proof.
  intros Hnh Hscale Hws Hd16 Hk Hmlp.
  unfold BasicLayer_up.init.
  rewrite MixingBlock_init_ok by assumption.
  rewrite mapM_const_ok. cbn [bind].
  destruct up; [|reflexivity].
  rewrite PatchExpand_init_ok; [reflexivity|].
  destruct (div_pos_16 dim Hd16) as (_ & ? & _). assumption.
Qed.

Lemma BasicLayer_up_forward_shape_witness :
  exists l,
    BasicLayer_up.init 96 (14, 14) 6 12 7 3 4 false true = Ok l /\
    BasicLayer_up.forward l [1; 14 * 14; 96] 14 14
    = Ok ([1; 2 * 14 * (2 * 14); 96 / 2], [1; 14 * 14; 96]).
Proof.
  assert (E : BasicLayer_up.init 96 (14, 14) 6 12 7 3 4 false true
              = Ok (BasicLayer_up.mk 96 (14, 14) 6
                      (map (fun _ => MixingBlock_made 96 12 7 3 4 None None)
                           (seq 0 6))
                      (Some (PatchExpand.mk (14, 14) 96
                               (Linear_forward 96 (2 * 96))
                               (LayerNorm_forward (96 / 2)))))).
  { apply (BasicLayer_up_init_ok 96 6 12 7 3 4 false true (14, 14));
      try lia.
    - right. apply Nat.ltb_lt. reflexivity.
    - apply Nat.ltb_lt. reflexivity. }
  eexists. split; [exact E|].
  apply (BasicLayer_up_forward_shape 96 14 14 6 12 7 3 4 false true _ 1 E);
    first [reflexivity | lia].
Defined.

Lemma BasicLayer_up_forward_wrong_resolution_witness :
  exists l,
    BasicLayer_up.init 96 (40, 40) 6 12 7 3 4 false true = Ok l /\
    BasicLayer_up.forward l [1; 14 * 14; 96] 14 14
    = Raise (AssertionError "input feature has wrong size").
Proof.
  assert (E : BasicLayer_up.init 96 (40, 40) 6 12 7 3 4 false true
              = Ok (BasicLayer_up.mk 96 (40, 40) 6
                      (map (fun _ => MixingBlock_made 96 12 7 3 4 None None)
                           (seq 0 6))
                      (Some (PatchExpand.mk (40, 40) 96
                               (Linear_forward 96 (2 * 96))
                               (LayerNorm_forward (96 / 2)))))).
  { apply (BasicLayer_up_init_ok 96 6 12 7 3 4 false true (40, 40));
      try lia.
    - right. apply Nat.ltb_lt. reflexivity.
    - apply Nat.ltb_lt. reflexivity. }
  eexists. split; [exact E|].
  apply (BasicLayer_up_forward_wrong_resolution 96 6 12 7 3 4 false
           (40, 40) _ 1 14 14 E);
    first [reflexivity | lia | (cbn [fst snd]; lia)].
Defined.

(** ** ConvEmbed *)

Lemma ConvEmbed_init_inv (img_size : nat * nat) (p c e : nat) (nl : bool)
    (m : ConvEmbed.t) :
  ConvEmbed.init img_size p c e nl = Ok m ->
  m = ConvEmbed_made img_size p c e nl /\
  0 < p / 2 /\ 0 < c /\ 0 < e / 2 /\ 0 < e.
Proof.
  unfold ConvEmbed.init. cbn [to_2tuple fst snd]. intros H.
  inv_bind_as H r0 E0. inv_bind_as H r1 E1.
  apply floordiv_ok in E0, E1. destruct E0 as [_ ->]. destruct E1 as [_ ->].
  inv_bind_as H c1 Ec1. inv_bind_as H b1 Eb1. inv_bind_as H c2 Ec2.
  inv_bind_as H b2 Eb2. inv_bind_as H c3 Ec3. inv_bind_as H b3 Eb3.
  inv_bind_as H pr Epr. inv_bind_as H n En.
  apply Ok_inj in H. subst m. inv_layers.
  assert (En' : n = if nl then Some (LayerNorm_forward e) else None).
  { destruct nl.
    - inv_bind_as En n' En'. apply Ok_inj in En. subst n.
      apply LayerNorm_ok in En'. destruct En' as [-> _]. reflexivity.
    - apply Ok_inj in En. subst n. reflexivity. }
  subst n. split; [reflexivity|]. repeat split; assumption.
Qed.

Lemma ConvEmbed_forward_without_norm_inv (img_size : nat * nat)
    (patch_size in_chans embed_dim : nat) (m : ConvEmbed.t)
    (x : list nat) :
  ConvEmbed.init img_size patch_size in_chans embed_dim false = Ok m ->
  exists e, ConvEmbed.forward m x = Raise e.
Proof.
  intros Hm. apply ConvEmbed_init_inv in Hm. destruct Hm as [-> _].
  destruct (ConvEmbed.forward _ x) as [y|e] eqn:Hf; [|exists e; reflexivity].
  exfalso. unfold ConvEmbed.forward in Hf.
  destruct x as [|B [|C [|H [|W [|? ?]]]]]; try discriminate Hf.
  cbn [ConvEmbed.norm ConvEmbed_made] in Hf.
  inv_bind_as Hf rW ErW. inv_bind_as Hf x1 E1. inv_bind_as Hf rH ErH.
  inv_bind_as Hf x2 E2. inv_bind_as Hf x3 E3. inv_bind_as Hf x4 E4.
  inv_bind_as Hf x5 E5. inv_bind_as Hf x6 E6. inv_bind_as Hf x7 E7.
  discriminate Hf.
Qed.

(** X13. A [ConvEmbed] constructed without a normalization layer
    ([norm_layer=None], the default of the class) never returns from
    [forward]: [Wh] and [Ww] are bound only when [self.norm] is set, and the
    final reshape reads them on every path. *)
Theorem ConvEmbed_forward_without_norm_never_returns (img_size : nat * nat)
    (patch_size in_chans embed_dim : nat) (m : ConvEmbed.t)
    (x : list nat) :
  ConvEmbed.init img_size patch_size in_chans embed_dim false = Ok m ->
  exists e, ConvEmbed.forward m x = Raise e.
Proof.
  exact (ConvEmbed_forward_without_norm_inv img_size patch_size in_chans
           embed_dim m x).
Qed.

Lemma ConvEmbed_init_ok (img_size : nat * nat) (p c e : nat) (nl : bool) :
  0 < p / 2 -> 0 < c -> 0 < e / 2 ->
  ConvEmbed.init img_size p c e nl = Ok (ConvEmbed_made img_size p c e nl).
Proof.
  intros Hp Hc He.
  assert (Hp' : 0 < p) by (pose proof (Nat.div_mod_eq p 2); lia).
  assert (He' : 0 < e) by (pose proof (Nat.div_mod_eq e 2); lia).
  unfold ConvEmbed.init. cbn [to_2tuple fst snd].
  rewrite !floordiv_pos by assumption. cbn [bind].
  rewrite !Conv2D_make_dense by (assumption || lia).
  rewrite !BatchNorm_make by assumption. cbn [bind].
  destruct nl.
  - rewrite LayerNorm_make by assumption. reflexivity.
  - reflexivity.
Qed.

Lemma padded_multiple (size p : nat) :
  0 < p ->
  padded size p = p * (padded size p / p) /\
  size <= padded size p < size + p.
Proof.
  intros Hp. unfold padded.
  pose proof (Nat.div_mod_eq size p) as E.
  pose proof (Nat.mod_upper_bound size p ltac:(lia)) as Hm.
  destruct (Nat.eqb_spec (size mod p) 0) as [E0|E0].
  - split; [|lia]. apply Nat.Div0.div_exact. exact E0.
  - split; [|lia]. apply Nat.Div0.div_exact.
    replace (size + (p - size mod p)) with ((size / p + 1) * p) by nia.
    apply Nat.Div0.mod_mul.
Qed.

Lemma conv_out_stem (s m : nat) :
  0 < s -> 0 < m -> conv_out (2 * s * m) 3 s 1 = Ok (2 * m).
Proof.
  intros Hs Hm. rewrite conv_out_fits by nia. f_equal.
  replace (2 * s * m + 2 * 1 - 3) with ((s - 1) + (2 * m - 1) * s) by nia.
  rewrite Nat.div_add by lia. rewrite Nat.div_small by lia. lia.
Qed.

Lemma conv_out_proj (s k : nat) :
  0 < s -> s <= k -> conv_out k s s 0 = Ok (k / s).
Proof.
  intros Hs Hk. rewrite conv_out_fits by lia. f_equal.
  replace (k + 2 * 0 - s) with (k - s) by lia.
  replace k with ((k - s) + 1 * s) at 2 by lia.
  rewrite Nat.div_add by lia. reflexivity.
Qed.

(** The projection of [ConvEmbed] has its kernel equal to its stride: on a
    non-empty axis shorter than the kernel it still gives size 1. *)
Lemma conv_out_proj_max (s k : nat) :
  0 < s -> 0 < k -> conv_out k s s 0 = Ok (Nat.max 1 (k / s)).
Proof.
  intros Hs Hk. destruct (Nat.le_gt_cases s k) as [Hsk|Hsk].
  - rewrite conv_out_proj by assumption. f_equal.
    assert (0 < k / s) by (apply Nat.div_str_pos; lia). lia.
  - rewrite conv_out_small by lia. rewrite Nat.div_small by lia. reflexivity.
Qed.


(** Up to the stem, [ConvEmbed.forward] pads and halves twice over. *)
Lemma ConvEmbed_forward_stem (img_size : nat * nat) (s c e : nat)
    (nl : bool) (B H W : nat) :
  0 < s -> 1 <= H -> 1 <= W ->
  let p := 2 * s in
  let m := padded H p / p in
  let n := padded W p / p in
  ConvEmbed.forward (ConvEmbed_made img_size p c e nl) [B; c; H; W]
  = (x <- Conv2D_forward (e / 2) e s s 0 [B; e / 2; 2 * m; 2 * n] ;;
     match (if nl then Some (LayerNorm_forward e) else None) with
     | Some norm =>
         match x with
         | [_; _; Wh; Ww] =>
             x <- flatten 2 x ;;
             x <- transpose [0; 2; 1] x ;;
             x <- norm x ;;
             x <- transpose [0; 2; 1] x ;;
             reshape [Infer; Dim e; Dim Wh; Dim Ww] x
         | _ => Raise (ValueError "not enough values to unpack")
         end
     | None =>
         x <- flatten 2 x ;;
         x <- transpose [0; 2; 1] x ;;
         _ <- transpose [0; 2; 1] x ;;
         Raise (UnboundLocalError "Wh")
     end).
Proof.
  intros Hs HH HW p m n.
  assert (Hp : 0 < p) by (subst p; lia).
  destruct (padded_multiple H p Hp) as [EH BH].
  destruct (padded_multiple W p Hp) as [EW BW].
  fold m in EH. fold n in EW.
  assert (Hm : 0 < m) by nia. assert (Hn : 0 < n) by nia.
  assert (Es : p / 2 = s).
  { subst p. rewrite Nat.mul_comm. apply Nat.div_mul. lia. }
  unfold ConvEmbed.forward.
  cbn [ConvEmbed.patch_size ConvEmbed.stem ConvEmbed.proj ConvEmbed.norm
       ConvEmbed.embed_dim ConvEmbed_made to_2tuple fst snd].
  rewrite !pymod_pos by exact Hp. cbn [bind].
  assert (E1 : (if negb (W mod p =? 0)
                then pad [B; c; H; W] [0; p - W mod p; 0; 0]
                else Ok [B; c; H; W]) = Ok [B; c; H; padded W p]).
  { unfold padded. destruct (W mod p =? 0); cbn [negb]; [reflexivity|].
    unfold pad. cbn [length Nat.eqb Nat.mul Nat.add pad_nchw].
    rewrite Nat.add_0_r. reflexivity. }
  rewrite E1. cbn [bind].
  assert (E2 : (if negb (H mod p =? 0)
                then pad [B; c; H; padded W p] [0; 0; 0; p - H mod p]
                else Ok [B; c; H; padded W p])
               = Ok [B; c; padded H p; padded W p]).
  { unfold padded at 3. destruct (H mod p =? 0); cbn [negb]; [reflexivity|].
    unfold pad. cbn [length Nat.eqb Nat.mul Nat.add pad_nchw].
    rewrite Nat.add_0_r. reflexivity. }
  rewrite E2. cbn [bind]. rewrite Es.
  assert (E3 : Conv2D_forward c (e / 2) 3 s 1 [B; c; padded H p; padded W p]
               = Ok [B; e / 2; 2 * m; 2 * n]).
  { unfold Conv2D_forward. rewrite Nat.eqb_refl. cbn [check bind].
    rewrite EH, EW. subst p.
    rewrite !conv_out_stem by assumption. reflexivity. }
  cbn [Sequential]. rewrite E3. cbn [bind].
  rewrite BatchNorm_forward_4. cbn [bind GELU].
  rewrite Conv2D_forward_3x3 by lia. cbn [bind].
  rewrite BatchNorm_forward_4. cbn [bind].
  rewrite Conv2D_forward_3x3 by lia. cbn [bind].
  rewrite BatchNorm_forward_4. cbn [bind].
  reflexivity.
Qed.

Lemma ConvEmbed_forward_made_max (img_size : nat * nat)
    (s c e B H W : nat) :
  0 < s -> 0 < e -> 1 <= H -> 1 <= W ->
  let p := 2 * s in
  let m := padded H p / p in
  let n := padded W p / p in
  ConvEmbed.forward (ConvEmbed_made img_size p c e true) [B; c; H; W]
  = Ok [B; e; Nat.max 1 (2 * m / s); Nat.max 1 (2 * n / s)].
Proof.
  intros Hs He HH HW p m n.
  assert (Hp : 0 < p) by (subst p; lia).
  destruct (padded_multiple H p Hp) as [EH BH].
  destruct (padded_multiple W p Hp) as [EW BW].
  fold m in EH. fold n in EW.
  assert (Hm : 0 < m) by nia. assert (Hn : 0 < n) by nia.
  pose proof (ConvEmbed_forward_stem img_size s c e true B H W Hs HH HW)
    as E.
  cbv zeta in E. fold p in E. fold m n in E. rewrite E. clear E.
  unfold Conv2D_forward. rewrite Nat.eqb_refl. cbn [check bind].
  rewrite !conv_out_proj_max by lia. cbn [bind].
  assert (Hhs : 0 < Nat.max 1 (2 * m / s)) by lia.
  assert (Hws : 0 < Nat.max 1 (2 * n / s)) by lia.
  set (a := Nat.max 1 (2 * m / s)) in *.
  set (b := Nat.max 1 (2 * n / s)) in *.
  unfold flatten. cbn [length Nat.ltb Nat.leb check bind firstn skipn app
                       prod fold_right].
  cbn [transpose shape_tensor].
  replace (transpose_shape [0; 2; 1] [B; e; a * (b * 1)])
    with (Ok [B; a * (b * 1); e]) by reflexivity.
  cbn [bind]. rewrite LayerNorm_forward_3. cbn [bind].
  replace (transpose_shape [0; 2; 1] [B; a * (b * 1); e])
    with (Ok [B; e; a * (b * 1)]) by reflexivity.
  cbn [bind reshape shape_tensor].
  rewrite (reshape_infer B) by rs. reflexivity.
Qed.

Lemma ConvEmbed_forward_made (img_size : nat * nat) (s c e B H W : nat) :
  0 < s -> 0 < e -> 1 <= H -> 1 <= W ->
  let p := 2 * s in
  let m := padded H p / p in
  let n := padded W p / p in
  s <= 2 * m -> s <= 2 * n ->
  ConvEmbed.forward (ConvEmbed_made img_size p c e true) [B; c; H; W]
  = Ok [B; e; 2 * m / s; 2 * n / s].
Proof.
  intros Hs He HH HW p m n Hm Hn.
  pose proof (ConvEmbed_forward_made_max img_size s c e B H W Hs He HH HW)
    as E.
  cbv zeta in E. fold p in E. fold m n in E. rewrite E.
  assert (0 < 2 * m / s) by (apply Nat.div_str_pos; lia).
  assert (0 < 2 * n / s) by (apply Nat.div_str_pos; lia).
  rewrite !Nat.max_r by lia. reflexivity.
Qed.

(** X14. For an even patch size 2s, a constructed [ConvEmbed] with a
    normalization layer maps a (B, in_chans, H, W) image with H, W >= 1,
    padded on the right and at the bottom to multiples of the patch size,
    to (B, embed_dim, 2Hp/s, 2Wp/s), where Hp and Wp count the patches along
    each axis and the projection kernel fits (s <= 2Hp, s <= 2Wp): the stem
    has stride s and so has the projection, a total stride of s*s. *)
Theorem ConvEmbed_forward_shape (img_size : nat * nat) (s in_chans
    embed_dim : nat) (m : ConvEmbed.t) (B H W : nat) :
  ConvEmbed.init img_size (2 * s) in_chans embed_dim true = Ok m ->
  1 <= H -> 1 <= W ->
  let Hp := padded H (2 * s) / (2 * s) in
  let Wp := padded W (2 * s) / (2 * s) in
  s <= 2 * Hp -> s <= 2 * Wp ->
  ConvEmbed.forward m [B; in_chans; H; W]
  = Ok [B; embed_dim; 2 * Hp / s; 2 * Wp / s].
Proof.
  intros Hm HH HW Hp Wp Hs1 Hs2.
  apply ConvEmbed_init_inv in Hm.
  destruct Hm as (-> & Hs & _ & _ & He).
  assert (Hs' : 0 < s).
  { rewrite Nat.mul_comm, Nat.div_mul in Hs by lia. exact Hs. }
  apply ConvEmbed_forward_made; assumption.
Qed.

(** X15. For an even patch size 2s and an image of the configured size, itself
    a multiple of the patch size, the grid that [ConvEmbed.forward] returns
    is the [patches_resolution] computed at construction exactly when the
    patch size is 4, or the patch size is larger and the image is a single
    patch: the two convolutions of stride s give a total stride s*s, which
    is 2s only for s = 2, and a projection kernel larger than its input
    still gives a 1 x 1 grid. *)
Theorem ConvEmbed_grid_is_patches_resolution_iff (Hi Wi s in_chans
    embed_dim : nat) (m : ConvEmbed.t) (B : nat) :
  ConvEmbed.init (Hi, Wi) (2 * s) in_chans embed_dim true = Ok m ->
  1 <= Hi -> 1 <= Wi -> Hi mod (2 * s) = 0 -> Wi mod (2 * s) = 0 ->
  (ConvEmbed.forward m [B; in_chans; Hi; Wi]
   = Ok [B; embed_dim; fst (ConvEmbed.patches_resolution m);
         snd (ConvEmbed.patches_resolution m)]
   <-> s = 2 \/ (2 < s /\ Hi = 2 * s /\ Wi = 2 * s)).
Proof.
  intros Hm HH HW HeH HeW.
  apply ConvEmbed_init_inv in Hm.
  destruct Hm as (-> & Hs & _ & _ & He).
  assert (Hs' : 0 < s).
  { rewrite Nat.mul_comm, Nat.div_mul in Hs by lia. exact Hs. }
  cbn [ConvEmbed.patches_resolution ConvEmbed_made fst snd].
  assert (EpH : padded Hi (2 * s) = Hi).
  { unfold padded. rewrite HeH. reflexivity. }
  assert (EpW : padded Wi (2 * s) = Wi).
  { unfold padded. rewrite HeW. reflexivity. }
  assert (EH : Hi = 2 * s * (Hi / (2 * s)))
    by (apply Nat.Div0.div_exact; exact HeH).
  assert (EW : Wi = 2 * s * (Wi / (2 * s)))
    by (apply Nat.Div0.div_exact; exact HeW).
  set (a := Hi / (2 * s)) in *. set (b := Wi / (2 * s)) in *.
  assert (Ha : 0 < a) by nia. assert (Hb : 0 < b) by nia.
  pose proof (ConvEmbed_forward_made_max (Hi, Wi) s in_chans embed_dim B Hi
                Wi Hs' He HH HW) as F.
  cbv zeta in F. rewrite EpH, EpW in F. fold a b in F. rewrite F. clear F.
  assert (Hgrid : forall n, 0 < n ->
            (Nat.max 1 (2 * n / s) = n <-> s = 2 \/ (2 < s /\ n = 1))).
  { intros n Hn.
    pose proof (Nat.div_mod_eq (2 * n) s) as Ed.
    pose proof (Nat.mod_upper_bound (2 * n) s ltac:(lia)) as Hr.
    split.
    - intros E. destruct (Nat.eq_dec s 2) as [->|Hs2]; [left; reflexivity|].
      right. destruct (Nat.le_gt_cases 1 (2 * n / s)) as [H1|H1].
      + rewrite Nat.max_r in E by exact H1. rewrite E in Ed. nia.
      + rewrite Nat.max_l in E by lia. subst n.
        split; [|reflexivity].
        assert (2 * 1 / s = 0) as E0 by lia. rewrite E0 in Ed. lia.
    - intros [-> | [Hs2 ->]].
      + replace (2 * n / 2) with n
          by (rewrite Nat.mul_comm, Nat.div_mul by lia; reflexivity).
        lia.
      + rewrite Nat.div_small by lia. reflexivity. }
  split.
  - intros Hf. apply Ok_inj in Hf.
    pose proof (f_equal (fun l => nth 2 l 0) Hf) as Ea.
    pose proof (f_equal (fun l => nth 3 l 0) Hf) as Eb.
    cbn [nth] in Ea, Eb.
    apply (Hgrid a Ha) in Ea. apply (Hgrid b Hb) in Eb.
    destruct Ea as [->|[Hs2 Ea]]; [left; reflexivity|].
    destruct Eb as [->|[_ Eb]]; [lia|].
    right. rewrite Ea in EH. rewrite Eb in EW. lia.
  - intros Hc.
    assert (Ea : Nat.max 1 (2 * a / s) = a).
    { apply (Hgrid a Ha). destruct Hc as [->|(Hs2 & E1 & _)];
        [left; reflexivity|]. right. split; [exact Hs2|]. nia. }
    assert (Eb : Nat.max 1 (2 * b / s) = b).
    { apply (Hgrid b Hb). destruct Hc as [->|(Hs2 & _ & E1)];
        [left; reflexivity|]. right. split; [exact Hs2|]. nia. }
    rewrite Ea, Eb. reflexivity.
Qed.

Lemma ConvEmbed_forward_without_norm_never_returns_witness :
  exists m,
    ConvEmbed.init (224, 224) 4 3 24 false = Ok m /\
    exists e, ConvEmbed.forward m [1; 3; 224; 224] = Raise e.
Proof.
  assert (E : ConvEmbed.init (224, 224) 4 3 24 false
              = Ok (ConvEmbed_made (224, 224) 4 3 24 false)).
  { apply ConvEmbed_init_ok; first [lia | apply Nat.ltb_lt; reflexivity]. }
  eexists. split; [exact E|].
  apply (ConvEmbed_forward_without_norm_never_returns (224, 224) 4 3 24 _
           [1; 3; 224; 224] E).
Defined.

Lemma ConvEmbed_forward_shape_witness :
  exists m,
    ConvEmbed.init (224, 224) (2 * 2) 3 24 true = Ok m /\
    ConvEmbed.forward m [1; 3; 222; 224]
    = Ok [1; 24; 2 * (padded 222 (2 * 2) / (2 * 2)) / 2;
          2 * (padded 224 (2 * 2) / (2 * 2)) / 2].
Proof.
  assert (E : ConvEmbed.init (224, 224) (2 * 2) 3 24 true
              = Ok (ConvEmbed_made (224, 224) (2 * 2) 3 24 true)).
  { apply ConvEmbed_init_ok; first [lia | apply Nat.ltb_lt; reflexivity]. }
  eexists. split; [exact E|].
  apply (ConvEmbed_forward_shape (224, 224) 2 3 24 _ 1 222 224 E);
    first [lia | apply Nat.leb_le; reflexivity].
Defined.

Lemma ConvEmbed_grid_is_patches_resolution_iff_witness :
  exists m,
    ConvEmbed.init (8, 8) (2 * 4) 3 24 true = Ok m /\
    (ConvEmbed.forward m [1; 3; 8; 8]
     = Ok [1; 24; fst (ConvEmbed.patches_resolution m);
           snd (ConvEmbed.patches_resolution m)]
     <-> 4 = 2 \/ (2 < 4 /\ 8 = 2 * 4 /\ 8 = 2 * 4)).
Proof.
  assert (E : ConvEmbed.init (8, 8) (2 * 4) 3 24 true
              = Ok (ConvEmbed_made (8, 8) (2 * 4) 3 24 true)).
  { apply ConvEmbed_init_ok; first [lia | apply Nat.ltb_lt; reflexivity]. }
  eexists. split; [exact E|].
  apply (ConvEmbed_grid_is_patches_resolution_iff 8 8 4 3 24 _ 1 E);
    first [lia | reflexivity].
Defined.

(** ** The stage count of MixUnet *)

Lemma run_blocks_inv (dim depth nh ws k mlp : nat) (qk : bool)
    (blocks : list MixingBlock.t) (x y : list nat) (H W : nat) :
  mapM (fun _ => MixingBlock.init dim nh ws k 0%Z mlp qk) (seq 0 depth)
    = Ok blocks ->
  Forall (fun d => 0 < d) x ->
  run_blocks blocks x H W = Ok y ->
  y = x.
Proof.
  intros Hb Hx Hr. apply mapM_const_inv in Hb.
  destruct Hb as [[_ ->] | (blk & Eblk & ->)].
  - cbn [run_blocks] in Hr. apply Ok_inj in Hr. auto.
  - induction (seq 0 depth) as [|a l IH]; cbn [map run_blocks] in Hr.
    + apply Ok_inj in Hr. auto.
    + inv_bind_as Hr x1 E1.
      apply (MixingBlock_forward_inv _ _ _ _ _ _ _ _ _ _ _ _ _ Eblk Hx) in E1.
      destruct E1 as [-> _]. apply IH. exact Hr.
Qed.

Lemma ConvMerging_forward_inv (dim out_dim : nat) (m : ConvMerging.t)
    (x y : list nat) (H W : nat) :
  ConvMerging.init dim out_dim = Ok m ->
  Forall (fun d => 0 < d) x ->
  ConvMerging.forward m x H W = Ok y ->
  exists B,
    x = [B; H * W; dim] /\ H mod 2 = 0 /\ W mod 2 = 0 /\
    y = [B; (H / 2) * (W / 2); out_dim] /\ 0 < out_dim.
Proof.
  intros Hm Hx Hf. unfold ConvMerging.init in Hm.
  inv_bind_as Hm f Ef. inv_bind_as Hm nrm En.
  apply Ok_inj in Hm. subst m.
  apply BatchNorm_ok in En. destruct En as [-> Hdim].
  pose proof (Focus_init_inv _ _ _ Ef) as (_ & _ & Hout).
  unfold ConvMerging.forward in Hf.
  cbn [ConvMerging.norm ConvMerging.reduction] in Hf.
  destruct x as [|B [|L [|C [|? ?]]]]; try discriminate Hf.
  inversion Hx as [|? ? HB Hx1]; subst.
  inversion Hx1 as [|? ? HL Hx2]; subst.
  inversion Hx2 as [|? ? HC _]; subst. clear Hx Hx1 Hx2.
  inv_bind_as Hf u1 K1. apply assert_ok in K1. bools. subst L.
  inv_bind_as Hf u2 K2. apply assert_ok in K2. bools.
  inv_bind_as Hf x1 E1.
  apply reshape_explicit_inv in E1;
    [destruct E1 as [_ ->] | repeat constructor; nia | reflexivity].
  cbn [fill to_opt map] in Hf.
  inv_bind_as Hf x2 E2.
  replace (transpose [0; 3; 1; 2] [B; H; W; C]) with (Ok [B; C; H; W])
    in E2 by reflexivity.
  apply Ok_inj in E2. subst x2.
  inv_bind_as Hf x3 E3.
  apply BatchNorm_forward_inv in E3. destruct E3 as [-> (B' & H' & W' & E3)].
  injection E3 as _ -> _ _.
  inv_bind_as Hf x4 E4.
  apply (Focus_forward_inv _ _ _ _ _ Ef) in E4.
  destruct E4 as (B4 & H4 & W4 & E4 & _ & _ & HH2 & HW2 & ->).
  injection E4 as <- <- <-.
  inv_bind_as Hf x5 E5.
  unfold flatten in E5.
  cbn [length Nat.ltb Nat.leb check bind firstn skipn app prod fold_right]
    in E5.
  apply Ok_inj in E5. subst x5.
  replace (transpose [0; 2; 1] [B; out_dim; H / 2 * (W / 2 * 1)])
    with (Ok [B; H / 2 * (W / 2 * 1); out_dim]) in Hf by reflexivity.
  apply Ok_inj in Hf. subst y. rewrite Nat.mul_1_r.
  exists B. auto 10.
Qed.

Lemma BasicLayer_forward_inv (dim depth nh ws k mlp : nat) (qk down : bool)
    (out_dim : nat) (l : BasicLayer.t) (x x_down : list nat)
    (H W H' W' Wh Ww : nat) :
  BasicLayer.init dim depth nh ws k mlp qk down out_dim = Ok l ->
  Forall (fun d => 0 < d) x ->
  BasicLayer.forward l x H W = Ok (H', W', x_down, Wh, Ww) ->
  if down
  then tokens_of x H W /\ tokens_of x_down Wh Ww /\
       H = 2 * Wh /\ W = 2 * Ww
  else x_down = x /\ Wh = H /\ Ww = W.
Proof.
  intros Hl Hx Hf. unfold BasicLayer.init in Hl.
  inv_bind_as Hl blocks Eb. inv_bind_as Hl d Ed.
  apply Ok_inj in Hl. subst l.
  unfold BasicLayer.forward in Hf.
  cbn [BasicLayer.blocks BasicLayer.downsample] in Hf.
  inv_bind_as Hf x1 E1.
  apply (run_blocks_inv _ _ _ _ _ _ _ _ _ _ _ _ Eb Hx) in E1. subst x1.
  destruct down.
  - inv_bind_as Ed cm Ecm. apply Ok_inj in Ed. subst d.
    inv_bind_as Hf xd Exd.
    apply (ConvMerging_forward_inv _ _ _ _ _ _ _ Ecm Hx) in Exd.
    destruct Exd as (B & -> & HeH & HeW & -> & Hout).
    rewrite !half_succ_even in Hf by assumption.
    apply Ok_inj in Hf.
    assert (E5 : Ww = W / 2) by congruence.
    assert (E4 : Wh = H / 2) by congruence.
    assert (E3 : x_down = [B; H / 2 * (W / 2); out_dim]) by congruence.
    subst Ww Wh x_down. clear Hf.
    inversion Hx as [|? ? HB Hx1]; subst.
    inversion Hx1 as [|? ? HL Hx2]; subst.
    inversion Hx2 as [|? ? HC _]; subst. clear Hx Hx1 Hx2.
    pose proof (Nat.div_mod_eq H 2) as EH.
    pose proof (Nat.div_mod_eq W 2) as EW.
    assert (HH : 0 < H) by nia. assert (HW : 0 < W) by nia.
    split; [|split; [|split]]; try lia.
    + exists B, dim. repeat split; try assumption.
    + exists B, out_dim. repeat split; try assumption; lia.
  - apply Ok_inj in Ed. subst d. injection Hf as <- <- <- <- <-.
    auto.
Qed.

Lemma build_layer_inv (n : nat) (embed depths heads : list nat)
    (ws k mlp : nat) (qk : bool) (a : nat) (l : BasicLayer.t) :
  MixUnet.build_layer n embed depths heads ws k mlp qk a = Ok l ->
  exists dim depth nh out_dim,
    BasicLayer.init dim depth nh ws k mlp qk (a <? n - 1) out_dim = Ok l.
Proof.
  unfold MixUnet.build_layer. intros H.
  inv_bind_as H dim Ed. inv_bind_as H depth Edp. inv_bind_as H nh Eh.
  inv_bind_as H out Eo. exists dim, depth, nh, out. exact H.
Qed.

Lemma tokens_of_pos (x : list nat) (H W : nat) :
  tokens_of x H W -> Forall (fun d => 0 < d) x.
Proof.
  intros (B & C & -> & HB & HH & HW & HC). repeat constructor; nia.
Qed.

Lemma encode_built (n : nat) (embed depths heads : list nat)
    (ws k mlp : nat) (qk : bool) :
  forall m a layers,
    a + m = n ->
    mapM (MixUnet.build_layer n embed depths heads ws k mlp qk) (seq a m)
      = Ok layers ->
    forall x acc Wh Ww y sk Wh' Ww',
      Forall (fun d => 0 < d) x ->
      (m <= 1 -> tokens_of x Wh Ww) ->
      MixUnet.encode layers x acc Wh Ww = Ok (y, sk, Wh', Ww') ->
      exists new,
        sk = acc ++ new /\ length new = m /\
        Wh = 2 ^ (m - 1) * Wh' /\ Ww = 2 ^ (m - 1) * Ww' /\
        tokens_of y Wh' Ww' /\
        forall i, i < m ->
          tokens_of (nth i new [])
            (2 ^ (m - 1 - i) * Wh') (2 ^ (m - 1 - i) * Ww').
Proof.
  induction m as [|m IH]; intros a layers Ham Hl x acc Wh Ww y sk Wh' Ww'
    Hx Htok He.
  - cbn [seq mapM] in Hl. apply Ok_inj in Hl. subst layers.
    cbn [MixUnet.encode] in He. apply Ok_inj in He.
    injection He as <- <- <- <-.
    exists []. rewrite app_nil_r.
    change (0 - 1) with 0. change (2 ^ 0) with 1. rewrite !Nat.mul_1_l.
    repeat split; try reflexivity; [apply Htok; lia | intros i Hi; lia].
  - cbn [seq mapM] in Hl.
    inv_bind_as Hl l El. inv_bind_as Hl rest Er.
    apply Ok_inj in Hl. subst layers.
    cbn [MixUnet.encode] in He.
    inv_bind_as He r Ef. destruct r as [[[[H0 W0] xd] Wh1] Ww1].
    cbn beta iota in He.
    apply build_layer_inv in El.
    destruct El as (dim & depth & nh & out & El).
    pose proof (BasicLayer_forward_inv _ _ _ _ _ _ _ _ _ _ _ _ _ _ _ _ _ _
                  El Hx Ef) as Hinv.
    destruct (Nat.ltb_spec a (n - 1)) as [Hlt|Hge].
    + destruct Hinv as (Tx & Txd & EWh & EWw).
      assert (Hm : 1 <= m) by lia.
      destruct (IH (S a) rest ltac:(lia) Er xd (acc ++ [x]) Wh1 Ww1 y sk
                   Wh' Ww' (tokens_of_pos _ _ _ Txd) (fun _ => Txd) He)
        as (new & -> & Hlen & E1 & E2 & Ty & Hall).
      exists (x :: new). rewrite <- app_assoc. cbn [app length].
      replace (S m - 1) with (S (m - 1)) by lia.
      cbn [Nat.pow].
      split; [reflexivity|]. split; [lia|].
      split; [nia|]. split; [nia|]. split; [exact Ty|].
      intros [|i] Hi.
      * cbn [nth]. rewrite Nat.sub_0_r. cbn [Nat.pow].
        replace (2 * 2 ^ (m - 1) * Wh') with Wh by nia.
        replace (2 * 2 ^ (m - 1) * Ww') with Ww by nia.
        exact Tx.
      * cbn [nth]. replace (S (m - 1) - S i) with (m - 1 - i) by lia.
        apply Hall. lia.
    + destruct Hinv as (-> & -> & ->).
      assert (Hm : m = 0) by lia. subst m.
      cbn [seq mapM] in Er. apply Ok_inj in Er. subst rest.
      cbn [MixUnet.encode] in He. apply Ok_inj in He.
      injection He as <- <- <- <-.
      exists [x].
      change (1 - 1) with 0. change (2 ^ 0) with 1. rewrite !Nat.mul_1_l.
      repeat split; try reflexivity; [apply Htok; lia|].
      intros [|i] Hi; [|lia].
      change (tokens_of x (1 * Wh) (1 * Ww)).
      rewrite !Nat.mul_1_l. apply Htok. lia.
Qed.

Lemma conv_out_pos (size k s p r : nat) :
  conv_out size k s p = Ok r -> 0 < r.
Proof.
  unfold conv_out. cbv zeta. intros H. inv_bind_as H u E.
  apply check_ok in E. apply Z.ltb_lt in E.
  apply Ok_inj in H. subst r. lia.
Qed.

Lemma Conv2D_forward_pos (i o k s p : nat) (x y : list nat) :
  Conv2D_forward i o k s p x = Ok y ->
  exists B H W H' W',
    x = [B; i; H; W] /\ y = [B; o; H'; W'] /\ 0 < H' /\ 0 < W'.
Proof.
  intros Hf. apply Conv2D_forward_inv in Hf.
  destruct Hf as (B & H & W & H' & W' & -> & EH & EW & ->).
  apply conv_out_pos in EH, EW. exists B, H, W, H', W'. auto.
Qed.

Lemma ConvEmbed_forward_inv (img_size : nat * nat) (p c e : nat)
    (m : ConvEmbed.t) (x y : list nat) :
  ConvEmbed.init img_size p c e true = Ok m ->
  Forall (fun d => 0 < d) x ->
  ConvEmbed.forward m x = Ok y ->
  exists B Wh Ww,
    y = [B; e; Wh; Ww] /\ 0 < B /\ 0 < Wh /\ 0 < Ww /\ 0 < e.
Proof.
  intros Hm Hx Hf. apply ConvEmbed_init_inv in Hm.
  destruct Hm as (-> & _ & _ & _ & He).
  unfold ConvEmbed.forward in Hf.
  destruct x as [|B [|C [|H [|W [|? ?]]]]]; try discriminate Hf.
  inversion Hx as [|? ? HB _]; subst. clear Hx.
  cbn [ConvEmbed.patch_size ConvEmbed.stem ConvEmbed.proj ConvEmbed.norm
       ConvEmbed.embed_dim ConvEmbed_made to_2tuple fst snd] in Hf.
  inv_bind_as Hf rW ErW. inv_bind_as Hf t1 E1.
  assert (S1 : exists H1 W1, t1 = [B; C; H1; W1]).
  { destruct (negb (rW =? 0)).
    - unfold pad in E1. cbn [length Nat.eqb Nat.mul Nat.add pad_nchw] in E1.
      apply Ok_inj in E1. subst t1. do 2 eexists. reflexivity.
    - apply Ok_inj in E1. subst t1. do 2 eexists. reflexivity. }
  destruct S1 as (H1 & W1 & ->). clear E1.
  inv_bind_as Hf rH ErH. inv_bind_as Hf t2 E2.
  assert (S2 : exists H2 W2, t2 = [B; C; H2; W2]).
  { destruct (negb (rH =? 0)).
    - unfold pad in E2. cbn [length Nat.eqb Nat.mul Nat.add pad_nchw] in E2.
      apply Ok_inj in E2. subst t2. do 2 eexists. reflexivity.
    - apply Ok_inj in E2. subst t2. do 2 eexists. reflexivity. }
  destruct S2 as (H2 & W2 & ->). clear E2.
  inv_bind_as Hf t3 E3. cbn [Sequential] in E3. unfold GELU in E3.
  inv_bind_as E3 y1 F1. apply Conv2D_forward_pos in F1.
  destruct F1 as (B1 & ? & ? & h1 & w1 & F1 & -> & _ & _).
  assert (EB : B1 = B) by congruence. subst B1. clear F1.
  inv_bind_as E3 y2 F2. apply BatchNorm_forward_inv in F2.
  destruct F2 as [-> _]. cbn [bind] in E3.
  inv_bind_as E3 y3 F3. apply Conv2D_forward_pos in F3.
  destruct F3 as (B3 & ? & ? & h3 & w3 & F3 & -> & _ & _).
  assert (EB : B3 = B) by congruence. subst B3. clear F3.
  inv_bind_as E3 y4 F4. apply BatchNorm_forward_inv in F4.
  destruct F4 as [-> _]. cbn [bind] in E3.
  inv_bind_as E3 y5 F5. apply Conv2D_forward_pos in F5.
  destruct F5 as (B5 & ? & ? & h5 & w5 & F5 & -> & _ & _).
  assert (EB : B5 = B) by congruence. subst B5. clear F5.
  inv_bind_as E3 y6 F6. apply BatchNorm_forward_inv in F6.
  destruct F6 as [-> _]. cbn [bind] in E3.
  apply Ok_inj in E3. subst t3.
  inv_bind_as Hf t4 E4. apply Conv2D_forward_pos in E4.
  destruct E4 as (B4 & ? & ? & Wh & Ww & E4 & -> & HWh & HWw).
  assert (EB : B4 = B) by congruence. subst B4. clear E4.
  inv_bind_as Hf t5 E5.
  unfold flatten in E5.
  cbn [length Nat.ltb Nat.leb check bind firstn skipn app prod fold_right]
    in E5.
  apply Ok_inj in E5. subst t5.
  inv_bind_as Hf t6 E6.
  replace (transpose [0; 2; 1] [B; e; Wh * (Ww * 1)])
    with (Ok [B; Wh * (Ww * 1); e]) in E6 by reflexivity.
  apply Ok_inj in E6. subst t6.
  inv_bind_as Hf t7 E7. apply LayerNorm_forward_inv in E7.
  destruct E7 as [-> _].
  inv_bind_as Hf t8 E8.
  replace (transpose [0; 2; 1] [B; Wh * (Ww * 1); e])
    with (Ok [B; e; Wh * (Ww * 1)]) in E8 by reflexivity.
  apply Ok_inj in E8. subst t8.
  cbn [reshape shape_tensor] in Hf.
  rewrite (reshape_infer B) in Hf by rs.
  apply Ok_inj in Hf. subst y. cbn [fill to_opt map].
  exists B, Wh, Ww. auto 10.
Qed.

Lemma broadcast_rev_pos (a b r : list nat) :
  broadcast_rev a b = Ok r ->
  Forall (fun d => 0 < d) a -> Forall (fun d => 0 < d) b ->
  Forall (fun d => 0 < d) r.
Proof.
  revert b r. induction a as [|x a IH]; intros b r H Ha Hb.
  - cbn [broadcast_rev] in H. apply Ok_inj in H. subst r. exact Hb.
  - destruct b as [|y b]; cbn [broadcast_rev] in H.
    + apply Ok_inj in H. subst r. exact Ha.
    + inv_bind_as H d Ed. inv_bind_as H r' Er. apply Ok_inj in H. subst r.
      inversion Ha as [|? ? Hx Ha']; subst.
      inversion Hb as [|? ? Hy Hb']; subst.
      constructor; [|exact (IH _ _ Er Ha' Hb')].
      destruct (x =? y); [apply Ok_inj in Ed; lia|].
      destruct (x =? 1); [apply Ok_inj in Ed; lia|].
      destruct (y =? 1); [apply Ok_inj in Ed; lia | discriminate Ed].
Qed.

Lemma broadcast_pos (a b r : list nat) :
  broadcast a b = Ok r ->
  Forall (fun d => 0 < d) a -> Forall (fun d => 0 < d) b ->
  Forall (fun d => 0 < d) r.
Proof.
  unfold broadcast. intros H Ha Hb. inv_bind_as H r' Er.
  apply Ok_inj in H. subst r. apply Forall_rev.
  apply (broadcast_rev_pos _ _ _ Er); apply Forall_rev; assumption.
Qed.

Lemma py_index_nat {A : Type} (l : list A) (i : nat) (a : A) :
  py_index l (Z.of_nat i) = Ok a -> nth_error l i = Some a.
Proof.
  unfold py_index.
  destruct (Z.ltb_spec (Z.of_nat i) 0) as [Hneg|_]; [lia|].
  destruct (Z.ltb_spec (Z.of_nat i) 0) as [Hneg|_]; [lia|].
  rewrite Nat2Z.id. destruct (nth_error l i); [|discriminate].
  intros H. apply Ok_inj in H. subst. reflexivity.
Qed.

Lemma concat_last_3_check (a b c : nat) (x r : list nat) :
  concat [[a; b; c]; x] (-1) = Ok r -> set_nth 2 0 x = [a; b; 0].
Proof.
  unfold concat. cbn [length axis_of].
  replace (axis_of 3 (-1)) with (@Ok nat 2) by reflexivity.
  cbn [bind concat_at]. intros H. inv_bind_as H u E. apply check_ok in E.
  apply andb_prop in E. destruct E as [_ E].
  destruct (list_eq_dec Nat.eq_dec (set_nth 2 0 x) (set_nth 2 0 [a; b; c]))
    as [Es|]; [exact Es | discriminate E].
Qed.

(** [concat] along the last axis accepts only a second operand of the same
    rank and the same leading dimensions. *)
Lemma concat_last_3_shape (a b c : nat) (x r : list nat) :
  concat [[a; b; c]; x] (-1) = Ok r ->
  exists c', x = [a; b; c'] /\ r = [a; b; c + c'].
Proof.
  unfold concat. cbn [length axis_of].
  replace (axis_of 3 (-1)) with (@Ok nat 2) by reflexivity.
  cbn [bind concat_at]. intros H. inv_bind_as H u E. apply check_ok in E.
  apply andb_prop in E. destruct E as [El E]. apply Nat.eqb_eq in El.
  destruct (list_eq_dec Nat.eq_dec (set_nth 2 0 x) (set_nth 2 0 [a; b; c]))
    as [Es|]; [|discriminate E].
  destruct x as [|x0 [|x1 [|x2 [|? ?]]]]; try discriminate El.
  cbn [set_nth firstn skipn app] in Es. injection Es as -> ->.
  apply Ok_inj in H. subst r. exists x2. split; reflexivity.
Qed.

Lemma build_layer_up_0_inv (n : nat) (embed depths heads : list nat)
    (res : nat * nat) (ws mlp : nat) (qk : bool) (up : up_layer)
    (cl : layer) :
  MixUnet.build_layer_up n embed depths heads res ws mlp qk 0 = Ok (up, cl) ->
  exists r dim p, PatchExpand.init r dim 2 = Ok p /\ up = UpExpand p.
Proof.
  unfold MixUnet.build_layer_up. cbn [Nat.ltb Nat.leb Nat.eqb]. intros H.
  inv_bind_as H e0 E0. inv_bind_as H cl0 Ecl. inv_bind_as H lu Elu.
  apply Ok_inj in H. injection H as <- _.
  inv_bind_as Elu p Ep. apply Ok_inj in Elu. subst lu.
  do 3 eexists. split; [exact Ep | reflexivity].
Qed.

Lemma MixUnet_init_inv (img_size : nat * nat)
    (patch_size in_chans : nat) (embed_dim : nat + list nat)
    (depths num_heads : list nat)
    (window_size dwconv_kernel_size mlp_ratio : nat) (qk_scale : bool)
    (out_indices : list Z) (ape patch_norm : bool) (self : MixUnet.t) :
  MixUnet.init img_size patch_size in_chans embed_dim depths num_heads
    window_size dwconv_kernel_size mlp_ratio qk_scale out_indices ape
    patch_norm = Ok self ->
  let n := length depths in
  exists emb e0 layers ups nf,
    length emb = n /\ 0 < n /\
    emb = match embed_dim with
          | inl e => map (fun i_layer => e * 2 ^ i_layer) (seq 0 n)
          | inr l => l
          end /\
    ConvEmbed.init img_size patch_size in_chans e0 patch_norm
      = Ok (MixUnet.patch_embed self) /\
    mapM (MixUnet.build_layer n emb depths num_heads window_size
            dwconv_kernel_size mlp_ratio qk_scale) (seq 0 n) = Ok layers /\
    mapM (MixUnet.build_layer_up n emb depths num_heads
            (ConvEmbed.patches_resolution (MixUnet.patch_embed self))
            window_size mlp_ratio qk_scale) (seq 0 (n - 1)) = Ok ups /\
    MixUnet.num_layers self = n /\
    MixUnet.embed_dim self = emb /\
    MixUnet.num_channel self = emb /\
    MixUnet.out_indices self = out_indices /\
    MixUnet.layers self = layers /\
    MixUnet.layers_up self = map fst ups /\
    MixUnet.concat_back_dim self = map snd ups /\
    MixUnet.norm self = LayerNorm_forward nf /\
    MixUnet.pos_drop self = Dropout /\
    match MixUnet.absolute_pos_embed self with
    | Some p => Forall (fun d => 0 < d) p
    | None => True
    end.
Proof.
  intros H. cbv zeta. unfold MixUnet.init in H. cbv zeta in H.
  set (n := length depths) in *.
  set (emb := match embed_dim with
              | inl e => map (fun i_layer => e * 2 ^ i_layer) (seq 0 n)
              | inr l => l
              end) in *.
  inv_bind_as H u Eu. apply assert_ok in Eu. bools.
  inv_bind_as H nf Enf. inv_bind_as H e0 Ee0. inv_bind_as H pe Epe.
  inv_bind_as H apo Eapo. inv_bind_as H layers El. inv_bind_as H ups Eup.
  inv_bind_as H nrm En. inv_bind_as H nup Enu.
  apply Ok_inj in H. subst self.
  cbn [MixUnet.patch_embed MixUnet.num_layers MixUnet.embed_dim
       MixUnet.num_channel MixUnet.out_indices MixUnet.layers
       MixUnet.layers_up MixUnet.concat_back_dim MixUnet.norm
       MixUnet.pos_drop MixUnet.absolute_pos_embed].
  apply LayerNorm_ok in En. destruct En as [-> _].
  exists emb, e0, layers, ups, nf.
  assert (Hn : 0 < n).
  { destruct emb as [|? ?]; [discriminate Enf|]. cbn [length] in *. lia. }
  repeat split; try assumption; try reflexivity.
  destruct ape.
  - inv_bind_as Eapo p Ep. apply Ok_inj in Eapo. subst apo.
    apply create_parameter_ok in Ep. destruct Ep as [-> Hp].
    apply Forall_pos_to_nat. exact Hp.
  - apply Ok_inj in Eapo. subst apo. exact I.
Qed.

Lemma pow2_square_4 (k : nat) : 2 ^ k * 2 ^ k = 4 -> k = 1.
Proof.
  intros H. destruct k as [|[|k]]; [cbn in H; lia | reflexivity |].
  exfalso. cbn [Nat.pow] in H.
  assert (0 < 2 ^ k) by (apply Nat.neq_0_lt_0, Nat.pow_nonzero; lia). nia.
Qed.

(** X16. Whenever the forward pass of a constructed [MixUnet] returns, on an
    image without an empty dimension, the model has two or four stages.  A
    one-stage model has no decoder stage and [x_ilayer] is never bound; with
    three stages, or five and more, decoder stage 1 reads
    [x_downsample[3 - 1]], the input of encoder stage 2, whose token count
    is 4^(n-3) times that of the bottleneck while the upsampled tensor has 4
    times as many, and the concatenation raises. *)
Theorem MixUnet_forward_needs_two_or_four_stages (img_size : nat * nat)
    (patch_size in_chans : nat) (embed_dim : nat + list nat)
    (depths num_heads : list nat)
    (window_size dwconv_kernel_size mlp_ratio : nat) (qk_scale : bool)
    (out_indices : list Z) (ape patch_norm : bool) (self : MixUnet.t)
    (image : list nat) (outs : list (list nat)) :
  MixUnet.init img_size patch_size in_chans embed_dim depths num_heads
    window_size dwconv_kernel_size mlp_ratio qk_scale out_indices ape
    patch_norm = Ok self ->
  Forall (fun d => 0 < d) image ->
  MixUnet.forward self image = Ok outs ->
  length depths = 2 \/ length depths = 4.
Proof.
  intros Hinit Himg Hf.
  apply MixUnet_init_inv in Hinit. cbv zeta in Hinit.
  destruct Hinit as (emb & e0 & layers & ups & nf & Hlen & Hn & _ & Epe & El
                     & Eup & _ & _ & _ & _ & Elayers & Eups & _ & Enorm
                     & Edrop & Hape).
  set (n := length depths) in *.
  unfold MixUnet.forward in Hf.
  inv_bind_as Hf ff Eff. destruct ff as [[[x sk] Wh] Ww].
  cbn beta iota in Hf.
  inv_bind_as Hf up Eupf. clear Hf.
  (* the encoder *)
  unfold MixUnet.forward_features in Eff.
  inv_bind_as Eff x0 E0.
  destruct patch_norm.
  2:{ destruct (ConvEmbed_forward_without_norm_inv _ _ _ _ _ image Epe)
        as [e Ee].
      rewrite Ee in E0. discriminate E0. }
  apply (ConvEmbed_forward_inv _ _ _ _ _ _ _ Epe Himg) in E0.
  destruct E0 as (B & Wh0 & Ww0 & -> & HB & HWh0 & HWw0 & He0).
  inv_bind_as Eff x1 E1.
  unfold flatten in E1.
  cbn [length Nat.ltb Nat.leb check bind firstn skipn app prod fold_right]
    in E1.
  apply Ok_inj in E1. subst x1.
  inv_bind_as Eff x2 E2.
  replace (transpose [0; 2; 1] [B; e0; Wh0 * (Ww0 * 1)])
    with (Ok [B; Wh0 * (Ww0 * 1); e0]) in E2 by reflexivity.
  apply Ok_inj in E2. subst x2.
  inv_bind_as Eff x3 E3.
  assert (Hx3 : Forall (fun d => 0 < d) x3).
  { assert (Hx2 : Forall (fun d => 0 < d) [B; Wh0 * (Ww0 * 1); e0])
      by (repeat constructor; nia).
    destruct (MixUnet.absolute_pos_embed self) as [p|].
    - destruct (MixUnet.ape self).
      + exact (broadcast_pos _ _ _ E3 Hx2 Hape).
      + apply Ok_inj in E3. subst x3. exact Hx2.
    - apply Ok_inj in E3. subst x3. exact Hx2. }
  clear E3.
  inv_bind_as Eff x4 E4. rewrite Edrop in E4. apply Ok_inj in E4. subst x4.
  inv_bind_as Eff enc Eenc. destruct enc as [[[y sk'] Wh'] Ww'].
  cbn beta iota in Eff.
  inv_bind_as Eff x5 E5. rewrite Enorm in E5.
  apply LayerNorm_forward_inv in E5. destruct E5 as [-> _].
  apply Ok_inj in Eff. injection Eff as <- <- <- <-.
  rewrite Elayers in Eenc.
  (* the decoder *)
  unfold MixUnet.forward_up_features in Eupf. rewrite Eups in Eupf.
  inv_bind_as Eupf dec Edec. destruct dec as [xi xl].
  cbn beta iota in Eupf.
  destruct (Nat.eq_dec n 2) as [|Hn2]; [left; assumption|].
  destruct (Nat.eq_dec n 4) as [|Hn4]; [right; assumption|].
  exfalso.
  destruct (Nat.eq_dec n 1) as [Hn1|Hn1].
  - rewrite Hn1 in Eup. cbn [Nat.sub seq mapM] in Eup.
    apply Ok_inj in Eup. subst ups.
    cbn [map MixUnet.decode] in Edec. apply Ok_inj in Edec.
    injection Edec as <- <-. discriminate Eupf.
  - assert (Hn3 : 3 <= n) by lia.
    destruct (encode_built n emb depths num_heads window_size
                dwconv_kernel_size mlp_ratio qk_scale n 0 layers
                ltac:(reflexivity) El x3 [] Wh0 Ww0 y sk' Wh' Ww' Hx3
                ltac:(lia) Eenc)
      as (new & Esk & Hnew & _ & _ & Ty & Hall).
    cbn [app] in Esk. subst sk'.
    pose proof (Hall 2 ltac:(lia)) as T2.
    replace (n - 1 - 2) with (n - 3) in T2 by lia.
    (* the first two decoder stages *)
    assert (Eseq : seq 0 (n - 1) = 0 :: 1 :: seq 2 (n - 3)).
    { replace (n - 1) with (S (S (n - 3))) by lia. reflexivity. }
    rewrite Eseq in Eup. cbn [mapM] in Eup.
    inv_bind_as Eup u0 Eu0. inv_bind_as Eup us Eus.
    apply Ok_inj in Eup. subst ups.
    inv_bind_as Eus u1 Eu1. inv_bind_as Eus us' Eus'.
    apply Ok_inj in Eus. subst us.
    destruct u0 as [up0 cl0].
    apply build_layer_up_0_inv in Eu0.
    destruct Eu0 as ([rH rW] & dim & p & Ep & ->).
    cbn [map fst MixUnet.decode Nat.eqb] in Edec.
    inv_bind_as Edec s0 Es0. destruct s0 as [x1 xi0].
    cbn beta iota in Edec.
    inv_bind_as Es0 x1' Ex1. inv_bind_as Es0 xi0' Exi0.
    apply Ok_inj in Es0. injection Es0 as <- <-.
    inv_bind_as Edec s1 Es1. clear Edec.
    inv_bind_as Es1 s Eskip. inv_bind_as Es1 c Ec. clear Es1.
    apply (PatchExpand_forward_inv _ _ _ _ _ _ Ep (tokens_of_pos _ _ _ Ty))
      in Ex1.
    destruct Ex1 as (_ & B1 & Ey & ->).
    destruct Ty as (By & Cy & Ey' & _ & HWh' & HWw' & _).
    rewrite Ey' in Ey. injection Ey as _ Etok _.
    unfold MixUnet.skip in Eskip.
    change (3 - Z.of_nat 1)%Z with (Z.of_nat 2) in Eskip.
    apply py_index_nat in Eskip.
    apply (nth_error_nth _ _ []) in Eskip. rewrite Eskip in T2.
    destruct T2 as (B2 & C2 & -> & _).
    apply concat_last_3_check in Ec.
    unfold set_nth in Ec. cbn [firstn skipn app] in Ec.
    injection Ec as _ Ec.
    assert (Hk : 2 ^ (n - 3) * 2 ^ (n - 3) = 4) by nia.
    apply pow2_square_4 in Hk. lia.
Qed.

Lemma MixUnet_forward_needs_two_or_four_stages_witness :
  exists self,
    MixUnet_224 [] = Ok self /\
    MixUnet.forward self [1; 3; 224; 224]
      = Ok [[1; 48; 28; 28]; [1; 96; 14; 14]; [1; 192; 7; 7]] /\
    (length [2; 2; 6; 2] = 2 \/ length [2; 2; 6; 2] = 4).
Proof.
  destruct MixUnet_224_run as (s0 & E0 & _).
  pose proof (MixUnet_224_forward [] s0 E0) as F.
  exists s0. split; [exact E0|]. split; [exact F|].
  apply (MixUnet_forward_needs_two_or_four_stages (224, 224) 4 3 (inl 24)
           [2; 2; 6; 2] [3; 6; 12; 24] 7 3 4 false [] false true s0
           [1; 3; 224; 224]
           [[1; 48; 28; 28]; [1; 96; 14; 14]; [1; 192; 7; 7]] E0);
    [repeat constructor; lia | exact F].
Defined.

(** ** The outputs of the forward pass *)

Lemma decode_length (self : MixUnet.t) (layers_up : list up_layer) :
  forall inx x sk Wh Ww xi xl xi' xl',
    MixUnet.decode self layers_up inx x sk Wh Ww xi xl = Ok (xi', xl') ->
    length xl' = length xl + length layers_up /\
    xi' = match layers_up with
          | [] => xi
          | _ :: _ => Some (last xl' [])
          end.
Proof.
  induction layers_up as [|u rest IH];
    intros inx x sk Wh Ww xi xl xi' xl' H; cbn [MixUnet.decode] in H.
  - apply Ok_inj in H. injection H as <- <-. cbn [length].
    split; [lia | reflexivity].
  - inv_bind_as H r Er. destruct r as [x1 xi1]. cbn beta iota in H.
    destruct rest as [|u' rest'].
    + cbn [MixUnet.decode] in H. apply Ok_inj in H. injection H as <- <-.
      rewrite length_app. cbn [length]. split; [lia|].
      rewrite last_last. reflexivity.
    + apply IH in H. destruct H as [Hl Hx].
      rewrite length_app in Hl. cbn [length] in *. split; [lia | exact Hx].
Qed.

Lemma mapM_index_rev {A : Type} (l : list A) :
  mapM (fun i => index l i) (rev (seq 0 (length l))) = Ok (rev l).
Proof.
  assert (H : forall idxs,
             Forall (fun i => i < length l) idxs ->
             forall d, mapM (fun i => index l i) idxs
                       = Ok (map (fun i => nth i l d) idxs)).
  { induction idxs as [|i idxs IH]; intros Hall d; cbn [mapM map].
    - reflexivity.
    - inversion Hall as [|? ? Hi Hrest]; subst.
      unfold index at 1.
      rewrite (nth_error_nth' l d Hi). cbn [bind].
      rewrite (IH Hrest d). reflexivity. }
  assert (Hall : Forall (fun i => i < length l) (rev (seq 0 (length l)))).
  { apply Forall_forall. intros i Hi. apply in_rev, in_seq in Hi. lia. }
  specialize (H _ Hall). clear Hall.
  destruct l as [|a l']; [reflexivity|].
  rewrite (H a), map_rev, map_nth_seq. reflexivity.
Qed.

(** X17. Whenever the forward pass of a constructed [MixUnet] returns, it
    returns the maps collected by the decoder in reverse order, one per
    decoder stage, that is one less than the number of stages, and the
    [x_ilayer] that [forward_up_features] returns beside them is the last
    one collected.  [out_indices] plays no part. *)
Theorem MixUnet_forward_reverses_decoder_outputs (img_size : nat * nat)
    (patch_size in_chans : nat) (embed_dim : nat + list nat)
    (depths num_heads : list nat)
    (window_size dwconv_kernel_size mlp_ratio : nat) (qk_scale : bool)
    (out_indices : list Z) (ape patch_norm : bool) (self : MixUnet.t)
    (image : list nat) (outs : list (list nat)) :
  MixUnet.init img_size patch_size in_chans embed_dim depths num_heads
    window_size dwconv_kernel_size mlp_ratio qk_scale out_indices ape
    patch_norm = Ok self ->
  MixUnet.forward self image = Ok outs ->
  exists x x_downsample Wh Ww x_ilayer x_list,
    MixUnet.forward_features self image = Ok (x, x_downsample, Wh, Ww) /\
    MixUnet.forward_up_features self x x_downsample Wh Ww
      = Ok (x_ilayer, x_list) /\
    outs = rev x_list /\
    length outs = length depths - 1 /\
    x_ilayer = last x_list [].
Proof.
  intros Hinit Hf.
  apply MixUnet_init_inv in Hinit. cbv zeta in Hinit.
  destruct Hinit as (emb & e0 & layers & ups & nf & _ & _ & _ & _ & _
                     & Eup & En & _ & _ & _ & _ & Eups & _).
  unfold MixUnet.forward in Hf.
  inv_bind_as Hf ff Eff. destruct ff as [[[x sk] Wh] Ww].
  cbn beta iota in Hf.
  inv_bind_as Hf up Eupf. destruct up as [xi xl]. cbn beta iota in Hf.
  exists x, sk, Wh, Ww, xi, xl.
  split; [exact Eff|]. split; [exact Eupf|].
  unfold MixUnet.forward_up_features in Eupf.
  inv_bind_as Eupf dec Edec. destruct dec as [xi' xl'].
  cbn beta iota in Eupf.
  destruct xi' as [xi''|]; [|discriminate Eupf].
  apply Ok_inj in Eupf. injection Eupf as <- <-.
  apply decode_length in Edec. destruct Edec as [Hl Hx].
  rewrite Eups, length_map in Hl. cbn [length Nat.add] in Hl.
  apply mapM_length in Eup. rewrite length_seq in Eup.
  unfold MixUnet.range_down in Hf. rewrite En, <- Eup, <- Hl in Hf.
  rewrite mapM_index_rev in Hf. apply Ok_inj in Hf. subst outs.
  rewrite length_rev. repeat split; [lia|].
  destruct (MixUnet.layers_up self); [discriminate Hx|].
  injection Hx as Hx. exact Hx.
Qed.

Lemma MixUnet_forward_reverses_decoder_outputs_witness :
  exists self,
    MixUnet_224 [] = Ok self /\
    exists x x_downsample Wh Ww x_ilayer x_list,
      MixUnet.forward_features self [1; 3; 224; 224]
        = Ok (x, x_downsample, Wh, Ww) /\
      MixUnet.forward_up_features self x x_downsample Wh Ww
        = Ok (x_ilayer, x_list) /\
      [[1; 48; 28; 28]; [1; 96; 14; 14]; [1; 192; 7; 7]] = rev x_list /\
      length [[1; 48; 28; 28]; [1; 96; 14; 14]; [1; 192; 7; 7]]
        = length [2; 2; 6; 2] - 1 /\
      x_ilayer = last x_list [].
Proof.
  destruct MixUnet_224_run as (s0 & E0 & _).
  exists s0. split; [exact E0|].
  apply (MixUnet_forward_reverses_decoder_outputs (224, 224) 4 3 (inl 24)
           [2; 2; 6; 2] [3; 6; 12; 24] 7 3 4 false [] false true s0
           [1; 3; 224; 224]
           [[1; 48; 28; 28]; [1; 96; 14; 14]; [1; 192; 7; 7]] E0
           (MixUnet_224_forward [] s0 E0)).
Defined.

Lemma index_ok {A : Type} (l : list A) (i : nat) (d : A) :
  i < length l -> index l i = Ok (nth i l d).
Proof.
  intros Hi. unfold index. rewrite (nth_error_nth' l d Hi). reflexivity.
Qed.

Lemma index_out_of_range {A : Type} (l : list A) (i : nat) :
  length l <= i -> index l i = Raise IndexError.
Proof.
  intros Hi. unfold index.
  apply nth_error_None in Hi. rewrite Hi. reflexivity.
Qed.

Lemma embed_dim_nth (e n i : nat) :
  i < n -> nth i (map (fun i_layer => e * 2 ^ i_layer) (seq 0 n)) 0 = e * 2 ^ i.
Proof.
  intros Hi. apply (nth_map_seq (fun i_layer => e * 2 ^ i_layer)). exact Hi.
Qed.

(** A Python index into a list of length n is in range from -n to n - 1,
    and a negative one counts from the end. *)
Lemma py_index_ok {A : Type} (l : list A) (i : Z) (d : A) :
  (- Z.of_nat (length l) <= i < Z.of_nat (length l))%Z ->
  py_index l i = Ok (nth (Z.to_nat (i mod Z.of_nat (length l))) l d).
Proof.
  intros Hi. unfold py_index.
  set (n := Z.of_nat (length l)) in *.
  assert (Ej : (if (i <? 0)%Z then (n + i)%Z else i) = (i mod n)%Z).
  { destruct (Z.ltb_spec i 0) as [Hneg|Hpos].
    - apply (Z.mod_unique i n (-1)); lia.
    - symmetry. apply Z.mod_small. lia. }
  rewrite Ej.
  assert (Hm : (0 <= i mod n < n)%Z) by (apply Z.mod_pos_bound; lia).
  destruct (Z.ltb_spec (i mod n) 0) as [Hlt|_]; [lia|].
  rewrite (nth_error_nth' l d) by (subst n; lia). reflexivity.
Qed.

Lemma py_index_out_of_range {A : Type} (l : list A) (i : Z) :
  (i < - Z.of_nat (length l) \/ Z.of_nat (length l) <= i)%Z ->
  py_index l i = Raise IndexError.
Proof.
  intros Hi. unfold py_index.
  destruct (Z.ltb_spec i 0) as [Hneg|Hpos].
  - destruct (Z.ltb_spec (Z.of_nat (length l) + i) 0) as [_|Hge];
      [reflexivity | lia].
  - destruct (Z.ltb_spec i 0) as [Hlt|_]; [lia|].
    assert (Hn : nth_error l (Z.to_nat i) = None)
      by (apply nth_error_None; lia).
    rewrite Hn. reflexivity.
Qed.

(** X18. For a constructed [MixUnet] with n stages, [out_shape] returns one
    [ShapeSpec] per entry of [out_indices] when every index i is in the
    Python index range of both lists it reads, -n <= i < n for the widths
    and -4 <= i < 4 for the strides, and raises [IndexError] as soon as one
    index is not.  The width reported is that of stage i mod n and the
    stride is 4 * 2^(i mod 4): a negative index counts from the end of each
    list, so that in a model with fewer than four stages it pairs the width
    of one stage with the stride of another.  With an integer [embed_dim] e
    the width of stage i is e * 2^i.  The strides are the fixed list
    (4, 8, 16, 32), whatever the patch size is. *)
Theorem MixUnet_out_shape_spec (img_size : nat * nat)
    (patch_size in_chans : nat) (embed_dim : nat + list nat)
    (depths num_heads : list nat)
    (window_size dwconv_kernel_size mlp_ratio : nat) (qk_scale : bool)
    (out_indices : list Z) (ape patch_norm : bool) (self : MixUnet.t) :
  MixUnet.init img_size patch_size in_chans embed_dim depths num_heads
    window_size dwconv_kernel_size mlp_ratio qk_scale out_indices ape
    patch_norm = Ok self ->
  let n := Z.of_nat (length depths) in
  (Forall (fun i => (- n <= i < n)%Z /\ (-4 <= i < 4)%Z) out_indices ->
   MixUnet.out_shape self
   = Ok (map (fun i =>
                mkShapeSpec
                  (nth (Z.to_nat (i mod n)) (MixUnet.embed_dim self) 0)
                  (4 * 2 ^ Z.to_nat (i mod 4)))
             out_indices)) /\
  (Exists (fun i => (i < - n \/ n <= i \/ i < -4 \/ 4 <= i)%Z) out_indices ->
   MixUnet.out_shape self = Raise IndexError) /\
  (forall e i, embed_dim = inl e -> i < length depths ->
               nth i (MixUnet.embed_dim self) 0 = e * 2 ^ i).
Proof.
  intros Hinit n.
  apply MixUnet_init_inv in Hinit. cbv zeta in Hinit.
  destruct Hinit as (emb & e0 & layers & ups & nf & Hlen & _ & Eemb & _ & _
                     & _ & _ & Ee & Ec & Eo & _).
  unfold MixUnet.out_shape. rewrite Ec, Eo, Ee. clear Ec Eo Ee.
  set (f := fun i => c <- py_index emb i ;;
                     s <- py_index [4; 8; 16; 32] i ;; Ok (mkShapeSpec c s)).
  assert (Hgood : forall i, (- n <= i < n)%Z -> (-4 <= i < 4)%Z ->
            f i = Ok (mkShapeSpec (nth (Z.to_nat (i mod n)) emb 0)
                                  (4 * 2 ^ Z.to_nat (i mod 4)))).
  { intros i Hi H4. unfold f.
    rewrite (py_index_ok emb i 0) by (rewrite Hlen; exact Hi).
    rewrite Hlen. fold n. cbn [bind].
    rewrite (py_index_ok [4; 8; 16; 32] i 0) by (cbn [length]; lia).
    cbn [bind length]. change (Z.of_nat 4) with 4%Z.
    assert (Hm : (0 <= i mod 4 < 4)%Z) by (apply Z.mod_pos_bound; lia).
    assert (Hk : Z.to_nat (i mod 4) < 4) by lia.
    destruct (Z.to_nat (i mod 4)) as [|[|[|[|k]]]]; try lia; reflexivity. }
  assert (Hbad : forall i, (i < - n \/ n <= i \/ i < -4 \/ 4 <= i)%Z ->
                   f i = Raise IndexError).
  { intros i Hi. unfold f.
    destruct (Z_lt_ge_dec i (- n)) as [Hlt|Hge].
    { rewrite py_index_out_of_range by (rewrite Hlen; fold n; lia).
      reflexivity. }
    destruct (Z_lt_ge_dec i n) as [Hlt|Hge'].
    - rewrite (py_index_ok emb i 0) by (rewrite Hlen; fold n; lia).
      cbn [bind].
      rewrite py_index_out_of_range by (cbn [length]; lia). reflexivity.
    - rewrite py_index_out_of_range by (rewrite Hlen; fold n; lia).
      reflexivity. }
  split; [|split].
  - intros Hall. induction Hall as [|i l [Hi H4] _ IH]; cbn [mapM map].
    + reflexivity.
    + fold f in IH |- *. rewrite (Hgood i Hi H4). cbn [bind].
      rewrite IH. reflexivity.
  - intros Hex. induction Hex as [i l Hi | i l _ IH]; cbn [mapM].
    + fold f. rewrite (Hbad i Hi). reflexivity.
    + fold f in IH |- *.
      destruct (Z_lt_ge_dec i (- n)) as [H1|H1];
        [rewrite (Hbad i) by lia; reflexivity|].
      destruct (Z_lt_ge_dec i n) as [H2|H2];
        [|rewrite (Hbad i) by lia; reflexivity].
      destruct (Z_lt_ge_dec i (-4)) as [H3|H3];
        [rewrite (Hbad i) by lia; reflexivity|].
      destruct (Z_lt_ge_dec i 4) as [H4|H4];
        [|rewrite (Hbad i) by lia; reflexivity].
      rewrite (Hgood i) by lia. cbn [bind]. rewrite IH. reflexivity.
  - intros e i -> Hi. subst emb. apply embed_dim_nth. exact Hi.
Qed.

Lemma MixUnet_out_shape_spec_witness :
  exists self,
    MixUnet_224 [1; 2; -1]%Z = Ok self /\
    MixUnet.out_shape self
    = Ok (map (fun i =>
                 mkShapeSpec
                   (nth (Z.to_nat (i mod 4)) (MixUnet.embed_dim self) 0)
                   (4 * 2 ^ Z.to_nat (i mod 4)))
              [1; 2; -1]%Z).
Proof.
  destruct MixUnet_224_run as (s0 & E0 & _).
  assert (E : MixUnet_224 [1; 2; -1]%Z
              = Ok (with_out_indices s0 [1; 2; -1]%Z))
    by (apply (MixUnet_224_with_out_indices _ _ s0 E0); reflexivity).
  exists (with_out_indices s0 [1; 2; -1]%Z). split; [exact E|].
  apply (MixUnet_out_shape_spec (224, 224) 4 3 (inl 24) [2; 2; 6; 2]
           [3; 6; 12; 24] 7 3 4 false [1; 2; -1]%Z false true _ E).
  repeat constructor; cbn [length]; lia.
Defined.

(** ** The relative position index, by offsets *)

Lemma nth_concat_rows {B : Type} (g : nat -> list B) (n : nat) (d : B) :
  (forall a, length (g a) = n) ->
  forall m a i, i < m * n ->
    nth i (List.concat (map g (seq a m))) d = nth (i mod n) (g (a + i / n)) d.
Proof.
  intros Hg. induction m as [|m IH]; intros a i Hi; [lia|].
  assert (Hn : 0 < n) by nia.
  cbn [seq map List.concat].
  destruct (Nat.lt_ge_cases i n) as [Hlt|Hge].
  - rewrite app_nth1 by (rewrite Hg; exact Hlt).
    rewrite Nat.div_small, Nat.mod_small, Nat.add_0_r by exact Hlt.
    reflexivity.
  - rewrite app_nth2 by (rewrite Hg; exact Hge). rewrite Hg.
    rewrite IH by nia.
    replace i with ((i - n) + 1 * n) at 3 4 by lia.
    rewrite Nat.div_add, Nat.Div0.mod_add by lia.
    f_equal. f_equal. lia.
Qed.

Lemma coords_flatten_nth (Wh Ww i : nat) :
  i < Wh * Ww ->
  nth i (MixingAttention.coords_flatten (Wh, Ww)) (0, 0)%Z
  = (Z.of_nat (i / Ww), Z.of_nat (i mod Ww)).
Proof.
  intros Hi. assert (HWw : 0 < Ww) by nia.
  assert (Hq : i / Ww < Wh) by (apply Nat.Div0.div_lt_upper_bound; lia).
  assert (Hr : i mod Ww < Ww) by (apply Nat.mod_upper_bound; lia).
  unfold MixingAttention.coords_flatten, meshgrid, arange. cbn [fst snd].
  rewrite combine_nth.
  - rewrite !map_map.
    rewrite (nth_concat_rows _ Ww) by
      (first [intros a; rewrite !length_map, length_seq; reflexivity | lia]).
    rewrite (nth_concat_rows _ Ww) by
      (first [intros a; rewrite !length_map, length_seq; reflexivity | lia]).
    cbn [Nat.add]. f_equal.
    + rewrite map_map. apply (nth_map_seq (fun _ => Z.of_nat (i / Ww))).
      exact Hr.
    + apply (nth_map_seq Z.of_nat). exact Hr.
  - rewrite !map_map.
    rewrite !(length_concat_const _ Ww).
    + reflexivity.
    + intros a _. rewrite length_map, length_seq. reflexivity.
    + intros a _. rewrite !length_map, length_seq. reflexivity.
Qed.

Lemma rel_pos_index_nth (Wh Ww i j : nat) :
  i < Wh * Ww -> j < Wh * Ww ->
  nth j (nth i (MixingAttention.sum_last
                  (MixingAttention._get_rel_pos (Wh, Ww))) []) 0%Z
  = ((Z.of_nat (i / Ww) - Z.of_nat (j / Ww) + (Z.of_nat Wh - 1))
       * (2 * Z.of_nat Ww - 1)
     + (Z.of_nat (i mod Ww) - Z.of_nat (j mod Ww) + (Z.of_nat Ww - 1)))%Z.
Proof.
  intros Hi Hj. rewrite rel_pos_index_spec.
  set (coords := MixingAttention.coords_flatten (Wh, Ww)).
  assert (Hlen : length coords = Wh * Ww) by apply coords_flatten_length.
  set (row := fun ci : Z * Z =>
                map (fun cj : Z * Z =>
                       ((fst ci - fst cj + (Z.of_nat Wh - 1))
                          * (2 * Z.of_nat Ww - 1)
                        + (snd ci - snd cj + (Z.of_nat Ww - 1)))%Z) coords).
  rewrite (nth_indep _ [] (row (0, 0)%Z))
    by (rewrite length_map, Hlen; exact Hi).
  rewrite (map_nth row). unfold row.
  set (entry := fun cj : Z * Z =>
                  ((fst (nth i coords (0, 0)%Z) - fst cj + (Z.of_nat Wh - 1))
                     * (2 * Z.of_nat Ww - 1)
                   + (snd (nth i coords (0, 0)%Z) - snd cj
                      + (Z.of_nat Ww - 1)))%Z).
  rewrite (nth_indep _ 0%Z (entry (0, 0)%Z))
    by (rewrite length_map, Hlen; exact Hj).
  rewrite (map_nth entry). unfold entry, coords.
  rewrite !coords_flatten_nth by assumption. reflexivity.
Qed.

(** X19. The entry (i, j) of the relative position index of a Wh x Ww window
    is (dh + Wh - 1) * (2*Ww - 1) + (dw + Ww - 1), where (dh, dw) is the
    offset from token j to token i, tokens being numbered row by row; two
    token pairs therefore share a row of the relative position bias table
    exactly when they have the same offset. *)
Theorem relative_position_index_by_offset (Wh Ww i j i' j' : nat) :
  i < Wh * Ww -> j < Wh * Ww -> i' < Wh * Ww -> j' < Wh * Ww ->
  let index :=
    MixingAttention.sum_last (MixingAttention._get_rel_pos (Wh, Ww)) in
  let row k := Z.of_nat (k / Ww) in
  let col k := Z.of_nat (k mod Ww) in
  (nth j (nth i index []) 0
   = (row i - row j + (Z.of_nat Wh - 1)) * (2 * Z.of_nat Ww - 1)
     + (col i - col j + (Z.of_nat Ww - 1)))%Z /\
  (nth j (nth i index []) 0%Z = nth j' (nth i' index []) 0%Z <->
   (row i - row j = row i' - row j' /\ col i - col j = col i' - col j')%Z).
Proof.
  intros Hi Hj Hi' Hj' index row col. subst index.
  rewrite !rel_pos_index_nth by assumption. fold (row i) (row j) (row i')
    (row j') (col i) (col j) (col i') (col j').
  split; [reflexivity|].
  assert (HWw : 0 < Ww) by nia.
  assert (Hc : forall k, (0 <= col k < Z.of_nat Ww)%Z).
  { intros k. unfold col.
    pose proof (Nat.mod_upper_bound k Ww ltac:(lia)). lia. }
  pose proof (Hc i). pose proof (Hc j). pose proof (Hc i'). pose proof (Hc j').
  split.
  - intros E.
    destruct (Z.div_mod_unique (2 * Z.of_nat Ww - 1)
                (row i - row j + (Z.of_nat Wh - 1))
                (row i' - row j' + (Z.of_nat Wh - 1))
                (col i - col j + (Z.of_nat Ww - 1))
                (col i' - col j' + (Z.of_nat Ww - 1)))%Z as [Eq Er];
      [left; lia | left; lia | lia | lia].
  - intros [E1 E2]. rewrite E1, E2. reflexivity.
Qed.

Lemma relative_position_index_by_offset_witness :
  let index :=
    MixingAttention.sum_last (MixingAttention._get_rel_pos (7, 7)) in
  let row k := Z.of_nat (k / 7) in
  let col k := Z.of_nat (k mod 7) in
  (nth 9 (nth 0 index []) 0
   = (row 0%nat - row 9%nat + (Z.of_nat 7 - 1)) * (2 * Z.of_nat 7 - 1)
     + (col 0%nat - col 9%nat + (Z.of_nat 7 - 1)))%Z /\
  (nth 9 (nth 0 index []) 0%Z = nth 48 (nth 39 index []) 0%Z <->
   (row 0%nat - row 9%nat = row 39%nat - row 48%nat /\
    col 0%nat - col 9%nat = col 39%nat - col 48%nat)%Z).
Proof.
  apply (relative_position_index_by_offset 7 7 0 9 39 48); lia.
Defined.

(** ** The structure of a constructed MixUnet *)

Lemma mapM_nth_error {A B : Type} (f : A -> result B) (l : list A)
    (r : list B) :
  mapM f l = Ok r ->
  forall i,
    match nth_error l i with
    | Some a => exists b, f a = Ok b /\ nth_error r i = Some b
    | None => nth_error r i = None
    end.
Proof.
  revert r. induction l as [|a l IH]; intros r H i; cbn [mapM] in H.
  - apply Ok_inj in H. subst r. destruct i; reflexivity.
  - inv_bind_as H b Eb. inv_bind_as H bs Ebs. apply Ok_inj in H. subst r.
    destruct i as [|i]; cbn [nth_error].
    + exists b. auto.
    + apply (IH _ Ebs).
Qed.

Lemma nth_error_seq_0 (n i : nat) :
  nth_error (seq 0 n) i = if i <? n then Some i else None.
Proof.
  destruct (Nat.ltb_spec i n) as [Hlt|Hge].
  - rewrite (nth_error_nth' _ 0) by (rewrite length_seq; exact Hlt).
    rewrite seq_nth by exact Hlt. reflexivity.
  - apply nth_error_None. rewrite length_seq. exact Hge.
Qed.

Lemma BasicLayer_init_downsample (dim depth nh ws k mlp : nat)
    (qk down : bool) (out_dim : nat) (l : BasicLayer.t) :
  BasicLayer.init dim depth nh ws k mlp qk down out_dim = Ok l ->
  (BasicLayer.downsample l = None <-> down = false).
Proof.
  unfold BasicLayer.init. intros H.
  inv_bind_as H blocks Eb. inv_bind_as H d Ed. apply Ok_inj in H. subst l.
  cbn [BasicLayer.downsample]. destruct down.
  - inv_bind_as Ed c Ec. apply Ok_inj in Ed. subst d.
    split; discriminate.
  - apply Ok_inj in Ed. subst d. split; reflexivity.
Qed.

Lemma build_layer_up_kind (n : nat) (embed depths heads : list nat)
    (res : nat * nat) (ws mlp : nat) (qk : bool) (i : nat) (up : up_layer)
    (cl : layer) :
  MixUnet.build_layer_up n embed depths heads res ws mlp qk i = Ok (up, cl) ->
  (i = 0 <-> exists p, up = UpExpand p).
Proof.
  unfold MixUnet.build_layer_up. intros H.
  inv_bind_as H e0 E0. inv_bind_as H cl0 Ecl. inv_bind_as H lu Elu.
  apply Ok_inj in H. injection H as <- _.
  destruct i as [|i]; cbn [Nat.eqb] in Elu.
  - inv_bind_as Elu p Ep. apply Ok_inj in Elu. subst lu.
    split; [intros _; exists p; reflexivity | reflexivity].
  - inv_bind_as Elu d Ed. inv_bind_as Elu h Eh. inv_bind_as Elu b Eb.
    apply Ok_inj in Elu. subst lu.
    split; [discriminate | intros [p Hp]; discriminate Hp].
Qed.

(** X20. A constructed [MixUnet] has at least one stage and no more stages
    than [num_heads] has entries; it holds one encoder stage and one width
    per entry of [depths], and one decoder stage and one concatenation layer
    less; every encoder stage but the last has a downsample layer, and the
    first decoder stage is a bare [PatchExpand] while all later ones are
    [BasicLayer_up] stages. *)
Theorem MixUnet_init_structure (img_size : nat * nat)
    (patch_size in_chans : nat) (embed_dim : nat + list nat)
    (depths num_heads : list nat)
    (window_size dwconv_kernel_size mlp_ratio : nat) (qk_scale : bool)
    (out_indices : list Z) (ape patch_norm : bool) (self : MixUnet.t) :
  MixUnet.init img_size patch_size in_chans embed_dim depths num_heads
    window_size dwconv_kernel_size mlp_ratio qk_scale out_indices ape
    patch_norm = Ok self ->
  let n := length depths in
  0 < n /\ n <= length num_heads /\
  MixUnet.num_layers self = n /\
  length (MixUnet.embed_dim self) = n /\
  length (MixUnet.layers self) = n /\
  length (MixUnet.layers_up self) = n - 1 /\
  length (MixUnet.concat_back_dim self) = n - 1 /\
  (forall i l, nth_error (MixUnet.layers self) i = Some l ->
     (BasicLayer.downsample l = None <-> i = n - 1)) /\
  (forall i u, nth_error (MixUnet.layers_up self) i = Some u ->
     (i = 0 <-> exists p, u = UpExpand p)).
Proof.
  intros Hinit.
  apply MixUnet_init_inv in Hinit. cbv zeta in *.
  destruct Hinit as (emb & e0 & layers & ups & nf & Hlen & Hn & _ & _ & El
                     & Eup & En & Ee & _ & _ & Elayers & Eups & Ecb & _).
  set (n := length depths) in *.
  rewrite En, Ee, Elayers, Eups, Ecb, !length_map.
  pose proof (mapM_length _ _ _ El) as Ll. rewrite length_seq in Ll.
  pose proof (mapM_length _ _ _ Eup) as Lu. rewrite length_seq in Lu.
  repeat split; try assumption.
  - pose proof (mapM_nth_error _ _ _ El (n - 1)) as Hlast.
    rewrite nth_error_seq_0 in Hlast.
    destruct (Nat.ltb_spec (n - 1) n) as [_|]; [|lia].
    destruct Hlast as (l & Hb & _).
    unfold MixUnet.build_layer in Hb.
    inv_bind_as Hb dim Ed. inv_bind_as Hb depth Edp. inv_bind_as Hb nh Eh.
    unfold index in Eh.
    destruct (nth_error num_heads (n - 1)) eqn:Enh; [|discriminate Eh].
    assert (Hlt : n - 1 < length num_heads)
      by (apply nth_error_Some; congruence).
    lia.
  - pose proof (mapM_nth_error _ _ _ El i) as Hi.
    rewrite nth_error_seq_0 in Hi.
    destruct (Nat.ltb_spec i n) as [Hlt|Hge]; [|congruence].
    destruct Hi as (l' & Hb & Hl'). assert (l' = l) by congruence. subst l'.
    apply build_layer_inv in Hb. destruct Hb as (dim & depth & nh & out & Hb).
    apply BasicLayer_init_downsample in Hb.
    intros Hnone. apply Hb in Hnone. apply Nat.ltb_ge in Hnone. lia.
  - pose proof (mapM_nth_error _ _ _ El i) as Hi.
    rewrite nth_error_seq_0 in Hi.
    destruct (Nat.ltb_spec i n) as [Hlt|Hge]; [|congruence].
    destruct Hi as (l' & Hb & Hl'). assert (l' = l) by congruence. subst l'.
    apply build_layer_inv in Hb. destruct Hb as (dim & depth & nh & out & Hb).
    apply BasicLayer_init_downsample in Hb.
    intros ->. apply Hb. apply Nat.ltb_ge. lia.
  - pose proof (mapM_nth_error _ _ _ Eup i) as Hi.
    rewrite nth_error_seq_0 in Hi. rewrite nth_error_map in H.
    destruct (Nat.ltb_spec i (n - 1)) as [Hlt|Hge].
    + destruct Hi as ([u' cl] & Hb & Hu'). rewrite Hu' in H.
      cbn [option_map fst] in H. injection H as <-.
      apply build_layer_up_kind in Hb. apply Hb.
    + rewrite Hi in H. discriminate H.
  - pose proof (mapM_nth_error _ _ _ Eup i) as Hi.
    rewrite nth_error_seq_0 in Hi. rewrite nth_error_map in H.
    destruct (Nat.ltb_spec i (n - 1)) as [Hlt|Hge].
    + destruct Hi as ([u' cl] & Hb & Hu'). rewrite Hu' in H.
      cbn [option_map fst] in H. injection H as <-.
      apply build_layer_up_kind in Hb. apply Hb.
    + rewrite Hi in H. discriminate H.
Qed.

Lemma MixUnet_init_structure_witness :
  exists self,
    MixUnet_224 [] = Ok self /\
    let n := length [2; 2; 6; 2] in
    0 < n /\ n <= length [3; 6; 12; 24] /\
    MixUnet.num_layers self = n /\
    length (MixUnet.embed_dim self) = n /\
    length (MixUnet.layers self) = n /\
    length (MixUnet.layers_up self) = n - 1 /\
    length (MixUnet.concat_back_dim self) = n - 1 /\
    (forall i l, nth_error (MixUnet.layers self) i = Some l ->
       (BasicLayer.downsample l = None <-> i = n - 1)) /\
    (forall i u, nth_error (MixUnet.layers_up self) i = Some u ->
       (i = 0 <-> exists p, u = UpExpand p)).
Proof.
  destruct MixUnet_224_run as (s0 & E0 & _).
  exists s0. split; [exact E0|].
  apply (MixUnet_init_structure (224, 224) 4 3 (inl 24) [2; 2; 6; 2]
           [3; 6; 12; 24] 7 3 4 false [] false true s0 E0).
Defined.

(** ** Construction of MixingAttention *)

(** X21. [MixingAttention.__init__] computes [attn_dim // num_heads] and
    [head_dim ** -0.5] before it creates any parameter or layer: it raises
    [ZeroDivisionError] when [num_heads] is 0, and also when no [qk_scale]
    is given and there are more heads than attention channels (so that
    [head_dim] is 0), whatever the width, the window and the kernel size
    are.  So whenever it returns there is at least one head and, unless a
    [qk_scale] is given, at most dim // 2 of them; the module then records
    its arguments, and its relative position index has one row per token of
    the window. *)
Theorem MixingAttention_init_zero_division (dim Wh Ww dwconv_kernel_size
    num_heads : nat) (qk_scale : bool) :
  (num_heads = 0 ->
   MixingAttention.init dim (Wh, Ww) dwconv_kernel_size num_heads qk_scale
   = Raise ZeroDivisionError) /\
  (qk_scale = false -> dim / 2 < num_heads ->
   MixingAttention.init dim (Wh, Ww) dwconv_kernel_size num_heads qk_scale
   = Raise ZeroDivisionError) /\
  (forall m,
     MixingAttention.init dim (Wh, Ww) dwconv_kernel_size num_heads qk_scale
     = Ok m ->
     1 <= num_heads /\ (qk_scale = true \/ num_heads <= dim / 2) /\
     MixingAttention.dim m = dim /\
     MixingAttention.window_size m = (Wh, Ww) /\
     MixingAttention.dwconv_kernel_size m = dwconv_kernel_size /\
     MixingAttention.num_heads m = num_heads /\
     length (MixingAttention.relative_position_index m) = Wh * Ww).
Proof.
  split; [|split].
  - intros ->. reflexivity.
  - intros -> Hh. unfold MixingAttention.init.
    destruct num_heads as [|nh]; [reflexivity|].
    rewrite floordiv_pos by lia. cbn [bind].
    rewrite Nat.div_small by exact Hh. reflexivity.
  - intros m Hm. pose proof Hm as Hm'.
    apply MixingAttention_init_inv in Hm.
    destruct Hm as (-> & Hnh & _).
    split; [exact Hnh|]. split.
    + unfold MixingAttention.init in Hm'.
      rewrite floordiv_pos in Hm' by assumption. cbn [bind] in Hm'.
      destruct qk_scale; [left; reflexivity | right].
      destruct (Nat.eqb_spec (dim / 2 / num_heads) 0) as [E|E];
        [discriminate Hm'|].
      destruct (Nat.le_gt_cases num_heads (dim / 2)) as [Hle|Hgt];
        [exact Hle|].
      rewrite Nat.div_small in E by exact Hgt. contradiction.
    + cbn [MixingAttention_made MixingAttention.dim
           MixingAttention.window_size MixingAttention.dwconv_kernel_size
           MixingAttention.num_heads MixingAttention.relative_position_index].
      repeat split.
      rewrite rel_pos_index_spec, length_map. apply coords_flatten_length.
Qed.


(** ** The forward pass of a four-stage model *)

Lemma MixUnet_init_parts (img_size : nat * nat)
    (patch_size in_chans : nat) (embed_dim : nat + list nat)
    (depths num_heads : list nat)
    (window_size dwconv_kernel_size mlp_ratio : nat) (qk_scale : bool)
    (out_indices : list Z) (ape patch_norm : bool) (self : MixUnet.t) :
  MixUnet.init img_size patch_size in_chans embed_dim depths num_heads
    window_size dwconv_kernel_size mlp_ratio qk_scale out_indices ape
    patch_norm = Ok self ->
  let n := length depths in
  let emb := match embed_dim with
             | inl e => map (fun i_layer => e * 2 ^ i_layer) (seq 0 n)
             | inr l => l
             end in
  exists e0 nf pe layers ups,
    index emb 0 = Ok e0 /\
    py_index emb (-1) = Ok nf /\
    ConvEmbed.init img_size patch_size in_chans e0 patch_norm = Ok pe /\
    mapM (MixUnet.build_layer n emb depths num_heads window_size
            dwconv_kernel_size mlp_ratio qk_scale) (seq 0 n) = Ok layers /\
    mapM (MixUnet.build_layer_up n emb depths num_heads
            (ConvEmbed.patches_resolution pe) window_size mlp_ratio qk_scale)
         (seq 0 (n - 1)) = Ok ups /\
    self = MixUnet.mk n emb ape nf emb out_indices pe
             (ConvEmbed.patches_resolution pe)
             (if ape then Some [1; ConvEmbed.num_patches pe; e0] else None)
             Dropout layers (map fst ups) (map snd ups)
             (LayerNorm_forward nf) (LayerNorm_forward e0) ReLU.
Proof.
  intros H. cbv zeta. unfold MixUnet.init in H. cbv zeta in H.
  set (n := length depths) in *.
  set (emb := match embed_dim with
              | inl e => map (fun i_layer => e * 2 ^ i_layer) (seq 0 n)
              | inr l => l
              end) in *.
  inv_bind_as H u Eu.
  inv_bind_as H nf Enf. inv_bind_as H e0 Ee0. inv_bind_as H pe Epe.
  inv_bind_as H apo Eapo. inv_bind_as H layers El. inv_bind_as H ups Eup.
  inv_bind_as H nrm En. inv_bind_as H nup Enu.
  apply Ok_inj in H. subst self.
  apply LayerNorm_ok in En. destruct En as [-> _].
  apply LayerNorm_ok in Enu. destruct Enu as [-> _].
  exists e0, nf, pe, layers, ups.
  repeat split; try assumption.
  f_equal. destruct ape.
  - inv_bind_as Eapo p Ep. apply Ok_inj in Eapo. subst apo.
    apply create_parameter_ok in Ep. destruct Ep as [-> _].
    cbn [map]. rewrite !Nat2Z.id. reflexivity.
  - apply Ok_inj in Eapo. subst apo. reflexivity.
Qed.

Lemma ConvEmbed_forward_patch4 (img_size : nat * nat) (c e B m n : nat) :
  0 < e -> 1 <= m -> 1 <= n ->
  ConvEmbed.forward (ConvEmbed_made img_size 4 c e true) [B; c; 4 * m; 4 * n]
  = Ok [B; e; m; n].
Proof.
  intros He Hm Hn.
  pose proof (ConvEmbed_forward_made img_size 2 c e B (4 * m) (4 * n)
                ltac:(lia) He ltac:(lia) ltac:(lia)) as F.
  cbv zeta in F. change (2 * 2) with 4 in F.
  assert (Pm : padded (4 * m) 4 = 4 * m).
  { unfold padded. rewrite Nat.mul_comm, Nat.Div0.mod_mul. reflexivity. }
  assert (Pn : padded (4 * n) 4 = 4 * n).
  { unfold padded. rewrite Nat.mul_comm, Nat.Div0.mod_mul. reflexivity. }
  rewrite Pm, Pn in F.
  assert (Dm : 4 * m / 4 = m) by (rewrite Nat.mul_comm; apply Nat.div_mul; lia).
  assert (Dn : 4 * n / 4 = n) by (rewrite Nat.mul_comm; apply Nat.div_mul; lia).
  rewrite Dm, Dn in F.
  assert (Hm2 : 2 * m / 2 = m) by (rewrite Nat.mul_comm; apply Nat.div_mul; lia).
  assert (Hn2 : 2 * n / 2 = n) by (rewrite Nat.mul_comm; apply Nat.div_mul; lia).
  rewrite Hm2, Hn2 in F. apply F; lia.
Qed.

Lemma broadcast_lead1_3 (a b c : nat) :
  broadcast [a; b; c] [1; b; c] = Ok [a; b; c].
Proof.
  unfold broadcast. cbn [rev app broadcast_rev].
  repeat (first [rewrite Nat.eqb_refl | rewrite bdim_one_r
                | rewrite bdim_one_l]; cbn [bind]).
  reflexivity.
Qed.

Lemma build_layer_parts (n : nat) (embed depths heads : list nat)
    (ws k mlp : nat) (qk : bool) (a : nat) (l : BasicLayer.t)
    (dim depth nh out_dim : nat) :
  MixUnet.build_layer n embed depths heads ws k mlp qk a = Ok l ->
  index embed a = Ok dim -> index depths a = Ok depth ->
  index heads a = Ok nh ->
  (if a <? n - 1 then index embed (a + 1) else Ok 0) = Ok out_dim ->
  BasicLayer.init dim depth nh ws k mlp qk (a <? n - 1) out_dim = Ok l.
Proof.
  unfold MixUnet.build_layer. intros H E1 E2 E3 E4.
  rewrite E1, E2, E3 in H. cbn [bind] in H. rewrite E4 in H. exact H.
Qed.

Lemma half_double (j : nat) : 2 * j / 2 = j.
Proof. rewrite Nat.mul_comm. apply Nat.div_mul. lia. Qed.

Lemma double_even (j : nat) : (2 * j) mod 2 = 0.
Proof. rewrite Nat.mul_comm. apply Nat.Div0.mod_mul. Qed.

Lemma build_layer_up_first (n : nat) (embed depths heads : list nat)
    (res : nat * nat) (ws mlp : nat) (qk : bool) (e0 : nat) (up : up_layer)
    (cl : layer) :
  index embed 0 = Ok e0 ->
  MixUnet.build_layer_up n embed depths heads res ws mlp qk 0 = Ok (up, cl) ->
  exists p,
    PatchExpand.init (fst res / 2 ^ (n - 1 - 0), snd res / 2 ^ (n - 1 - 0))
      (e0 * 2 ^ (n - 1 - 0)) 2 = Ok p /\
    up = UpExpand p /\ cl = Identity.
Proof.
  unfold MixUnet.build_layer_up. intros E0 H. rewrite E0 in H.
  cbn [bind Nat.ltb Nat.leb Nat.eqb] in H.
  inv_bind_as H lu Elu. apply Ok_inj in H. injection H as <- <-.
  inv_bind_as Elu p Ep. apply Ok_inj in Elu. subst lu.
  exists p. auto.
Qed.

Lemma build_layer_up_later (n : nat) (embed depths heads : list nat)
    (res : nat * nat) (ws mlp : nat) (qk : bool) (i e0 d h : nat)
    (up : up_layer) (cl : layer) :
  index embed 0 = Ok e0 ->
  index depths (n - 1 - S i) = Ok d ->
  index heads (n - 1 - S i) = Ok h ->
  MixUnet.build_layer_up n embed depths heads res ws mlp qk (S i)
    = Ok (up, cl) ->
  let dim := e0 * 2 ^ (n - 1 - S i) in
  exists b,
    BasicLayer_up.init dim
      (fst res / 2 ^ (n - 1 - S i), snd res / 2 ^ (n - 1 - S i))
      d h ws 3 mlp qk (S i <? n) = Ok b /\
    up = UpBasic b /\ cl = Linear_forward (2 * dim) dim.
Proof.
  unfold MixUnet.build_layer_up. intros E0 Ed Eh H. rewrite E0 in H.
  cbn [bind Nat.eqb] in H. change (0 <? S i) with true in H.
  cbv zeta.
  inv_bind_as H cl0 Ecl. inv_bind_as H lu Elu.
  apply Ok_inj in H. injection H as <- <-.
  apply Linear_ok in Ecl. destruct Ecl as (-> & _).
  rewrite Ed, Eh in Elu. cbn [bind] in Elu.
  inv_bind_as Elu b Eb. apply Ok_inj in Elu. subst lu.
  exists b. auto.
Qed.

(** One step of the decoder loop, for its first stage and for a later
    one. *)
Lemma decode_first (self : MixUnet.t) (p : PatchExpand.t)
    (rest : list up_layer) (x : list nat) (xd : list (list nat))
    (Wh Ww : nat) (xi : option (list nat)) (xl : list (list nat)) :
  MixUnet.decode self (UpExpand p :: rest) 0 x xd Wh Ww xi xl
  = (x' <- PatchExpand.forward p x ;;
     x_ilayer <- MixUnet.to_spatial self x ;;
     MixUnet.decode self rest 1 x' xd (Wh * 2) (Ww * 2) (Some x_ilayer)
       (xl ++ [x_ilayer])).
Proof.
  cbn [MixUnet.decode Nat.eqb].
  destruct (PatchExpand.forward p x) as [x'|err]; [|reflexivity].
  cbn [bind].
  destruct (MixUnet.to_spatial self x) as [x_ilayer|err]; reflexivity.
Qed.

Lemma decode_later (self : MixUnet.t) (bl : BasicLayer_up.t)
    (rest : list up_layer) (inx : nat) (x : list nat)
    (xd : list (list nat)) (Wh Ww : nat) (xi : option (list nat))
    (xl : list (list nat)) :
  MixUnet.decode self (UpBasic bl :: rest) (S inx) x xd Wh Ww xi xl
  = (s <- MixUnet.skip xd (S inx) ;;
     x1 <- concat [x; s] (-1) ;;
     back <- index (MixUnet.concat_back_dim self) (S inx) ;;
     x2 <- back x1 ;;
     r <- BasicLayer_up.forward bl x2 Wh Ww ;;
     x_ilayer <- MixUnet.to_spatial self (snd r) ;;
     MixUnet.decode self rest (S (S inx)) (fst r) xd (Wh * 2) (Ww * 2)
       (Some x_ilayer) (xl ++ [x_ilayer])).
Proof.
  cbn [MixUnet.decode Nat.eqb].
  destruct (MixUnet.skip xd (S inx)) as [s|err]; [|reflexivity].
  cbn [bind].
  destruct (concat [x; s] (-1)) as [x1|err]; [|reflexivity].
  cbn [bind].
  destruct (index (MixUnet.concat_back_dim self) (S inx)) as [back|err];
    [|reflexivity].
  cbn [bind].
  destruct (back x1) as [x2|err]; [|reflexivity].
  cbn [bind].
  destruct (BasicLayer_up.forward bl x2 Wh Ww) as [[x3 output]|err];
    [|reflexivity].
  cbn [bind fst snd].
  destruct (MixUnet.to_spatial self output) as [x_ilayer|err]; reflexivity.
Qed.

(** [x_downsample[3 - inx]] for the decoder stages 1 and 2. *)
Lemma skip_index (xd : list (list nat)) :
  MixUnet.skip xd 1 = index xd 2 /\ MixUnet.skip xd 2 = index xd 1.
Proof. split; reflexivity. Qed.

Lemma index_nth_error {A : Type} (l : list A) (i : nat) (a : A) :
  index l i = Ok a <-> nth_error l i = Some a.
Proof.
  unfold index. destruct (nth_error l i) as [a'|].
  - split; intros H; [apply Ok_inj in H | injection H as H]; congruence.
  - split; discriminate.
Qed.

(** The spatial form of a decoder output with L tokens: the side is the
    integer square root of L, and the reshape is refused when L is not a
    perfect square. *)
Lemma to_spatial_sqrt (self : MixUnet.t) (B L C : nat) :
  MixUnet.activate self = ReLU ->
  0 < B -> 0 < C -> 0 < L ->
  Nat.sqrt L * Nat.sqrt L = L ->
  MixUnet.to_spatial self [B; L; C] = Ok [B; C; Nat.sqrt L; Nat.sqrt L].
Proof.
  intros Hact HB HC HL Hsq.
  assert (Hr : 0 < Nat.sqrt L) by nia.
  pose proof (to_spatial_square self B (Nat.sqrt L) C Hact HB HC Hr) as E.
  rewrite Hsq in E. exact E.
Qed.

Lemma to_spatial_not_square (self : MixUnet.t) (B L C : nat) :
  MixUnet.activate self = ReLU ->
  0 < B -> 0 < C -> 0 < L ->
  Nat.sqrt L * Nat.sqrt L <> L ->
  MixUnet.to_spatial self [B; L; C]
  = Raise (ValueError "reshape: size mismatch").
Proof.
  intros Hact HB HC HL Hsq.
  assert (Hr : 0 < Nat.sqrt L).
  { pose proof (Nat.sqrt_spec L ltac:(lia)) as [_ Hs].
    destruct (Nat.sqrt L); [simpl in Hs; lia | lia]. }
  unfold MixUnet.to_spatial. rewrite Hact.
  cbn [ReLU bind reshape shape_tensor].
  set (r := Nat.sqrt L) in *.
  unfold reshape_shape. rewrite copy_dims_pos by pos_spec_tac.
  cbn [bind to_opt map count_infer known_size prod fold_right].
  destruct (Nat.eqb_spec (B * (r * (r * (C * 1)))) (B * (L * (C * 1))))
    as [E|_]; [exfalso; nia | reflexivity].
Qed.

Lemma sqrt_scaled (c L : nat) :
  Nat.sqrt L * Nat.sqrt L = L ->
  Nat.sqrt (c * c * L) = c * Nat.sqrt L.
Proof.
  intros H. rewrite <- H at 1.
  replace (c * c * (Nat.sqrt L * Nat.sqrt L))
    with (c * Nat.sqrt L * (c * Nat.sqrt L)) by lia.
  apply Nat.sqrt_square.
Qed.

Lemma div_8_2 (n : nat) : 8 * n / 2 = 4 * n.
Proof. replace (8 * n) with (4 * n * 2) by lia. apply Nat.div_mul. lia. Qed.

Lemma div_4_2 (n : nat) : 4 * n / 2 = 2 * n.
Proof. replace (4 * n) with (2 * n * 2) by lia. apply Nat.div_mul. lia. Qed.

Lemma mod_8_2 (n : nat) : (8 * n) mod 2 = 0.
Proof. replace (8 * n) with (4 * n * 2) by lia. apply Nat.Div0.mod_mul. Qed.

Lemma mod_4_2 (n : nat) : (4 * n) mod 2 = 0.
Proof. replace (4 * n) with (2 * n * 2) by lia. apply Nat.Div0.mod_mul. Qed.

(** What the construction of a four-stage model for images of 32a x 32b
    pixels, with patch size 4 and an integer [embed_dim], amounts to. *)
Lemma four_stage_parts (a b e in_chans d0 d1 d2 d3 h0 h1 h2 h3
    window_size dwconv_kernel_size mlp_ratio : nat) (qk_scale : bool)
    (out_indices : list Z) (ape : bool) (self : MixUnet.t) :
  MixUnet.init (32 * a, 32 * b) 4 in_chans (inl e) [d0; d1; d2; d3]
    [h0; h1; h2; h3] window_size dwconv_kernel_size mlp_ratio qk_scale
    out_indices ape true = Ok self ->
  exists l0 l1 l2 l3 p0 b1 b2,
    BasicLayer.init e d0 h0 window_size dwconv_kernel_size mlp_ratio
      qk_scale true (2 * e) = Ok l0 /\
    BasicLayer.init (2 * e) d1 h1 window_size dwconv_kernel_size mlp_ratio
      qk_scale true (4 * e) = Ok l1 /\
    BasicLayer.init (4 * e) d2 h2 window_size dwconv_kernel_size mlp_ratio
      qk_scale true (8 * e) = Ok l2 /\
    BasicLayer.init (8 * e) d3 h3 window_size dwconv_kernel_size mlp_ratio
      qk_scale false 0 = Ok l3 /\
    PatchExpand.init (a, b) (8 * e) 2 = Ok p0 /\
    BasicLayer_up.init (4 * e) (2 * a, 2 * b) d2 h2 window_size 3 mlp_ratio
      qk_scale true = Ok b1 /\
    BasicLayer_up.init (2 * e) (4 * a, 4 * b) d1 h1 window_size 3 mlp_ratio
      qk_scale true = Ok b2 /\
    0 < e /\
    self = MixUnet.mk 4 [e; 2 * e; 4 * e; 8 * e] ape (8 * e)
             [e; 2 * e; 4 * e; 8 * e] out_indices
             (ConvEmbed_made (32 * a, 32 * b) 4 in_chans e true)
             (8 * a, 8 * b)
             (if ape then Some [1; 8 * a * (8 * b); e] else None)
             Dropout [l0; l1; l2; l3]
             [UpExpand p0; UpBasic b1; UpBasic b2]
             [Identity; Linear_forward (2 * (4 * e)) (4 * e);
              Linear_forward (2 * (2 * e)) (2 * e)]
             (LayerNorm_forward (8 * e)) (LayerNorm_forward e) ReLU.
Proof.
  intros Hinit.
  apply MixUnet_init_parts in Hinit. cbv zeta in Hinit.
  destruct Hinit as (e0 & nf & pe & layers & ups & Ee0 & Enf & Epe & El & Eup
                     & ->).
  change (length [d0; d1; d2; d3]) with 4 in *.
  assert (Eemb : map (fun i_layer => e * 2 ^ i_layer) (seq 0 4)
                 = [e; 2 * e; 4 * e; 8 * e]).
  { cbn [seq map]. change (2 ^ 0) with 1. change (2 ^ 1) with 2.
    change (2 ^ 2) with 4. change (2 ^ 3) with 8.
    f_equal; [lia|]. f_equal; [lia|]. f_equal; [lia|]. f_equal. lia. }
  rewrite Eemb in *. clear Eemb.
  assert (Ee0' : index [e; 2 * e; 4 * e; 8 * e] 0 = Ok e) by reflexivity.
  rewrite Ee0' in Ee0. apply Ok_inj in Ee0. subst e0.
  assert (Enf' : py_index [e; 2 * e; 4 * e; 8 * e] (-1) = Ok (8 * e))
    by reflexivity.
  rewrite Enf' in Enf. apply Ok_inj in Enf. subst nf. clear Enf'.
  apply ConvEmbed_init_inv in Epe. destruct Epe as (-> & _ & Hc & He2 & He).
  (* the encoder stages *)
  cbn [seq mapM] in El.
  inv_bind_as El l0 E0. inv_bind_as El ls0 El0.
  inv_bind_as El0 l1 E1. inv_bind_as El0 ls1 El1.
  inv_bind_as El1 l2 E2. inv_bind_as El1 ls2 El2.
  inv_bind_as El2 l3 E3. inv_bind_as El2 ls3 El3.
  apply Ok_inj in El3, El2, El1, El0, El. subst ls3 ls2 ls1 ls0 layers.
  apply (build_layer_parts _ _ _ _ _ _ _ _ _ _ e d0 h0 (2 * e)) in E0;
    try reflexivity.
  apply (build_layer_parts _ _ _ _ _ _ _ _ _ _ (2 * e) d1 h1 (4 * e)) in E1;
    try reflexivity.
  apply (build_layer_parts _ _ _ _ _ _ _ _ _ _ (4 * e) d2 h2 (8 * e)) in E2;
    try reflexivity.
  apply (build_layer_parts _ _ _ _ _ _ _ _ _ _ (8 * e) d3 h3 0) in E3;
    try reflexivity.
  change (0 <? 4 - 1) with true in E0. change (1 <? 4 - 1) with true in E1.
  change (2 <? 4 - 1) with true in E2. change (3 <? 4 - 1) with false in E3.
  (* the decoder stages *)
  cbn [ConvEmbed.patches_resolution ConvEmbed.num_patches ConvEmbed_made
       fst snd] in *.
  assert (R0 : forall n, 32 * n / 4 = 8 * n).
  { intros n. replace (32 * n) with (8 * n * 4) by lia. apply Nat.div_mul.
    lia. }
  rewrite !R0 in *.
  change (4 - 1) with 3 in Eup. cbn [seq mapM] in Eup.
  inv_bind_as Eup u0 U0. inv_bind_as Eup us0 Eu0.
  inv_bind_as Eu0 u1 U1. inv_bind_as Eu0 us1 Eu1.
  inv_bind_as Eu1 u2 U2. inv_bind_as Eu1 us2 Eu2.
  apply Ok_inj in Eu2, Eu1, Eu0, Eup. subst us2 us1 us0 ups.
  destruct u0 as [up0 cl0]. destruct u1 as [up1 cl1].
  destruct u2 as [up2 cl2].
  apply (build_layer_up_first _ _ _ _ _ _ _ _ e _ _ Ee0') in U0.
  destruct U0 as (p0 & Ep0 & -> & ->).
  apply (build_layer_up_later _ _ _ _ _ _ _ _ 0 e d2 h2 _ _ Ee0') in U1;
    try reflexivity.
  destruct U1 as (b1 & Eb1 & -> & ->).
  apply (build_layer_up_later _ _ _ _ _ _ _ _ 1 e d1 h1 _ _ Ee0') in U2;
    try reflexivity.
  destruct U2 as (b2 & Eb2 & -> & ->).
  cbn [fst snd] in Ep0, Eb1, Eb2.
  change (4 - 1 - 0) with 3 in *. change (4 - 1 - 1) with 2 in *.
  change (4 - 1 - 2) with 1 in *.
  change (2 ^ 3) with 8 in *. change (2 ^ 2) with 4 in *.
  change (2 ^ 1) with 2 in *.
  change (1 <? 4) with true in *. change (2 <? 4) with true in *.
  assert (R3 : forall n, 8 * n / 8 = n)
    by (intros n; rewrite Nat.mul_comm; apply Nat.div_mul; lia).
  assert (R2 : forall n, 8 * n / 4 = 2 * n).
  { intros n. replace (8 * n) with (2 * n * 4) by lia. apply Nat.div_mul.
    lia. }
  rewrite !R3 in Ep0. rewrite !R2 in Eb1. rewrite !div_8_2 in Eb2.
  replace (e * 8) with (8 * e) in * by lia.
  replace (e * 4) with (4 * e) in * by lia.
  replace (e * 2) with (2 * e) in * by lia.
  exists l0, l1, l2, l3, p0, b1, b2.
  repeat split; assumption || reflexivity.
Qed.

(** The encoder of such a model on an image of 32i x 32j pixels. *)
Lemma four_stage_features (i j e in_chans d0 d1 d2 d3 h0 h1 h2 h3
    window_size dwconv_kernel_size mlp_ratio : nat) (qk_scale : bool)
    (l0 l1 l2 l3 : BasicLayer.t) (B : nat)
    (img_size res : nat * nat) (emb : list nat) (oi : list Z) (ape : bool)
    (nf np : nat) (ups : list up_layer) (cbs : list layer)
    (nup act : layer) :
  BasicLayer.init e d0 h0 window_size dwconv_kernel_size mlp_ratio
    qk_scale true (2 * e) = Ok l0 ->
  BasicLayer.init (2 * e) d1 h1 window_size dwconv_kernel_size mlp_ratio
    qk_scale true (4 * e) = Ok l1 ->
  BasicLayer.init (4 * e) d2 h2 window_size dwconv_kernel_size mlp_ratio
    qk_scale true (8 * e) = Ok l2 ->
  BasicLayer.init (8 * e) d3 h3 window_size dwconv_kernel_size mlp_ratio
    qk_scale false 0 = Ok l3 ->
  0 < e -> 1 <= i -> 1 <= j -> 0 < B -> 1 <= window_size ->
  e mod 2 = 0 -> dwconv_kernel_size mod 2 = 1 ->
  (e / 2) mod h0 = 0 -> e mod h1 = 0 -> (2 * e) mod h2 = 0 ->
  (4 * e) mod h3 = 0 ->
  ape = false \/ np = 8 * i * (8 * j) ->
  MixUnet.forward_features
    (MixUnet.mk 4 emb ape nf emb oi
       (ConvEmbed_made img_size 4 in_chans e true) res
       (if ape then Some [1; np; e] else None) Dropout [l0; l1; l2; l3]
       ups cbs (LayerNorm_forward (8 * e)) nup act)
    [B; in_chans; 32 * i; 32 * j]
  = Ok ([B; i * j; 8 * e],
        [[B; 8 * i * (8 * j); e]; [B; 4 * i * (4 * j); 2 * e];
         [B; 2 * i * (2 * j); 4 * e]; [B; i * j; 8 * e]], i, j).
Proof.
  intros E0 E1 E2 E3 He Hi Hj HB Hws Hev Hker Hh0 Hh1 Hh2 Hh3 Hape.
  pose proof (mod_8_2 i) as M8i. pose proof (mod_8_2 j) as M8j.
  pose proof (mod_4_2 i) as M4i. pose proof (mod_4_2 j) as M4j.
  pose proof (double_even i) as M2i. pose proof (double_even j) as M2j.
  assert (C8 : 8 * e / 2 = 4 * e) by apply div_8_2.
  assert (C4 : 4 * e / 2 = 2 * e) by apply div_4_2.
  assert (C2 : 2 * e / 2 = e) by apply half_double.
  pose proof (mod_8_2 e) as N8. pose proof (mod_4_2 e) as N4.
  pose proof (double_even e) as N2.
  unfold MixUnet.forward_features.
  cbn [MixUnet.patch_embed MixUnet.absolute_pos_embed MixUnet.ape
       MixUnet.pos_drop MixUnet.layers MixUnet.norm MixUnet.num_layers].
  replace (32 * i) with (4 * (8 * i)) by lia.
  replace (32 * j) with (4 * (8 * j)) by lia.
  rewrite ConvEmbed_forward_patch4 by lia. cbn [bind].
  unfold flatten. cbn [length Nat.ltb Nat.leb check bind firstn skipn app
                       prod fold_right].
  rewrite Nat.mul_1_r.
  replace (transpose [0; 2; 1] [B; e; 8 * i * (8 * j)])
    with (Ok [B; 8 * i * (8 * j); e]) by reflexivity.
  cbn [bind].
  assert (Eape : (match (if ape then Some [1; np; e] else None) with
                  | Some p =>
                      if ape then broadcast [B; 8 * i * (8 * j); e] p
                      else Ok [B; 8 * i * (8 * j); e]
                  | None => Ok [B; 8 * i * (8 * j); e]
                  end) = Ok [B; 8 * i * (8 * j); e]).
  { destruct ape; [|reflexivity].
    destruct Hape as [Hf | ->]; [discriminate Hf | apply broadcast_lead1_3]. }
  rewrite Eape. clear Eape. unfold Dropout at 1. cbn [bind MixUnet.encode].
  rewrite (BasicLayer_forward_ok _ _ _ _ _ _ _ _ _ _ B (8 * i) (8 * j) E0)
    by (first [assumption | lia | intros _; split; assumption]).
  cbn [bind]. rewrite !div_8_2.
  rewrite (BasicLayer_forward_ok _ _ _ _ _ _ _ _ _ _ B (4 * i) (4 * j) E1)
    by (first [assumption | lia | intros _; split; assumption
              | rewrite C2; assumption]).
  cbn [bind]. rewrite !div_4_2.
  rewrite (BasicLayer_forward_ok _ _ _ _ _ _ _ _ _ _ B (2 * i) (2 * j) E2)
    by (first [assumption | lia | intros _; split; assumption
              | rewrite C4; assumption]).
  cbn [bind]. rewrite !half_double.
  rewrite (BasicLayer_forward_ok _ _ _ _ _ _ _ _ _ _ B i j E3)
    by (first [assumption | lia | discriminate
              | rewrite C8; assumption]).
  cbn [bind app]. rewrite LayerNorm_forward_3. reflexivity.
Qed.

(** The decoder of such a model, built for the resolution a x b at the
    bottleneck, on any list of skip tensors. *)
Section FourStageDecoder.

Variables (a b e d1 d2 h1 h2 window_size mlp_ratio : nat).
Variable qk_scale : bool.
Variable p0 : PatchExpand.t.
Variables b1 b2 : BasicLayer_up.t.
Variable self : MixUnet.t.
Variable B : nat.

Hypothesis Ep0 : PatchExpand.init (a, b) (8 * e) 2 = Ok p0.
Hypothesis Eb1 :
  BasicLayer_up.init (4 * e) (2 * a, 2 * b) d2 h2 window_size 3 mlp_ratio
    qk_scale true = Ok b1.
Hypothesis Eb2 :
  BasicLayer_up.init (2 * e) (4 * a, 4 * b) d1 h1 window_size 3 mlp_ratio
    qk_scale true = Ok b2.
Hypothesis Hact : MixUnet.activate self = ReLU.
Hypothesis Hups :
  MixUnet.layers_up self = [UpExpand p0; UpBasic b1; UpBasic b2].
Hypothesis Hcb :
  MixUnet.concat_back_dim self
  = [Identity; Linear_forward (2 * (4 * e)) (4 * e);
     Linear_forward (2 * (2 * e)) (2 * e)].
Hypothesis He : 0 < e.
Hypothesis Ha : 1 <= a.
Hypothesis Hb : 1 <= b.
Hypothesis HB : 0 < B.
Hypothesis Hws : 1 <= window_size.
Hypothesis Hev : e mod 2 = 0.
Hypothesis Hh1 : e mod h1 = 0.
Hypothesis Hh2 : (2 * e) mod h2 = 0.

(** Stage 0 expands the bottleneck and collects it as a square map. *)
Lemma four_stage_decode_0 (xd : list (list nat)) :
  MixUnet.forward_up_features self [B; a * b; 8 * e] xd a b
  = (r <- (x_ilayer <- MixUnet.to_spatial self [B; a * b; 8 * e] ;;
           MixUnet.decode self [UpBasic b1; UpBasic b2] 1
             [B; 2 * a * (2 * b); 4 * e] xd (a * 2) (b * 2)
             (Some x_ilayer) [x_ilayer]) ;;
     match fst r with
     | Some x_ilayer => Ok (x_ilayer, snd r)
     | None => Raise (UnboundLocalError "x_ilayer")
     end).
Proof.
  unfold MixUnet.forward_up_features. rewrite Hups, decode_first.
  rewrite (PatchExpand_forward_shape a b (8 * e) B p0 Ep0)
    by (first [assumption | lia | apply mod_8_2]).
  cbn [bind app].
  replace (2 * (8 * e) / 4) with (4 * e)
    by (replace (2 * (8 * e)) with (4 * e * 4) by lia;
        rewrite Nat.div_mul by lia; reflexivity).
  destruct (MixUnet.to_spatial self [B; a * b; 8 * e]) as [xi|err];
    [|reflexivity].
  cbn [bind].
  destruct (MixUnet.decode self [UpBasic b1; UpBasic b2] 1
              [B; 2 * a * (2 * b); 4 * e] xd (a * 2) (b * 2) (Some xi) [xi])
    as [[xi' xl']|err]; reflexivity.
Qed.

(** A token count that is not a perfect square stops the decoder at its
    first reshape, before any skip tensor is read. *)
Lemma four_stage_decode_not_square (xd : list (list nat)) :
  Nat.sqrt (a * b) * Nat.sqrt (a * b) <> a * b ->
  MixUnet.forward_up_features self [B; a * b; 8 * e] xd a b
  = Raise (ValueError "reshape: size mismatch").
Proof.
  intros Hsq. rewrite four_stage_decode_0.
  rewrite to_spatial_not_square by (first [assumption | nia]).
  reflexivity.
Qed.

(** The stages 1 and 2, given the skip tensors they read. *)
Lemma four_stage_decode_1 (xd : list (list nat)) (s : list nat)
    (xi : list nat) (xl : list (list nat)) :
  Nat.sqrt (a * b) * Nat.sqrt (a * b) = a * b ->
  nth_error xd 2 = Some s ->
  MixUnet.decode self [UpBasic b1; UpBasic b2] 1
    [B; 2 * a * (2 * b); 4 * e] xd (a * 2) (b * 2) (Some xi) xl
  = (x1 <- concat [[B; 2 * a * (2 * b); 4 * e]; s] (-1) ;;
     x2 <- Linear_forward (2 * (4 * e)) (4 * e) x1 ;;
     r <- BasicLayer_up.forward b1 x2 (a * 2) (b * 2) ;;
     x_ilayer <- MixUnet.to_spatial self (snd r) ;;
     MixUnet.decode self [UpBasic b2] 2 (fst r) xd (a * 2 * 2) (b * 2 * 2)
       (Some x_ilayer) (xl ++ [x_ilayer])).
Proof.
  intros Hsq Hs. rewrite decode_later.
  destruct (skip_index xd) as [-> _].
  apply index_nth_error in Hs. rewrite Hs. cbn [bind].
  rewrite Hcb. unfold index at 1. cbn [nth_error bind]. reflexivity.
Qed.

Lemma four_stage_decode_2 (xd : list (list nat)) (s : list nat)
    (xi : list nat) (xl : list (list nat)) :
  nth_error xd 1 = Some s ->
  MixUnet.decode self [UpBasic b2] 2
    [B; 4 * a * (4 * b); 2 * e] xd (a * 2 * 2) (b * 2 * 2) (Some xi) xl
  = (x1 <- concat [[B; 4 * a * (4 * b); 2 * e]; s] (-1) ;;
     x2 <- Linear_forward (2 * (2 * e)) (2 * e) x1 ;;
     r <- BasicLayer_up.forward b2 x2 (a * 2 * 2) (b * 2 * 2) ;;
     x_ilayer <- MixUnet.to_spatial self (snd r) ;;
     Ok (Some x_ilayer, xl ++ [x_ilayer])).
Proof.
  intros Hs. rewrite decode_later.
  destruct (skip_index xd) as [_ ->].
  apply index_nth_error in Hs. rewrite Hs. cbn [bind].
  rewrite Hcb. unfold index at 1. cbn [nth_error bind].
  destruct (concat [[B; 4 * a * (4 * b); 2 * e]; s] (-1)) as [x1|err];
    [|reflexivity].
  cbn [bind].
  destruct (Linear_forward (2 * (2 * e)) (2 * e) x1) as [x2|err];
    [|reflexivity].
  cbn [bind].
  destruct (BasicLayer_up.forward b2 x2 (a * 2 * 2) (b * 2 * 2))
    as [r|err]; [|reflexivity].
  cbn [bind].
  destruct (MixUnet.to_spatial self (snd r)) as [x_ilayer|err];
    reflexivity.
Qed.

Lemma BasicLayer_up_b1 :
  BasicLayer_up.forward b1 [B; 2 * a * (2 * b); 4 * e] (a * 2) (b * 2)
  = Ok ([B; 4 * a * (4 * b); 2 * e], [B; 2 * a * (2 * b); 4 * e]).
Proof.
  replace (a * 2) with (2 * a) by lia. replace (b * 2) with (2 * b) by lia.
  rewrite (BasicLayer_up_forward_ok _ _ _ _ _ _ _ _ _ _ _ B Eb1)
    by (first [assumption | lia | reflexivity | apply mod_4_2
              | rewrite div_4_2; assumption]).
  rewrite div_4_2.
  replace (2 * (2 * a)) with (4 * a) by lia.
  replace (2 * (2 * b)) with (4 * b) by lia. reflexivity.
Qed.

Lemma BasicLayer_up_b2 :
  BasicLayer_up.forward b2 [B; 4 * a * (4 * b); 2 * e] (a * 2 * 2)
    (b * 2 * 2)
  = Ok ([B; 8 * a * (8 * b); e], [B; 4 * a * (4 * b); 2 * e]).
Proof.
  replace (a * 2 * 2) with (4 * a) by lia.
  replace (b * 2 * 2) with (4 * b) by lia.
  rewrite (BasicLayer_up_forward_ok _ _ _ _ _ _ _ _ _ _ _ B Eb2)
    by (first [assumption | lia | reflexivity | apply double_even
              | rewrite half_double; assumption]).
  rewrite half_double.
  replace (2 * (4 * a)) with (8 * a) by lia.
  replace (2 * (4 * b)) with (8 * b) by lia. reflexivity.
Qed.

(** With the skip tensors of matching shape at the indices 2 and 1, the
    decoder returns three square maps whose side is the square root of the
    token count. *)
Lemma four_stage_decode_ok (xd : list (list nat)) :
  let r := Nat.sqrt (a * b) in
  r * r = a * b ->
  nth_error xd 2 = Some [B; 2 * a * (2 * b); 4 * e] ->
  nth_error xd 1 = Some [B; 4 * a * (4 * b); 2 * e] ->
  MixUnet.forward_up_features self [B; a * b; 8 * e] xd a b
  = Ok ([B; 2 * e; 4 * r; 4 * r],
        [[B; 8 * e; r; r]; [B; 4 * e; 2 * r; 2 * r];
         [B; 2 * e; 4 * r; 4 * r]]).
Proof.
  intros r Hsq Hs2 Hs1. subst r.
  assert (S1 : Nat.sqrt (2 * a * (2 * b)) = 2 * Nat.sqrt (a * b)).
  { replace (2 * a * (2 * b)) with (2 * 2 * (a * b)) by lia.
    apply sqrt_scaled. exact Hsq. }
  assert (S2 : Nat.sqrt (4 * a * (4 * b)) = 4 * Nat.sqrt (a * b)).
  { replace (4 * a * (4 * b)) with (4 * 4 * (a * b)) by lia.
    apply sqrt_scaled. exact Hsq. }
  rewrite four_stage_decode_0.
  rewrite to_spatial_sqrt by (first [assumption | nia]).
  cbn [bind].
  rewrite (four_stage_decode_1 xd _ _ _ Hsq Hs2).
  rewrite concat_last_3. cbn [bind].
  replace (4 * e + 4 * e) with (2 * (4 * e)) by lia.
  rewrite Linear_forward_3. cbn [bind].
  rewrite BasicLayer_up_b1. cbn [bind fst snd].
  rewrite to_spatial_sqrt by (first [assumption | nia]).
  cbn [bind]. rewrite S1.
  rewrite (four_stage_decode_2 xd _ _ _ Hs1).
  rewrite concat_last_3. cbn [bind].
  replace (2 * e + 2 * e) with (2 * (2 * e)) by lia.
  rewrite Linear_forward_3. cbn [bind].
  rewrite BasicLayer_up_b2. cbn [bind fst snd].
  rewrite to_spatial_sqrt by (first [assumption | nia]).
  cbn [bind app]. rewrite S2. reflexivity.
Qed.

(** Conversely, the decoder returns only if the skip tensors at the indices
    2 = 3 - 1 and 1 = 3 - 2 have the shape of the tensor they are
    concatenated with: the token count and the working width of the
    stage. *)
Lemma four_stage_decode_inv (xd : list (list nat))
    (out : list nat * list (list nat)) :
  Nat.sqrt (a * b) * Nat.sqrt (a * b) = a * b ->
  MixUnet.forward_up_features self [B; a * b; 8 * e] xd a b = Ok out ->
  nth_error xd 2 = Some [B; 2 * a * (2 * b); 4 * e] /\
  nth_error xd 1 = Some [B; 4 * a * (4 * b); 2 * e].
Proof.
  intros Hsq H.
  assert (S1 : Nat.sqrt (2 * a * (2 * b)) = 2 * Nat.sqrt (a * b)).
  { replace (2 * a * (2 * b)) with (2 * 2 * (a * b)) by lia.
    apply sqrt_scaled. exact Hsq. }
  rewrite four_stage_decode_0 in H.
  rewrite to_spatial_sqrt in H by (first [assumption | nia]).
  cbn [bind] in H. inv_bind_as H r Er.
  (* stage 1 *)
  rewrite decode_later in Er.
  destruct (skip_index xd) as [Sk1 Sk2]. rewrite Sk1 in Er.
  inv_bind_as Er s2 Es2. apply index_nth_error in Es2.
  inv_bind_as Er x1 Ex1. apply concat_last_3_shape in Ex1.
  destruct Ex1 as (c2 & -> & ->).
  rewrite Hcb in Er. unfold index at 1 in Er. cbn [nth_error bind] in Er.
  inv_bind_as Er x2 Ex2. apply Linear_forward_inv in Ex2.
  destruct Ex2 as (pre & Epre & ->).
  symmetry in Epre. apply app_last_3 in Epre. destruct Epre as [-> Ec2].
  assert (c2 = 4 * e) by lia. subst c2. clear Ec2. cbn [app] in Er.
  rewrite BasicLayer_up_b1 in Er. cbn [bind fst snd] in Er.
  rewrite to_spatial_sqrt in Er by (first [assumption | nia]).
  cbn [bind] in Er.
  (* stage 2 *)
  rewrite decode_later in Er. rewrite Sk2 in Er.
  inv_bind_as Er s1 Es1. apply index_nth_error in Es1.
  inv_bind_as Er y1 Ey1. apply concat_last_3_shape in Ey1.
  destruct Ey1 as (c1 & -> & ->).
  rewrite Hcb in Er. unfold index at 1 in Er. cbn [nth_error bind] in Er.
  inv_bind_as Er y2 Ey2. apply Linear_forward_inv in Ey2.
  destruct Ey2 as (pre & Epre & ->).
  symmetry in Epre. apply app_last_3 in Epre. destruct Epre as [-> Ec1].
  assert (c1 = 2 * e) by lia. subst c1.
  split; assumption.
Qed.

End FourStageDecoder.

(** A four-stage model built for images of 32a x 32b pixels, on such an
    image: what the encoder returns, and what the decoder does with any
    list of skip tensors. *)
Lemma four_stage_model (a b e in_chans d0 d1 d2 d3 h0 h1 h2 h3
    window_size dwconv_kernel_size mlp_ratio : nat) (qk_scale : bool)
    (out_indices : list Z) (ape : bool) (self : MixUnet.t) (B : nat) :
  MixUnet.init (32 * a, 32 * b) 4 in_chans (inl e) [d0; d1; d2; d3]
    [h0; h1; h2; h3] window_size dwconv_kernel_size mlp_ratio qk_scale
    out_indices ape true = Ok self ->
  1 <= a -> 1 <= b -> 0 < B -> 1 <= window_size ->
  e mod 2 = 0 -> dwconv_kernel_size mod 2 = 1 ->
  (e / 2) mod h0 = 0 -> e mod h1 = 0 -> (2 * e) mod h2 = 0 ->
  (4 * e) mod h3 = 0 ->
  let x := [B; a * b; 8 * e] in
  let s0 := [B; 8 * a * (8 * b); e] in
  let s1 := [B; 4 * a * (4 * b); 2 * e] in
  let s2 := [B; 2 * a * (2 * b); 4 * e] in
  let s3 := [B; a * b; 8 * e] in
  let r := Nat.sqrt (a * b) in
  MixUnet.num_layers self = 4 /\
  MixUnet.forward_features self [B; in_chans; 32 * a; 32 * b]
    = Ok (x, [s0; s1; s2; s3], a, b) /\
  (forall xd, r * r = a * b ->
     nth_error xd 2 = Some s2 -> nth_error xd 1 = Some s1 ->
     MixUnet.forward_up_features self x xd a b
     = Ok ([B; 2 * e; 4 * r; 4 * r],
           [[B; 8 * e; r; r]; [B; 4 * e; 2 * r; 2 * r];
            [B; 2 * e; 4 * r; 4 * r]])) /\
  (forall xd out, r * r = a * b ->
     MixUnet.forward_up_features self x xd a b = Ok out ->
     nth_error xd 2 = Some s2 /\ nth_error xd 1 = Some s1) /\
  (forall xd, r * r <> a * b ->
     MixUnet.forward_up_features self x xd a b
     = Raise (ValueError "reshape: size mismatch")).
Proof.
  intros Hinit Ha Hb HB Hws Hev Hker Hh0 Hh1 Hh2 Hh3.
  apply four_stage_parts in Hinit.
  destruct Hinit as (l0 & l1 & l2 & l3 & p0 & b1 & b2 & E0 & E1 & E2 & E3
                     & Ep0 & Eb1 & Eb2 & He & ->).
  cbv zeta.
  split; [reflexivity|]. split.
  { apply (four_stage_features a b e in_chans d0 d1 d2 d3 h0 h1 h2 h3
             window_size dwconv_kernel_size mlp_ratio qk_scale l0 l1 l2 l3 B);
      first [assumption | right; reflexivity]. }
  match goal with
  | |- context [MixUnet.forward_up_features ?s _ _ _ _] => set (self := s)
  end.
  assert (Hact : MixUnet.activate self = ReLU) by reflexivity.
  assert (Hups : MixUnet.layers_up self
                 = [UpExpand p0; UpBasic b1; UpBasic b2]) by reflexivity.
  assert (Hcb : MixUnet.concat_back_dim self
                = [Identity; Linear_forward (2 * (4 * e)) (4 * e);
                   Linear_forward (2 * (2 * e)) (2 * e)]) by reflexivity.
  clearbody self.
  split; [|split].
  - intros xd Hsq Hs2 Hs1.
    apply (four_stage_decode_ok a b e d1 d2 h1 h2 window_size mlp_ratio
             qk_scale p0 b1 b2 self B); assumption.
  - intros xd out Hsq Hout.
    apply (four_stage_decode_inv a b e d2 h1 h2 window_size mlp_ratio
             qk_scale p0 b1 b2 self B) with (out := out); assumption.
  - intros xd Hsq.
    apply (four_stage_decode_not_square a b e h1 h2 window_size p0 b1 b2
             self B); assumption.
Qed.

(** X22. End to end, for every four-stage model built for square images of
    side 32k with patch size 4, a window size of at least 1 and an integer,
    even [embed_dim] e, with an odd convolution kernel and head counts
    dividing half the width of their stage, the forward pass on a
    (B, in_chans, 32k, 32k) image returns the three maps (B, 2e, 4k, 4k),
    (B, 4e, 2k, 2k) and (B, 8e, k, k), the inputs of the decoder at strides
    8, 16 and 32, whatever the depths, the window size, [ape] and
    [out_indices] are. *)
Theorem MixUnet_forward_four_stages (k e in_chans d0 d1 d2 d3 h0 h1 h2 h3
    window_size dwconv_kernel_size mlp_ratio : nat) (qk_scale : bool)
    (out_indices : list Z) (ape : bool) (self : MixUnet.t) (B : nat) :
  MixUnet.init (32 * k, 32 * k) 4 in_chans (inl e) [d0; d1; d2; d3]
    [h0; h1; h2; h3] window_size dwconv_kernel_size mlp_ratio qk_scale
    out_indices ape true = Ok self ->
  1 <= k -> 0 < B -> 1 <= window_size ->
  e mod 2 = 0 -> dwconv_kernel_size mod 2 = 1 ->
  (e / 2) mod h0 = 0 -> e mod h1 = 0 -> (2 * e) mod h2 = 0 ->
  (4 * e) mod h3 = 0 ->
  MixUnet.forward self [B; in_chans; 32 * k; 32 * k]
  = Ok [[B; 2 * e; 4 * k; 4 * k]; [B; 4 * e; 2 * k; 2 * k];
        [B; 8 * e; k; k]].
Proof.
  intros Hinit Hk HB Hws Hev Hker Hh0 Hh1 Hh2 Hh3.
  pose proof (four_stage_model k k e in_chans d0 d1 d2 d3 h0 h1 h2 h3
                window_size dwconv_kernel_size mlp_ratio qk_scale out_indices
                ape self B Hinit Hk Hk HB Hws Hev Hker Hh0 Hh1 Hh2 Hh3) as M.
  cbv zeta in M. destruct M as (Hn & Hff & Hup & _).
  rewrite Nat.sqrt_square in Hup.
  unfold MixUnet.forward. rewrite Hff. cbn [bind].
  rewrite Hup by reflexivity. cbn [bind]. rewrite Hn. reflexivity.
Qed.

(** X23. The same model, without absolute position embedding, is tied to
    the image size it was built for: on a square image of another side 32j
    the encoder runs through, and the first decoder stage, a [PatchExpand]
    constructed for the resolution k x k, raises the assertion "input
    feature has wrong size". *)
Theorem MixUnet_forward_other_image_size (k j e in_chans d0 d1 d2 d3 h0 h1
    h2 h3 window_size dwconv_kernel_size mlp_ratio : nat) (qk_scale : bool)
    (out_indices : list Z) (self : MixUnet.t) (B : nat) :
  MixUnet.init (32 * k, 32 * k) 4 in_chans (inl e) [d0; d1; d2; d3]
    [h0; h1; h2; h3] window_size dwconv_kernel_size mlp_ratio qk_scale
    out_indices false true = Ok self ->
  1 <= j -> j <> k ->
  0 < B -> 1 <= window_size ->
  e mod 2 = 0 -> dwconv_kernel_size mod 2 = 1 ->
  (e / 2) mod h0 = 0 -> e mod h1 = 0 -> (2 * e) mod h2 = 0 ->
  (4 * e) mod h3 = 0 ->
  MixUnet.forward self [B; in_chans; 32 * j; 32 * j]
  = Raise (AssertionError "input feature has wrong size").
Proof.
  intros Hinit Hj Hjk HB Hws Hev Hker Hh0 Hh1 Hh2 Hh3.
  apply four_stage_parts in Hinit.
  destruct Hinit as (l0 & l1 & l2 & l3 & p0 & b1 & b2 & E0 & E1 & E2 & E3
                     & Ep0 & Eb1 & Eb2 & He & ->).
  unfold MixUnet.forward.
  pose proof (four_stage_features j j e in_chans d0 d1 d2 d3 h0 h1 h2 h3
                window_size dwconv_kernel_size mlp_ratio qk_scale l0 l1 l2 l3
                B (32 * k, 32 * k) (8 * k, 8 * k) [e; 2 * e; 4 * e; 8 * e]
                out_indices false (8 * e) (8 * k * (8 * k))
                [UpExpand p0; UpBasic b1; UpBasic b2]
                [Identity; Linear_forward (2 * (4 * e)) (4 * e);
                 Linear_forward (2 * (2 * e)) (2 * e)]
                (LayerNorm_forward e) ReLU
                E0 E1 E2 E3 He Hj Hj HB Hws Hev Hker Hh0 Hh1 Hh2 Hh3
                (or_introl eq_refl)) as F.
  cbv iota in F. rewrite F. clear F.
  cbn [bind].
  unfold MixUnet.forward_up_features.
  cbn [MixUnet.layers_up MixUnet.decode Nat.eqb].
  apply PatchExpand_init_inv in Ep0. destruct Ep0 as [-> _].
  rewrite PatchExpand_forward_wrong_size by (cbn [fst snd]; nia).
  reflexivity.
Qed.

Lemma MixUnet_forward_four_stages_witness :
  exists self,
    MixUnet_224 [] = Ok self /\
    MixUnet.forward self [1; 3; 32 * 7; 32 * 7]
    = Ok [[1; 2 * 24; 4 * 7; 4 * 7]; [1; 4 * 24; 2 * 7; 2 * 7];
          [1; 8 * 24; 7; 7]].
Proof.
  destruct MixUnet_224_run as (s0 & E0 & _).
  exists s0. split; [exact E0|].
  apply (MixUnet_forward_four_stages 7 24 3 2 2 6 2 3 6 12 24 7 3 4 false []
           false s0 1 E0);
    first [lia | reflexivity].
Defined.

Lemma MixUnet_forward_other_image_size_witness :
  exists self,
    MixUnet_224 [] = Ok self /\
    MixUnet.forward self [1; 3; 32 * 20; 32 * 20]
    = Raise (AssertionError "input feature has wrong size").
Proof.
  destruct MixUnet_224_run as (s0 & E0 & _).
  exists s0. split; [exact E0|].
  apply (MixUnet_forward_other_image_size 7 20 24 3 2 2 6 2 3 6 12 24 7 3 4
           false [] s0 1 E0);
    first [lia | reflexivity].
Defined.

(** ** Skip connections and the spatial form of the decoder outputs *)

(** Every map that [to_spatial] returns is square: both sides are
    [int(sqrt(L))].  (With no token at all, L = 0, the 0 in the target of
    the reshape copies the dimensions of the input and the map is empty.) *)
Lemma to_spatial_square_map (self : MixUnet.t) (output y : list nat) :
  MixUnet.activate self = ReLU ->
  MixUnet.to_spatial self output = Ok y ->
  square_map y.
Proof.
  intros Hact H. unfold MixUnet.to_spatial in H.
  destruct output as [|B [|L [|C [|? ?]]]]; try discriminate H.
  rewrite Hact in H. cbn [ReLU bind reshape transpose shape_tensor] in H.
  inv_bind_as H s Es.
  assert (H0 : Nat.sqrt L = 0 -> L = 0).
  { intros E. destruct L as [|L']; [reflexivity|].
    pose proof (Nat.sqrt_spec (S L') ltac:(lia)) as [_ Hs].
    rewrite E in Hs. simpl in Hs. lia. }
  unfold reshape_shape in Es.
  destruct (Nat.sqrt L) as [|r] eqn:Er.
  - specialize (H0 eq_refl). subst L.
    destruct B as [|B'], C as [|C'];
      cbn [copy_dims nth_error bind count_infer known_size fill map] in Es;
      try discriminate Es;
      match type of Es with
      | (if ?c then _ else _) = _ => destruct c; [|discriminate Es]
      end;
      apply Ok_inj in Es; subst s;
      match type of H with
      | transpose_shape _ [?x0; ?x1; ?x2; ?x3] = _ =>
          change (Ok [x0; x3; x1; x2] = Ok y) in H
      end;
      apply Ok_inj in H; subst y;
      do 4 eexists; (split; [reflexivity | intros Hh; lia]).
  - destruct B as [|B'], C as [|C'];
      cbn [copy_dims nth_error bind count_infer known_size fill map] in Es;
      try discriminate Es;
      match type of Es with
      | (if ?c then _ else _) = _ => destruct c; [|discriminate Es]
      end;
      apply Ok_inj in Es; subst s;
      match type of H with
      | transpose_shape _ [?x0; ?x1; ?x2; ?x3] = _ =>
          change (Ok [x0; x3; x1; x2] = Ok y) in H
      end;
      apply Ok_inj in H; subst y;
      do 4 eexists; (split; [reflexivity | intros Hh; reflexivity]).
Qed.

Lemma decode_square_maps (self : MixUnet.t) (layers_up : list up_layer) :
  MixUnet.activate self = ReLU ->
  forall inx x xd Wh Ww xi xl xi' xl',
    Forall square_map xl ->
    MixUnet.decode self layers_up inx x xd Wh Ww xi xl = Ok (xi', xl') ->
    Forall square_map xl'.
Proof.
  intros Hact.
  induction layers_up as [|u rest IH];
    intros inx x xd Wh Ww xi xl xi' xl' Hxl H; cbn [MixUnet.decode] in H.
  - apply Ok_inj in H. injection H as _ <-. exact Hxl.
  - inv_bind_as H r Er. destruct r as [x1 x_il]. cbn beta iota in H.
    assert (Hsq : square_map x_il).
    { destruct (inx =? 0).
      - inv_bind_as Er x2 E2. inv_bind_as Er x3 E3.
        apply Ok_inj in Er. injection Er as _ <-.
        apply (to_spatial_square_map self x). exact Hact. exact E3.
      - inv_bind_as Er s Es. inv_bind_as Er x2 E2. inv_bind_as Er bk Ebk.
        inv_bind_as Er x3 E3. inv_bind_as Er r Ebl.
        destruct r as [x4 output]. cbn beta iota in Er.
        inv_bind_as Er x5 E5. apply Ok_inj in Er. injection Er as _ <-.
        apply (to_spatial_square_map self output). exact Hact. exact E5. }
    apply (IH _ _ _ _ _ _ _ _ _) in H; [exact H|].
    apply Forall_app. split; [exact Hxl|].
    constructor; [exact Hsq | constructor].
Qed.

Lemma forward_up_features_square_maps (self : MixUnet.t) (x : list nat)
    (xd : list (list nat)) (Wh Ww : nat) (x_ilayer : list nat)
    (x_list : list (list nat)) :
  MixUnet.activate self = ReLU ->
  MixUnet.forward_up_features self x xd Wh Ww = Ok (x_ilayer, x_list) ->
  Forall square_map x_list.
Proof.
  intros Hact H. unfold MixUnet.forward_up_features in H.
  inv_bind_as H r Er. destruct r as [xi xl]. cbn beta iota in H.
  destruct xi as [xi|]; [|discriminate H].
  apply Ok_inj in H. injection H as _ <-.
  apply (decode_square_maps self _ Hact _ _ _ _ _ _ _ _ _ (Forall_nil _) Er).
Qed.

(** One run of a four-stage model built for 32 x 128 images: the maps of
    its stages are 8 x 32, 4 x 16, 2 x 8 and 1 x 4. *)
Lemma MixUnet_32x128_run :
  exists self,
    MixUnet.init (32, 128) 4 3 (inl 24) [2; 2; 6; 2] [3; 6; 12; 24] 7 3 4
      false [1; 2; 3]%Z false true = Ok self /\
    MixUnet.forward_features self [1; 3; 32; 128]
      = Ok ([1; 1 * 4; 192],
            [[1; 8 * 32; 24]; [1; 4 * 16; 48]; [1; 2 * 8; 96];
             [1; 1 * 4; 192]], 1, 4) /\
    MixUnet.forward_up_features self [1; 1 * 4; 192]
      [[1; 8 * 32; 24]; [1; 4 * 16; 48]; [1; 2 * 8; 96]; [1; 1 * 4; 192]]
      1 4
    = Ok ([1; 48; 8; 8], [[1; 192; 2; 2]; [1; 96; 4; 4]; [1; 48; 8; 8]]).
Proof.
  assert (F :
    (s <- MixUnet.init (32, 128) 4 3 (inl 24) [2; 2; 6; 2] [3; 6; 12; 24]
            7 3 4 false [1; 2; 3]%Z false true ;;
     ff <- MixUnet.forward_features s [1; 3; 32; 128] ;;
     up <- (let '(x, x_downsample, Wh, Ww) := ff in
            MixUnet.forward_up_features s x x_downsample Wh Ww) ;;
     Ok (ff, up))
    = Ok (([1; 4; 192],
           [[1; 256; 24]; [1; 64; 48]; [1; 16; 96]; [1; 4; 192]], 1, 4),
          ([1; 48; 8; 8], [[1; 192; 2; 2]; [1; 96; 4; 4]; [1; 48; 8; 8]])))
    by (vm_compute; reflexivity).
  destruct (MixUnet.init (32, 128) 4 3 (inl 24) [2; 2; 6; 2] [3; 6; 12; 24]
              7 3 4 false [1; 2; 3]%Z false true) as [s|e];
    [|discriminate F].
  exists s. cbn [bind] in F.
  apply bind_ok in F. destruct F as [ff [Eff F]].
  apply bind_ok in F. destruct F as [up [Eup F]].
  apply Ok_inj in F. injection F as E1 E2. subst ff up.
  split; [reflexivity|]. split; [exact Eff | exact Eup].
Qed.

(** C10, as stated, fails: a stage whose map is not square does not make the
    reshape invalid.  In a model built for 32 x 128 images the decoder
    outputs belong to maps of 1 x 4, 2 x 8 and 4 x 16 tokens;
    [forward_up_features] returns them, without any error, as maps of
    2 x 2, 4 x 4 and 8 x 8, and so does [forward]. *)
Lemma non_square_stage_is_reshaped_to_square :
  exists self x x_downsample,
    MixUnet.init (32, 128) 4 3 (inl 24) [2; 2; 6; 2] [3; 6; 12; 24] 7 3 4
      false [1; 2; 3]%Z false true = Ok self /\
    MixUnet.forward_features self [1; 3; 32; 128]
      = Ok (x, x_downsample, 1, 4) /\
    MixUnet.forward_up_features self x x_downsample 1 4
    = Ok ([1; 48; 8; 8], [[1; 192; 2; 2]; [1; 96; 4; 4]; [1; 48; 8; 8]]) /\
    MixUnet.forward self [1; 3; 32; 128]
    = Ok [[1; 48; 8; 8]; [1; 96; 4; 4]; [1; 192; 2; 2]].
Proof.
  destruct MixUnet_32x128_run as (s & E & Hff & Hup).
  exists s. do 2 eexists. split; [exact E|]. split; [exact Hff|].
  split; [exact Hup|].
  unfold MixUnet.forward. rewrite Hff. cbn [bind]. rewrite Hup. cbn [bind].
  apply MixUnet_init_activate in E. destruct E as (_ & -> & _).
  reflexivity.
Qed.

(** C10 (amended). [forward_up_features] reshapes every collected decoder
    output of L tokens to a map with H = W = int(sqrt(L)): every map it
    returns, for any constructed model and any arguments, is square.  For
    a four-stage model built for images of 32a x 32b pixels (patch size 4,
    integer even [embed_dim] e, window size at least 1, odd kernel, heads
    dividing the attention widths), whose stages have maps of a x b, 2a x 2b and 4a x 4b
    tokens: when a * b is a perfect square r * r the decoder returns the
    maps (B, 8e, r, r), (B, 4e, 2r, 2r) and (B, 2e, 4r, 4r), square also
    when a <> b; when a * b is not a perfect square the first reshape
    raises; and the returned maps have the resolutions of the stages
    exactly when a = b. *)
Theorem forward_up_features_returns_square_maps (a b e in_chans d0 d1 d2 d3
    h0 h1 h2 h3 window_size dwconv_kernel_size mlp_ratio : nat)
    (qk_scale : bool) (out_indices : list Z) (ape : bool)
    (self : MixUnet.t) (B : nat) :
  MixUnet.init (32 * a, 32 * b) 4 in_chans (inl e) [d0; d1; d2; d3]
    [h0; h1; h2; h3] window_size dwconv_kernel_size mlp_ratio qk_scale
    out_indices ape true = Ok self ->
  1 <= a -> 1 <= b -> 0 < B -> 1 <= window_size ->
  e mod 2 = 0 -> dwconv_kernel_size mod 2 = 1 ->
  (e / 2) mod h0 = 0 -> e mod h1 = 0 -> (2 * e) mod h2 = 0 ->
  (4 * e) mod h3 = 0 ->
  let x := [B; a * b; 8 * e] in
  let x_downsample :=
    [[B; 8 * a * (8 * b); e]; [B; 4 * a * (4 * b); 2 * e];
     [B; 2 * a * (2 * b); 4 * e]; [B; a * b; 8 * e]] in
  let r := Nat.sqrt (a * b) in
  let maps :=
    [[B; 8 * e; r; r]; [B; 4 * e; 2 * r; 2 * r]; [B; 2 * e; 4 * r; 4 * r]] in
  (forall img_size' patch_size' in_chans' embed_dim' depths' num_heads'
          window_size' dwconv_kernel_size' mlp_ratio' qk_scale' out_indices'
          ape' patch_norm' self' x' xd' Wh Ww x_ilayer x_list,
     MixUnet.init img_size' patch_size' in_chans' embed_dim' depths'
       num_heads' window_size' dwconv_kernel_size' mlp_ratio' qk_scale'
       out_indices' ape' patch_norm' = Ok self' ->
     MixUnet.forward_up_features self' x' xd' Wh Ww
       = Ok (x_ilayer, x_list) ->
     Forall square_map x_list) /\
  MixUnet.forward_features self [B; in_chans; 32 * a; 32 * b]
    = Ok (x, x_downsample, a, b) /\
  (r * r = a * b ->
   MixUnet.forward_up_features self x x_downsample a b
   = Ok ([B; 2 * e; 4 * r; 4 * r], maps)) /\
  (r * r <> a * b ->
   exists msg,
     MixUnet.forward_up_features self x x_downsample a b
     = Raise (ValueError msg)) /\
  (maps = [[B; 8 * e; a; b]; [B; 4 * e; 2 * a; 2 * b];
           [B; 2 * e; 4 * a; 4 * b]] <-> a = b).
Proof.
  intros Hinit Ha Hb HB Hws Hev Hker Hh0 Hh1 Hh2 Hh3 x x_downsample r maps.
  pose proof (four_stage_model a b e in_chans d0 d1 d2 d3 h0 h1 h2 h3
                window_size dwconv_kernel_size mlp_ratio qk_scale out_indices
                ape self B Hinit Ha Hb HB Hws Hev Hker Hh0 Hh1 Hh2 Hh3) as M.
  cbv zeta in M. destruct M as (_ & Hff & Hok & _ & Hns).
  fold r in Hok, Hns.
  split; [|split; [|split; [|split]]].
  - intros until x_list. intros Hinit' Hup.
    apply MixUnet_init_activate in Hinit'. destruct Hinit' as [Hact _].
    exact (forward_up_features_square_maps self' x' xd' Wh Ww x_ilayer
             x_list Hact Hup).
  - exact Hff.
  - intros Hsq. apply Hok; [exact Hsq | reflexivity | reflexivity].
  - intros Hsq. eexists. apply Hns. exact Hsq.
  - subst maps. split.
    + intros E. injection E as E1 E2 _. congruence.
    + intros <-. subst r. rewrite Nat.sqrt_square. reflexivity.
Qed.

Lemma forward_up_features_returns_square_maps_witness :
  exists self,
    MixUnet.init (32 * 1, 32 * 4) 4 3 (inl 24) [2; 2; 6; 2] [3; 6; 12; 24]
      7 3 4 false [1; 2; 3]%Z false true = Ok self /\
    MixUnet.forward_up_features self [1; 1 * 4; 8 * 24]
      [[1; 8 * 1 * (8 * 4); 24]; [1; 4 * 1 * (4 * 4); 2 * 24];
       [1; 2 * 1 * (2 * 4); 4 * 24]; [1; 1 * 4; 8 * 24]] 1 4
    = Ok ([1; 2 * 24; 4 * Nat.sqrt (1 * 4); 4 * Nat.sqrt (1 * 4)],
          [[1; 8 * 24; Nat.sqrt (1 * 4); Nat.sqrt (1 * 4)];
           [1; 4 * 24; 2 * Nat.sqrt (1 * 4); 2 * Nat.sqrt (1 * 4)];
           [1; 2 * 24; 4 * Nat.sqrt (1 * 4); 4 * Nat.sqrt (1 * 4)]]).
Proof.
  destruct MixUnet_32x128_run as (s & E & _).
  exists s. split; [exact E|].
  pose proof (forward_up_features_returns_square_maps 1 4 24 3 2 2 6 2 3 6
                12 24 7 3 4 false [1; 2; 3]%Z false s 1 E
                ltac:(lia) ltac:(lia) ltac:(lia) ltac:(lia)
                eq_refl eq_refl eq_refl eq_refl eq_refl eq_refl) as P.
  cbv zeta in P. destruct P as (_ & _ & P & _).
  apply P. reflexivity.
Defined.






